(** * Publisher-side node registry, command ingestion and identity trust

    A shallow embedding of the Go sources

      - [nodes/RegisteredNodes]            (the node registry),
      - [nodes/ReceiveNodeConfigure.go]    (configure-command ingestion),
      - [inputs/InputFromSetCommands.go]   (set-command ingestion),
      - [publisher/handlePublisherDiscovery.go] (identity trust chain),

    together with the properties of the specification that concern them.

    Go pointers and Go maps are reference values.  Node structs and the
    [Attr], [Config] and [Status] maps they point to therefore live in an
    explicit store, and a node refers to its maps by location, so that two
    nodes sharing one map are visible as such.  Every method is a
    computation in a state monad over that store; a run-time panic (write
    to a nil map, nil dereference) is an outcome of its own.

    Every method of a component runs under the mutex of that component:
    the model runs the methods one after the other and has no mutex.
    Logging has no effect on the state and is left out; the wall clock is
    a parameter.  Decoding, signature and JSON primitives of other
    packages are parameters of the functions that call them. *)

From Stdlib Require Import Ascii String ZArith.
From stdpp Require Import base option list gmap strings pretty.

Local Open Scope string_scope.

(** ** Package [types]: message types, constants, records *)

Module types.

(** Modelled from the spec: the package [types] is not part of the
    sources.  The reserved message-type tokens follow the address
    comments of the sources ([domain/publisherID/nodeID/$node],
    [.../$input], [<domain>/<publisher>/$identity]). *)
Definition MessageTypeNodeDiscovery : string := "$node".
Definition MessageTypeInputDiscovery : string := "$input".
Definition MessageTypeConfigure : string := "$configure".
Definition MessageTypeSet : string := "$set".
Definition MessageTypeIdentity : string := "$identity".
Definition DSSPublisherID : string := "$dss".

(** Modelled from the spec: standard attribute, status and data type
    names of the absent package [types]. *)
Definition NodeAttrName : string := "name".
Definition NodeAttrType : string := "type".
Definition NodeAttrPublishEvent : string := "publishEvent".
Definition NodeAttrPublishHistory : string := "publishHistory".
Definition NodeAttrPublishLatest : string := "publishLatest".
Definition NodeAttrPublishRaw : string := "publishRaw".
Definition NodeStatusLastError : string := "lastError".
Definition NodeStatusRunState : string := "runState".
Definition DataTypeString : string := "string".
Definition DataTypeBool : string := "boolean".

(** [types.ConfigAttr], a value type. *)
Record ConfigAttr := mkConfigAttr {
  DataType : string;
  Description : string;
  Default : string
}.

#[global] Instance ConfigAttr_eq_dec : EqDecision ConfigAttr.
Proof. solve_decision. Defined.

(** A location of the store; [None] is Go's [nil]. *)
Definition loc := positive.
Definition ref := option loc.

(** [types.NodeDiscoveryMessage]: the three maps are references. *)
Record NodeDiscoveryMessage := mkNode {
  Address : string;
  Attr : ref;
  Config : ref;
  HWID : string;
  NodeID : string;
  PublisherID : string;
  Status : ref;
  Timestamp : string
}.

#[global] Instance NodeDiscoveryMessage_eq_dec : EqDecision NodeDiscoveryMessage.
Proof. solve_decision. Defined.

(** [types.NodeAttrMap = map[NodeAttr]string] received as a value. *)
Abbreviation NodeAttrMap := (gmap string string).

End types.

Import types.

(** ** The store and the registry state *)

(** [RegisteredNodes]: the three indexes of the registry.  The maps hold
    node pointers, a stored [nil] is a binding to [None]; [updatedNodes]
    itself may be the nil map. *)
Record RegisteredNodes := mkRegisteredNodes {
  domain : string;
  publisherID : string;
  deviceMap : gmap string ref;
  nodeMap : gmap string ref;
  updatedNodes : option (gmap string ref)
}.

#[global] Instance RegisteredNodes_eq_dec : EqDecision RegisteredNodes.
Proof. solve_decision. Defined.

(** The world a registry method runs in: the store of node structs, the
    store of [map[string]string] values ([Attr] and [Status] maps), the
    store of [map[NodeAttr]ConfigAttr] values, the registry, and the
    number of clock readings taken so far. *)
Record World := mkWorld {
  nodeHeap : gmap loc NodeDiscoveryMessage;
  strMapHeap : gmap loc (gmap string string);
  cfgMapHeap : gmap loc (gmap string ConfigAttr);
  regNodes : RegisteredNodes;
  ticks : nat
}.

#[global] Instance World_eq_dec : EqDecision World.
Proof. solve_decision. Defined.

(** ** The monad of registry methods *)

Inductive Result (A : Type) : Type :=
  | Done (a : A) (w : World)
  | Panic.
Arguments Done {A} a w.
Arguments Panic {A}.

#[global] Instance Result_eq_dec {A} `{EqDecision A} : EqDecision (Result A).
Proof. solve_decision. Defined.

Definition M (A : Type) : Type := World -> Result A.

Definition ret {A} (a : A) : M A := fun w => Done a w.

Definition bind {A B} (m : M A) (k : A -> M B) : M B :=
  fun w => match m w with
           | Done a w' => k a w'
           | Panic => Panic
           end.

Notation "x <- m ;; k" := (bind m (fun x => k))
  (at level 100, m at next level, right associativity).
Notation "m ;;; k" := (bind m (fun _ => k))
  (at level 100, right associativity).

Definition getReg : M RegisteredNodes := fun w => Done (regNodes w) w.

Definition putReg (r : RegisteredNodes) : M unit :=
  fun w => Done tt (mkWorld (nodeHeap w) (strMapHeap w) (cfgMapHeap w) r (ticks w)).

(** Go's [m[k]] on a map of pointers: the zero value [nil] when absent. *)
Definition lookupPtr (m : gmap string ref) (k : string) : ref :=
  default None (m !! k).

(** Go's [m[k]] on a map of strings: the empty string when absent. *)
Definition lookupStr (m : gmap string string) (k : string) : string :=
  default "" (m !! k).

(** *** Store primitives *)

(** [*p]: dereferencing [nil] panics. *)
Definition derefNode (p : ref) : M NodeDiscoveryMessage :=
  fun w => match p with
           | Some l => match nodeHeap w !! l with
                       | Some n => Done n w
                       | None => Panic
                       end
           | None => Panic
           end.

(** [&T{...}]: a new struct in the store. *)
Definition allocNode (n : NodeDiscoveryMessage) : M ref :=
  fun w => let l := fresh (dom (nodeHeap w)) in
           Done (Some l)
                (mkWorld (<[l := n]> (nodeHeap w)) (strMapHeap w) (cfgMapHeap w)
                         (regNodes w) (ticks w)).

(** [p.f = v] for a struct in the store. *)
Definition storeNode (p : ref) (n : NodeDiscoveryMessage) : M unit :=
  fun w => match p with
           | Some l => match nodeHeap w !! l with
                       | Some _ =>
                           Done tt (mkWorld (<[l := n]> (nodeHeap w)) (strMapHeap w)
                                            (cfgMapHeap w) (regNodes w) (ticks w))
                       | None => Panic
                       end
           | None => Panic
           end.

(** Reading a map: the nil map reads as the empty map. *)
Definition readStrMap (r : ref) : M (gmap string string) :=
  fun w => match r with
           | Some l => match strMapHeap w !! l with
                       | Some m => Done m w
                       | None => Panic
                       end
           | None => Done ∅ w
           end.

Definition readCfgMap (r : ref) : M (gmap string ConfigAttr) :=
  fun w => match r with
           | Some l => match cfgMapHeap w !! l with
                       | Some m => Done m w
                       | None => Panic
                       end
           | None => Done ∅ w
           end.

(** [make(map[..]string)] followed by filling it with [m]. *)
Definition allocStrMap (m : gmap string string) : M ref :=
  fun w => let l := fresh (dom (strMapHeap w)) in
           Done (Some l)
                (mkWorld (nodeHeap w) (<[l := m]> (strMapHeap w)) (cfgMapHeap w)
                         (regNodes w) (ticks w)).

Definition allocCfgMap (m : gmap string ConfigAttr) : M ref :=
  fun w => let l := fresh (dom (cfgMapHeap w)) in
           Done (Some l)
                (mkWorld (nodeHeap w) (strMapHeap w) (<[l := m]> (cfgMapHeap w))
                         (regNodes w) (ticks w)).

(** Writing through a map reference: every holder of the reference sees
    the write; writing to the nil map panics. *)
Definition writeStrMap (r : ref) (m : gmap string string) : M unit :=
  fun w => match r with
           | Some l => match strMapHeap w !! l with
                       | Some _ =>
                           Done tt (mkWorld (nodeHeap w) (<[l := m]> (strMapHeap w))
                                            (cfgMapHeap w) (regNodes w) (ticks w))
                       | None => Panic
                       end
           | None => Panic
           end.

Definition writeCfgMap (r : ref) (m : gmap string ConfigAttr) : M unit :=
  fun w => match r with
           | Some l => match cfgMapHeap w !! l with
                       | Some _ =>
                           Done tt (mkWorld (nodeHeap w) (strMapHeap w)
                                            (<[l := m]> (cfgMapHeap w)) (regNodes w) (ticks w))
                       | None => Panic
                       end
           | None => Panic
           end.

#[global] Arguments derefNode : simpl never.
#[global] Arguments allocNode : simpl never.
#[global] Arguments storeNode : simpl never.
#[global] Arguments readStrMap : simpl never.
#[global] Arguments readCfgMap : simpl never.
#[global] Arguments allocStrMap : simpl never.
#[global] Arguments allocCfgMap : simpl never.
#[global] Arguments writeStrMap : simpl never.
#[global] Arguments writeCfgMap : simpl never.

(** ** Errors

    One constructor per error message of the sources; the arguments are
    the values formatted into the message. *)
Inductive error : Type :=
  | ErrDeviceNotFound (nodeHWID : string)
  | ErrConfigNotExist (nodeHWID attrName : string)
  | ErrNotBoolean (nodeHWID attrName : string)
  | ErrNotFloat (nodeHWID attrName : string)
  | ErrNotInteger (nodeHWID attrName : string)
  | ErrNotEncrypted (address : string)
  | ErrNotSigned (address : string)
  | ErrDecode (address : string) (cause : string)
  | ErrUnknownNode (address : string)
  | ErrIncompleteAddress (address : string)
  | ErrEarlierTimestamp (address sender : string)
  | ErrSignedOnly (address : string)
  | ErrParseJSON
  | ErrMissingIdentity (address : string)
  | ErrNoValidDSSSignature (address : string).

#[global] Instance error_eq_dec : EqDecision error.
Proof. solve_decision. Defined.

(** ** Package [nodes]: the registry *)

Section Registry.

(** [time.Now().Format(types.TimeFormat)]: the [n]-th reading of the
    wall clock, as a formatted string. *)
Variable Now : nat -> string.

Definition timeNow : M string :=
  fun w => Done (Now (ticks w))
                (mkWorld (nodeHeap w) (strMapHeap w) (cfgMapHeap w) (regNodes w)
                         (S (ticks w))).

(** [MakeNodeAddress]: [fmt.Sprintf("%s/%s/%s", ...)], with the message
    type appended when it is not empty. *)
Definition MakeNodeAddress (domain publisherID nodeID messageType : string) : string :=
  let address := domain +:+ "/" +:+ publisherID +:+ "/" +:+ nodeID in
  if decide (messageType ≠ "") then address +:+ "/" +:+ messageType else address.

Definition MakeNodeConfigureAddress (domain publisherID nodeID : string) : string :=
  MakeNodeAddress domain publisherID nodeID MessageTypeConfigure.

Definition MakeNodeDiscoveryAddress (domain publisherID nodeID : string) : string :=
  MakeNodeAddress domain publisherID nodeID MessageTypeNodeDiscovery.

Definition NewNodeConfig (dataType description defaultValue : string) : ConfigAttr :=
  mkConfigAttr dataType description defaultValue.

(** [Clone]: a copy of the struct with new [Attr] and [Status] maps; the
    [Config] field is copied as it is, a reference to the same map. *)
Definition Clone (node : ref) : M ref :=
  n <- derefNode node ;;
  attr <- readStrMap (Attr n) ;;
  newAttr <- allocStrMap attr ;;
  status <- readStrMap (Status n) ;;
  newStatus <- allocStrMap status ;;
  allocNode (mkNode (Address n) newAttr (Config n) (HWID n) (NodeID n)
                    (PublisherID n) newStatus (Timestamp n)).

(** [NewNode]: [nil] on an empty argument.  The maps of the new node are
    new and empty, so the assignments to [newNode.Attr] and
    [newNode.Config] are written as the contents they produce. *)
Definition NewNode (domain publisherID nodeHWID nodeType : string) : M ref :=
  if decide (domain = "" ∨ publisherID = "" ∨ nodeHWID = "" ∨ nodeType = "")
  then ret None
  else
    let address := MakeNodeAddress domain publisherID nodeHWID MessageTypeNodeDiscovery in
    attr <- allocStrMap ∅ ;;
    config <- allocCfgMap ∅ ;;
    status <- allocStrMap ∅ ;;
    ts <- timeNow ;;
    newNode <- allocNode (mkNode address attr config nodeHWID nodeHWID publisherID
                                 status ts) ;;
    writeStrMap attr (<[NodeAttrType := nodeType]> ∅) ;;;
    writeCfgMap config
      (<[NodeAttrPublishRaw :=
           NewNodeConfig DataTypeBool "Enable publishing raw outputs" "true"]>
      (<[NodeAttrPublishLatest :=
           NewNodeConfig DataTypeBool "Enable publishing latest output" "true"]>
      (<[NodeAttrPublishHistory :=
           NewNodeConfig DataTypeBool "Enable publishing output history" "true"]>
      (<[NodeAttrPublishEvent :=
           NewNodeConfig DataTypeString "Enable publishing outputs as event" "false"]>
      (<[NodeAttrName :=
           NewNodeConfig DataTypeString "Human friendly node name" ""]> ∅))))) ;;;
    ret newNode.

(** [updateNode]: registers the node under both indexes, stamps it and
    marks it as updated; does nothing for [nil]. *)
Definition updateNode (node : ref) : M unit :=
  match node with
  | None => ret tt
  | Some _ =>
      n <- derefNode node ;;
      r <- getReg ;;
      let nodeMap' := <[NodeID n := node]> (nodeMap r) in
      let deviceMap' := <[HWID n := node]> (deviceMap r) in
      let updated := default ∅ (updatedNodes r) in
      ts <- timeNow ;;
      storeNode node (mkNode (Address n) (Attr n) (Config n) (HWID n) (NodeID n)
                             (PublisherID n) (Status n) ts) ;;;
      putReg (mkRegisteredNodes (domain r) (publisherID r) deviceMap' nodeMap'
                                (Some (<[Address n := node]> updated)))
  end.

Definition GetNodeByHWID (nodeHWID : string) : M ref :=
  r <- getReg ;; ret (lookupPtr (deviceMap r) nodeHWID).

Definition GetNodeByNodeID (nodeID : string) : M ref :=
  r <- getReg ;; ret (lookupPtr (nodeMap r) nodeID).

(** [CreateNode]: the existing node, or a new registered one. *)
Definition CreateNode (hwID nodeType : string) : M ref :=
  existingNode <- GetNodeByHWID hwID ;;
  match existingNode with
  | Some _ => ret existingNode
  | None =>
      r <- getReg ;;
      newNode <- NewNode (domain r) (publisherID r) hwID nodeType ;;
      updateNode newNode ;;;
      ret newNode
  end.

(** [CreateNodeConfig]: the descriptor is written through the [Config]
    reference of the clone. *)
Definition CreateNodeConfig (hwID attrName dataType description defaultValue : string)
  : M (option ConfigAttr) :=
  node <- GetNodeByHWID hwID ;;
  match node with
  | None => ret None
  | Some _ =>
      n <- derefNode node ;;
      nodeConfig <- readCfgMap (Config n) ;;
      let config :=
        match nodeConfig !! attrName with
        | None => mkConfigAttr dataType description defaultValue
        | Some config =>
            (* config.DataType, config.Default and config.Description are
               assigned in turn *)
            let config := mkConfigAttr dataType (Description config) (Default config) in
            let config := mkConfigAttr (DataType config) (Description config) defaultValue in
            mkConfigAttr (DataType config) description (Default config)
        end in
      newNode <- Clone node ;;
      nn <- derefNode newNode ;;
      newConfig <- readCfgMap (Config nn) ;;
      writeCfgMap (Config nn) (<[attrName := config]> newConfig) ;;;
      updateNode newNode ;;;
      ret (Some config)
  end.

(** [strings.Split(s, "/")] for a one-byte separator. *)
Fixpoint Split (s : string) (sep : ascii) : list string :=
  match s with
  | EmptyString => [EmptyString]
  | String c s' =>
      if decide (c = sep) then EmptyString :: Split s' sep
      else match Split s' sep with
           | seg :: rest => String c seg :: rest
           | [] => [String c EmptyString]
           end
  end.

Definition slash : ascii := "/"%char.

(** [GetNodeByAddress]: the third segment is the nodeID. *)
Definition GetNodeByAddress (address : string) : M ref :=
  let segments := Split address slash in
  if decide (length segments < 3) then ret None
  else
    r <- getReg ;;
    ret (lookupPtr (nodeMap r) (default "" (segments !! 2))).

(** [GetNodeAttr] *)
Definition GetNodeAttr (nodeHWID attrName : string) : M string :=
  r <- getReg ;;
  match lookupPtr (deviceMap r) nodeHWID with
  | None => ret ""
  | Some l =>
      n <- derefNode (Some l) ;;
      attr <- readStrMap (Attr n) ;;
      ret (lookupStr attr attrName)
  end.

(** [GetNodeConfigString]: the attribute value, else the configuration
    default, else the default of the caller. *)
Definition GetNodeConfigString (nodeHWID attrName defaultValue : string)
  : M (string * option error) :=
  r <- getReg ;;
  match lookupPtr (deviceMap r) nodeHWID with
  | None => ret (defaultValue, Some (ErrDeviceNotFound nodeHWID))
  | Some l =>
      n <- derefNode (Some l) ;;
      nodeConfig <- readCfgMap (Config n) ;;
      match nodeConfig !! attrName with
      | None => ret (defaultValue, Some (ErrConfigNotExist nodeHWID attrName))
      | Some config =>
          nodeAttr <- readStrMap (Attr n) ;;
          let attrValue :=
            match nodeAttr !! attrName with
            | Some v => if decide (v = "") then Default config else v
            | None => Default config
            end in
          if decide (attrValue = "") then ret (defaultValue, None)
          else ret (attrValue, None)
      end
  end.

(** [GetNodeConfigBool], [GetNodeConfigInt] and [GetNodeConfigFloat] have
    the same body: they differ in the parser and in the error they
    report, which are the parameters [parse] and [notT] here. *)
Definition GetNodeConfigParsed {T : Type} (parse : string -> option T)
    (notT : string -> string -> error)
    (nodeHWID attrName : string) (defaultValue : T) : M (T * option error) :=
  res <- GetNodeConfigString nodeHWID attrName "" ;;
  match res with
  | (_, Some err) => ret (defaultValue, Some err)
  | (valueStr, None) =>
      if decide (valueStr = "") then ret (defaultValue, None)
      else match parse valueStr with
           | None => ret (defaultValue, Some (notT nodeHWID attrName))
           | Some value => ret (value, None)
           end
  end.

(** [strconv.ParseBool] *)
Definition ParseBool (str : string) : option bool :=
  if bool_decide (str ∈ ["1"; "t"; "T"; "TRUE"; "true"; "True"]) then Some true
  else if bool_decide (str ∈ ["0"; "f"; "F"; "FALSE"; "false"; "False"]) then Some false
  else None.

(** [strconv.Atoi]: an optional sign and decimal digits, in the range of
    a 64-bit [int]. *)
Definition digitOf (c : ascii) : option Z :=
  let n := Z.of_N (N_of_ascii c) in
  if decide (48 ≤ n ≤ 57)%Z then Some (n - 48)%Z else None.

Fixpoint digits (s : string) (acc : Z) : option Z :=
  match s with
  | EmptyString => Some acc
  | String c s' =>
      match digitOf c with
      | Some d => digits s' (10 * acc + d)%Z
      | None => None
      end
  end.

Definition intSize : Z := 64.

Definition Atoi (s : string) : option Z :=
  let '(neg, body) :=
    match s with
    | String "-" s' => (true, s')
    | String "+" s' => (false, s')
    | _ => (false, s)
    end in
  match body with
  | EmptyString => None
  | _ =>
      match digits body 0 with
      | None => None
      | Some n =>
          let v := if neg : bool then (- n)%Z else n in
          if decide (- 2 ^ (intSize - 1) ≤ v < 2 ^ (intSize - 1))%Z then Some v
          else None
      end
  end.

Definition GetNodeConfigBool : string -> string -> bool -> M (bool * option error) :=
  GetNodeConfigParsed ParseBool ErrNotBoolean.

Definition GetNodeConfigInt : string -> string -> Z -> M (Z * option error) :=
  GetNodeConfigParsed Atoi ErrNotInteger.

(** [strconv.ParseFloat(valueStr, 32)] converted to [float32]: the
    floating-point type and its parser are left abstract. *)
Variable float32 : Type.
Variable ParseFloat32 : string -> option float32.

Definition GetNodeConfigFloat : string -> string -> float32 -> M (float32 * option error) :=
  GetNodeConfigParsed ParseFloat32 ErrNotFloat.

(** [GetUpdatedNodes]: the pending nodes; the order of the range over a
    Go map is not specified, the list follows the order of the keys. *)
Definition GetUpdatedNodes (clearUpdates : bool) : M (list ref) :=
  r <- getReg ;;
  match updatedNodes r with
  | None => ret []
  | Some updated =>
      (if clearUpdates
       then putReg (mkRegisteredNodes (domain r) (publisherID r) (deviceMap r)
                                      (nodeMap r) None)
       else ret tt) ;;;
      ret (snd <$> map_to_list updated)
  end.

(** [SetNodeID]: the clone is taken first; [rename] is the part of the
    function that follows the choice of the new nodeID. *)
Definition SetNodeID (node : ref) (newNodeID : string) : M bool :=
  match node with
  | None => ret false
  | Some _ =>
      newNode <- Clone node ;;
      n <- derefNode node ;;
      let rename (newID : string) : M bool :=
        nn <- derefNode newNode ;;
        storeNode newNode (mkNode (Address nn) (Attr nn) (Config nn) (HWID nn) newID
                                  (PublisherID nn) (Status nn) (Timestamp nn)) ;;;
        r <- getReg ;;
        putReg (mkRegisteredNodes (domain r) (publisherID r) (deviceMap r)
                  (<[NodeID n := None]> (nodeMap r))
                  (Some (<[NodeID n := None]> (default ∅ (updatedNodes r))))) ;;;
        nn <- derefNode newNode ;;
        r <- getReg ;;
        storeNode newNode
          (mkNode (MakeNodeDiscoveryAddress (domain r) (publisherID r) (NodeID nn))
                  (Attr nn) (Config nn) (HWID nn) (NodeID nn)
                  (PublisherID nn) (Status nn) (Timestamp nn)) ;;;
        updateNode newNode ;;;
        ret true in
      if decide (newNodeID = "") then rename (HWID n)
      else
        existingNode <- GetNodeByNodeID newNodeID ;;
        if decide (existingNode ≠ None ∧ newNodeID ≠ HWID n) then ret false
        else rename newNodeID
  end.

(** [UpdateErrorStatus]: the two tests read the [Status] map of the old
    node, the assignments go to the [Status] map of the clone. *)
Definition UpdateErrorStatus (nodeHWID runState errorMsg : string) : M bool :=
  node <- GetNodeByHWID nodeHWID ;;
  match node with
  | None => ret false
  | Some _ =>
      newNode <- Clone node ;;
      n <- derefNode node ;;
      nn <- derefNode newNode ;;
      status <- readStrMap (Status n) ;;
      changed1 <-
        (if decide (lookupStr status NodeStatusLastError ≠ errorMsg)
         then newStatus <- readStrMap (Status nn) ;;
              writeStrMap (Status nn) (<[NodeStatusLastError := errorMsg]> newStatus) ;;;
              ret true
         else ret false) ;;
      status <- readStrMap (Status n) ;;
      changed2 <-
        (if decide (lookupStr status NodeStatusRunState ≠ runState)
         then newStatus <- readStrMap (Status nn) ;;
              writeStrMap (Status nn) (<[NodeStatusRunState := runState]> newStatus) ;;;
              ret true
         else ret changed1) ;;
      (if changed2 : bool then updateNode newNode else ret tt) ;;;
      ret changed2
  end.

(** The body of the loops of [UpdateNodeAttr] and [UpdateNodeStatus]:
    [if m[key] != value { m[key] = value; changed = true }] on the map
    of the clone. *)
Definition mergeStep (acc : gmap string string * bool) (kv : string * string)
  : gmap string string * bool :=
  if decide (lookupStr acc.1 kv.1 ≠ kv.2) then (<[kv.1 := kv.2]> acc.1, true) else acc.

(** [UpdateNodeAttr].  The loop assigns to the [Attr] map of the clone,
    which nothing else refers to: it is run on the contents of that map,
    which are written back once. *)
Definition UpdateNodeAttr (nodeHWID : string) (attrParams : NodeAttrMap) : M bool :=
  node <- GetNodeByHWID nodeHWID ;;
  match node with
  | None => ret false
  | Some _ =>
      newNode <- Clone node ;;
      nn <- derefNode newNode ;;
      newAttr <- readStrMap (Attr nn) ;;
      let res := foldl mergeStep (newAttr, false) (map_to_list attrParams) in
      writeStrMap (Attr nn) res.1 ;;;
      (if res.2 then updateNode newNode else ret tt) ;;;
      ret res.2
  end.

(** The body of the loop of [UpdateNodeConfigValues]: a key without a
    configuration is skipped; otherwise the value is written into the
    attributes of the clone when the OLD node has no such attribute or a
    different value. *)
Definition configStep (config : gmap string ConfigAttr) (attr : gmap string string)
    (acc : gmap string string * bool) (kv : string * string)
  : gmap string string * bool :=
  match config !! kv.1 with
  | None => acc
  | Some _ =>
      match attr !! kv.1 with
      | Some oldValue =>
          if decide (oldValue ≠ kv.2) then (<[kv.1 := kv.2]> acc.1, true) else acc
      | None => (<[kv.1 := kv.2]> acc.1, true)
      end
  end.

(** [UpdateNodeConfigValues]; [params] may be the nil map.  The loop
    reads the [Config] and [Attr] maps of the old node and assigns to the
    [Attr] map of the clone. *)
Definition UpdateNodeConfigValues (nodeHWID : string) (params : option NodeAttrMap)
  : M bool :=
  node <- GetNodeByHWID nodeHWID ;;
  match node, params with
  | Some _, Some params =>
      newNode <- Clone node ;;
      n <- derefNode node ;;
      nn <- derefNode newNode ;;
      config <- readCfgMap (Config n) ;;
      attr <- readStrMap (Attr n) ;;
      newAttr <- readStrMap (Attr nn) ;;
      let res := foldl (configStep config attr) (newAttr, false) (map_to_list params) in
      writeStrMap (Attr nn) res.1 ;;;
      (if res.2 then updateNode newNode else ret tt) ;;;
      ret res.2
  | _, _ => ret false
  end.

(** [UpdateNodeConfig]; [configAttr] may be [nil]. *)
Definition UpdateNodeConfig (nodeHWID attrName : string) (configAttr : option ConfigAttr)
  : M unit :=
  node <- GetNodeByHWID nodeHWID ;;
  match node, configAttr with
  | Some _, Some c =>
      if decide (attrName = "") then ret tt
      else
        newNode <- Clone node ;;
        nn <- derefNode newNode ;;
        newConfig <- readCfgMap (Config nn) ;;
        writeCfgMap (Config nn) (<[attrName := c]> newConfig) ;;;
        updateNode newNode
  | _, _ => ret tt
  end.

(** [UpdateNodeStatus]: as [UpdateNodeAttr], on the [Status] map. *)
Definition UpdateNodeStatus (nodeHWID : string) (statusAttr : gmap string string) : M bool :=
  node <- GetNodeByHWID nodeHWID ;;
  match node with
  | None => ret false
  | Some _ =>
      newNode <- Clone node ;;
      nn <- derefNode newNode ;;
      newStatus <- readStrMap (Status nn) ;;
      let res := foldl mergeStep (newStatus, false) (map_to_list statusAttr) in
      writeStrMap (Status nn) res.1 ;;;
      (if res.2 then updateNode newNode else ret tt) ;;;
      ret res.2
  end.

End Registry.

#[global] Arguments updateNode : simpl never.
#[global] Arguments Clone : simpl never.

Definition NewRegisteredNodes (domain publisherID : string) : RegisteredNodes :=
  mkRegisteredNodes domain publisherID ∅ ∅ (Some ∅).

(** ** Package [messaging]: decoded envelopes *)

(** The three results of [MessageSigner.DecodeMessage] and the value it
    decodes into. *)
Record Decoded (T : Type) := mkDecoded {
  isSigned : bool;
  isEncrypted : bool;
  decodeErr : option string;
  decoded : T
}.
Arguments mkDecoded {T} _ _ _ _.
Arguments isSigned {T} _.
Arguments isEncrypted {T} _.
Arguments decodeErr {T} _.
Arguments decoded {T} _.

(** ** Package [nodes]: configure commands *)

(** [types.NodeConfigureMessage]; [cm_Attr] may be the nil map. *)
Record NodeConfigureMessage := mkNodeConfigureMessage {
  cm_Address : string;
  cm_Attr : option NodeAttrMap;
  cm_Sender : string;
  cm_Timestamp : string
}.

(** [NodeConfigureHandler]: the filter of the application. *)
Definition NodeConfigureHandler : Type :=
  string -> option NodeAttrMap -> option NodeAttrMap.

Section ReceiveNodeConfigure.

Variable Now : nat -> string.
(** [messageSigner.DecodeMessage(message, &configureMessage)] *)
Variable DecodeMessage : string -> Decoded NodeConfigureMessage.
(** the field [nodeConfigureHandler], possibly [nil] *)
Variable nodeConfigureHandler : option NodeConfigureHandler.

Definition receiveConfigureCommand (address message : string) : M (option error) :=
  let d := DecodeMessage message in
  let configureMessage := decoded d in
  if negb (isEncrypted d) then ret (Some (ErrNotEncrypted address))
  else if negb (isSigned d) then ret (Some (ErrNotSigned address))
  else
    match decodeErr d with
    | Some err => ret (Some (ErrDecode address err))
    | None =>
        node <- GetNodeByAddress address ;;
        if decide (node = None ∨ message = "") then ret (Some (ErrUnknownNode address))
        else
          let params := cm_Attr configureMessage in
          let params :=
            match nodeConfigureHandler with
            | Some handler => handler address params
            | None => params
            end in
          match params with
          | Some _ =>
              n <- derefNode node ;;
              UpdateNodeConfigValues Now (NodeID n) params ;;;
              ret None
          | None => ret None
          end
    end.

End ReceiveNodeConfigure.

(** ** Package [inputs]: set commands *)

(** [types.SetInputMessage] *)
Record SetInputMessage := mkSetInputMessage {
  sm_Address : string;
  sm_Sender : string;
  sm_Timestamp : string;
  sm_Value : string
}.

(** One call of an input callback [handler(inputAddress, sender, value)]:
    the callback is code of the application, the model records that it
    was called and with what. *)
Record Invocation := mkInvocation {
  inv_handler : nat;
  inv_inputAddress : string;
  inv_sender : string;
  inv_value : string
}.

#[global] Instance Invocation_eq_dec : EqDecision Invocation.
Proof. solve_decision. Defined.

(** Modelled from the spec: [RegisteredInputs] is not part of the
    sources.  It is the store of inputs keyed by full input address, each
    holding an optional callback of the application (here the number that
    identifies the callback). *)
Definition RegisteredInputs : Type := gmap string (option nat).

(** Modelled from the spec: [RegisteredInputs.NotifyInputHandler] is not
    part of the sources.  It invokes the callback registered for the input
    with [(inputAddress, sender, value)]; an unknown input or an input
    without callback is a no-op. *)
Definition NotifyInputHandler (regInputs : RegisteredInputs)
    (inputAddress sender value : string) : list Invocation :=
  match regInputs !! inputAddress with
  | Some (Some h) => [mkInvocation h inputAddress sender value]
  | _ => []
  end.

(** [InputFromSetCommands]: the state a set command can touch. *)
Record InputFromSetCommands := mkInputFromSetCommands {
  senderTimestamp : gmap string string;
  registeredInputs : RegisteredInputs;
  subscriptions : gmap string string
}.

(** Go's [a > b] on strings: byte-wise lexicographic order. *)
Definition strGt (a b : string) : bool :=
  match String.compare a b with
  | Gt => true
  | _ => false
  end.

Section InputFromSetCommands.

(** [messageSigner.DecodeMessage(message, &setMessage)] *)
Variable DecodeMessage : string -> Decoded SetInputMessage.

(** [decodeSetCommand]: the error returned, the state afterwards and the
    callbacks invoked. *)
Definition decodeSetCommand (ifset : InputFromSetCommands) (address message : string)
  : option error * InputFromSetCommands * list Invocation :=
  let segments := Split address slash in
  if decide (length segments < 6) then (Some (ErrIncompleteAddress address), ifset, [])
  else
    let segments := <[5 := MessageTypeInputDiscovery]> segments in
    let inputAddr := String.concat "/" segments in
    let d := DecodeMessage message in
    let setMessage := decoded d in
    if negb (isEncrypted d) then (Some (ErrNotEncrypted address), ifset, [])
    else if negb (isSigned d) then (Some (ErrNotSigned address), ifset, [])
    else
      match decodeErr d with
      | Some err => (Some (ErrDecode address err), ifset, [])
      | None =>
          let prevTimestamp := lookupStr (senderTimestamp ifset) (sm_Sender setMessage) in
          if strGt prevTimestamp (sm_Timestamp setMessage)
          then (Some (ErrEarlierTimestamp address (sm_Sender setMessage)), ifset, [])
          else
            let ifset' :=
              mkInputFromSetCommands
                (<[sm_Sender setMessage := sm_Timestamp setMessage]> (senderTimestamp ifset))
                (registeredInputs ifset) (subscriptions ifset) in
            (None, ifset',
             NotifyInputHandler (registeredInputs ifset') inputAddr
                                (sm_Sender setMessage) (sm_Value setMessage))
      end.

End InputFromSetCommands.

(** ** Package [publisher]: discovery of publisher identities *)

(** [types.PublisherIdentityMessage]: the fields the trust decision reads. *)
Record PublisherIdentityMessage := mkPublisherIdentityMessage {
  pi_Address : string;
  pi_PublicKeySigning : string;
  pi_IdentitySignature : string
}.

#[global] Instance PublisherIdentityMessage_eq_dec : EqDecision PublisherIdentityMessage.
Proof. solve_decision. Defined.

(** Modelled from the spec: the publisher directory [DomainPublishers] is
    not part of the sources.  It stores identity records keyed by address
    and is the source of the public signing keys. *)
Definition DomainPublishers : Type := gmap string PublisherIdentityMessage.

(** Modelled from the spec: [DomainPublishers.UpdatePublisher] stores or
    replaces the identity record under its address. *)
Definition UpdatePublisher (pubs : DomainPublishers) (pub : PublisherIdentityMessage)
  : DomainPublishers :=
  <[pi_Address pub := pub]> pubs.

(** Modelled from the spec: [DomainPublishers.GetPublisherKey] returns the
    public signing key of the identity stored under the address, [nil]
    when there is none. *)
Definition GetPublisherKey (pubs : DomainPublishers) (address : string) : option string :=
  pi_PublicKeySigning <$> pubs !! address.

(** Modelled from the spec: [publishers.MakePublisherIdentityAddress], the
    address [<domain>/<publisher>/$identity]. *)
Definition MakePublisherIdentityAddress (domain publisherID : string) : string :=
  domain +:+ "/" +:+ publisherID +:+ "/" +:+ MessageTypeIdentity.

(** The outcome of a run of the discovery handler: it returns, with its
    error ([None] is [nil]) and the directory it leaves, or a nil
    dereference makes it panic. *)
Inductive Handled : Type :=
  | Returns (err : option error) (pubs : DomainPublishers)
  | Panics.

#[global] Instance Handled_eq_dec : EqDecision Handled.
Proof. solve_decision. Defined.

Section Publisher.

(** [publisher.Domain()] and the policy flag [publisher.signMessages] *)
Variable publisherDomain : string.
Variable signMessages : bool.
(** [jose.ParseSigned] followed by [UnsafePayloadWithoutVerification]:
    the payload of a message that parses as signed. *)
Variable ParseSigned : string -> option string.
(** [json.Unmarshal(payload, &pubIdentityMsg)], where [pubIdentityMsg] is
    a [*types.PublisherIdentityMessage] that starts as [nil]: [None] on
    a parse error; otherwise the pointer afterwards, which is still [nil]
    ([Some None]) when the payload is the JSON value [null]. *)
Variable Unmarshal : string -> option (option PublisherIdentityMessage).
(** [json.Marshal(pubIdentityMsg)] of the pointer, [None] on an error *)
Variable Marshal : option PublisherIdentityMessage -> option string.
(** [base64.URLEncoding.EncodeToString] *)
Variable URLEncode : string -> string.
(** [messaging.VerifyEcdsaSignature(payload, signature, publicKey)] *)
Variable VerifyEcdsaSignature : string -> string -> string -> bool.
(** [domainPublishers.UpdatePublisher(nil)].  The directory is not part
    of the sources and the specification speaks of identity records only,
    so what the call does with a [nil] record is left open: it panics
    ([None]) or it returns, leaving some directory. *)
Variable UpdateNilPublisher : DomainPublishers -> option DomainPublishers.

(** The call [publisher.domainPublishers.UpdatePublisher(pub)] with the
    pointer [pub]; [None] is a panic. *)
Definition callUpdatePublisher (pubs : DomainPublishers)
    (pub : option PublisherIdentityMessage) : option DomainPublishers :=
  match pub with
  | Some record => Some (UpdatePublisher pubs record)
  | None => UpdateNilPublisher pubs
  end.

(** [handleDSSDiscovery]: the DSS identity is stored as it is; the log
    line that follows reads [dssIdentityMsg.Address], which panics for a
    [nil] pointer.  [None] is a panic. *)
Definition handleDSSDiscovery (pubs : DomainPublishers)
    (dssIdentityMsg : option PublisherIdentityMessage) : option DomainPublishers :=
  match callUpdatePublisher pubs dssIdentityMsg with
  | None => None
  | Some pubs =>
      match dssIdentityMsg with
      | None => None
      | Some _ => Some pubs
      end
  end.

(** [handlePublisherDiscovery].  The signature check reads
    [pubIdentityMsg.IdentitySignature] once the identity is serialized,
    which panics for a [nil] pointer. *)
Definition handlePublisherDiscovery (pubs : DomainPublishers) (address message : string)
  : Handled :=
  let payload :=
    match ParseSigned message with
    | None => if signMessages then None else Some message
    | Some p => Some p
    end in
  match payload with
  | None => Returns (Some (ErrSignedOnly address)) pubs
  | Some payload =>
      match Unmarshal payload with
      | None => Returns (Some ErrParseJSON) pubs
      | Some pubIdentityMsg =>
          let dssAddress := MakePublisherIdentityAddress publisherDomain DSSPublisherID in
          match (if decide (address = dssAddress)
                 then handleDSSDiscovery pubs pubIdentityMsg
                 else Some pubs) with
          | None => Panics
          | Some pubs =>
              match GetPublisherKey pubs dssAddress with
              | None =>
                  match callUpdatePublisher pubs pubIdentityMsg with
                  | None => Panics
                  | Some pubs => Returns None pubs
                  end
              | Some dssSigningKey =>
                  match Marshal pubIdentityMsg with
                  | None => Returns (Some (ErrMissingIdentity address)) pubs
                  | Some identityAsJSON =>
                      let base64URLIdentity := URLEncode identityAsJSON in
                      match pubIdentityMsg with
                      | None => Panics
                      | Some record =>
                          let valid :=
                            VerifyEcdsaSignature base64URLIdentity
                              (pi_IdentitySignature record) dssSigningKey in
                          if negb valid
                          then Returns (Some (ErrNoValidDSSSignature address)) pubs
                          else
                            match callUpdatePublisher pubs pubIdentityMsg with
                            | None => Panics
                            | Some pubs => Returns None pubs
                            end
                      end
                  end
              end
          end
      end
  end.

End Publisher.

(** ** Package [nodes]: further methods of the registry *)

(** [GetAllNodes]: the values of [nodeMap], stored [nil]s included; the
    order of the range over a Go map is not specified, the list follows
    the order of the keys. *)
Definition GetAllNodes : M (list ref) :=
  r <- getReg ;; ret (snd <$> map_to_list (nodeMap r)).

Section UpdateNodes.

Variable Now : nat -> string.

(** The body of the loop of [UpdateNodes] for a node that is not [nil]:
    each map field that is [nil] is assigned a new empty map, in the
    struct itself, and the node is registered. *)
Definition updateLoadedNode (node : ref) : M unit :=
  n <- derefNode node ;;
  (match Attr n with
   | None =>
       attr <- allocStrMap ∅ ;;
       storeNode node (mkNode (Address n) attr (Config n) (HWID n) (NodeID n)
                              (PublisherID n) (Status n) (Timestamp n))
   | Some _ => ret tt
   end) ;;;
  n <- derefNode node ;;
  (match Config n with
   | None =>
       config <- allocCfgMap ∅ ;;
       storeNode node (mkNode (Address n) (Attr n) config (HWID n) (NodeID n)
                              (PublisherID n) (Status n) (Timestamp n))
   | Some _ => ret tt
   end) ;;;
  n <- derefNode node ;;
  (match Status n with
   | None =>
       status <- allocStrMap ∅ ;;
       storeNode node (mkNode (Address n) (Attr n) (Config n) (HWID n) (NodeID n)
                              (PublisherID n) status (Timestamp n))
   | Some _ => ret tt
   end) ;;;
  updateNode Now node.

(** [UpdateNodes]: [nil] entries of the list are skipped. *)
Fixpoint UpdateNodes (updates : list ref) : M unit :=
  match updates with
  | [] => ret tt
  | node :: rest =>
      (match node with
       | None => ret tt
       | Some _ => updateLoadedNode node
       end) ;;;
      UpdateNodes rest
  end.

End UpdateNodes.

(** ** Package [inputs]: addresses and subscriptions *)

(** [MakeSetInputAddress]:
    [fmt.Sprintf("%s/%s/%s/%s/%s/" + types.MessageTypeSet, ...)]. *)
Definition MakeSetInputAddress (domain publisherID nodeID inputType instance : string)
  : string :=
  domain +:+ "/" +:+ publisherID +:+ "/" +:+ nodeID +:+ "/" +:+ inputType +:+ "/"
    +:+ instance +:+ "/" +:+ MessageTypeSet.

(** [MakeInputDiscoveryAddress] *)
Definition MakeInputDiscoveryAddress (domain publisherID nodeID inputType instance : string)
  : string :=
  domain +:+ "/" +:+ publisherID +:+ "/" +:+ nodeID +:+ "/" +:+ inputType +:+ "/"
    +:+ instance +:+ "/" +:+ MessageTypeInputDiscovery.

(** A call of [messageSigner.Subscribe] or [messageSigner.Unsubscribe]
    with the given address; the handler passed along is always
    [decodeSetCommand]. *)
Inductive SignerCall : Type :=
  | Subscribe (address : string)
  | Unsubscribe (address : string).

#[global] Instance SignerCall_eq_dec : EqDecision SignerCall.
Proof. solve_decision. Defined.

#[global] Instance InputFromSetCommands_eq_dec : EqDecision InputFromSetCommands.
Proof. solve_decision. Defined.

Section Subscriptions.

(** the fields [domain] and [publisherID] of [InputFromSetCommands] *)
Variable ifsetDomain : string.
Variable ifsetPublisherID : string.

(** [subscribeToSetCommand]: the state afterwards and the calls made to
    the message signer. *)
Definition subscribeToSetCommand (ifset : InputFromSetCommands)
    (nodeID inputType instance : string) : InputFromSetCommands * list SignerCall :=
  let setAddr :=
    MakeSetInputAddress ifsetDomain ifsetPublisherID nodeID inputType instance in
  match subscriptions ifset !! setAddr with
  | None =>
      (mkInputFromSetCommands (senderTimestamp ifset) (registeredInputs ifset)
                              (<[setAddr := setAddr]> (subscriptions ifset)),
       [Subscribe setAddr])
  | Some _ => (ifset, [])
  end.

(** [unsubscribeFromSetCommand] *)
Definition unsubscribeFromSetCommand (ifset : InputFromSetCommands)
    (nodeID inputType instance : string) : InputFromSetCommands * list SignerCall :=
  let setAddr :=
    MakeSetInputAddress ifsetDomain ifsetPublisherID nodeID inputType instance in
  match subscriptions ifset !! setAddr with
  | Some _ =>
      (mkInputFromSetCommands (senderTimestamp ifset) (registeredInputs ifset)
                              (delete setAddr (subscriptions ifset)),
       [Unsubscribe setAddr])
  | None => (ifset, [])
  end.

End Subscriptions.

(** [NewInputFromSetCommands]: empty tables. *)
Definition NewInputFromSetCommands (registeredInputs : RegisteredInputs)
  : InputFromSetCommands :=
  mkInputFromSetCommands ∅ registeredInputs ∅.

(** * Properties *)

(** ** Concrete worlds used by the examples *)

Definition exampleNow (n : nat) : string :=
  "2020-06-01T12:00:0" +:+ pretty n.

Definition emptyWorld : World :=
  mkWorld ∅ ∅ ∅ (NewRegisteredNodes "dom" "pub") 0.

(** The world after a computation, the world itself when it panics. *)
Definition worldAfter {A} (m : M A) (w : World) : World :=
  match m w with
  | Done _ w' => w'
  | Panic => w
  end.

(** The value of a computation, if any. *)
Definition valueOf {A} (m : M A) (w : World) : option A :=
  match m w with
  | Done a _ => Some a
  | Panic => None
  end.

(** One node, [hw1], created in the empty registry. *)
Definition world1 : World :=
  worldAfter (CreateNode exampleNow "hw1" "sensor") emptyWorld.

(** [hw1] with a configuration [interval] whose default is [10]. *)
Definition world2 : World :=
  worldAfter (CreateNodeConfig exampleNow "hw1" "interval" "int" "Poll interval" "10") world1.

(** [world2] after the value [42] was configured for [interval]. *)
Definition world3 : World :=
  worldAfter (UpdateNodeConfigValues exampleNow "hw1" (Some {["interval" := "42"]})) world2.

(** A signer whose [DecodeMessage] yields the given result for every
    message. *)
Definition decodeAs {T} (d : Decoded T) : string -> Decoded T := fun _ => d.

Definition exampleConfigure : NodeConfigureMessage :=
  mkNodeConfigureMessage "dom/pub/hw1/$configure" (Some {["name" := "Kitchen"]})
                         "dom/app/$identity" "2020-06-01T12:00:00".

(** ** The configuration getters, as the specification words them *)

(** The precedence of the specification: the current attribute value, else
    the configuration default, else the default of the caller; the empty
    string is the absence of a value. *)
Definition precedence (attrValue : option string) (configDefault callerDefault : string)
  : string :=
  match attrValue with
  | Some v =>
      if decide (v ≠ "") then v
      else if decide (configDefault ≠ "") then configDefault else callerDefault
  | None => if decide (configDefault ≠ "") then configDefault else callerDefault
  end.

(** The device [hwID] is registered in [w] with the configuration map
    [config] and the attribute map [attr]. *)
Definition registeredAs (w : World) (hwID : string)
    (config : gmap string ConfigAttr) (attr : gmap string string) : Prop :=
  exists (l : loc) (n : NodeDiscoveryMessage),
    lookupPtr (deviceMap (regNodes w)) hwID = Some l /\
    nodeHeap w !! l = Some n /\
    readCfgMap (Config n) w = Done config w /\
    readStrMap (Attr n) w = Done attr w.

(** What the specification says of the string getter. *)
Definition StringGetterSpec
    (get : string -> string -> string -> M (string * option error)) : Prop :=
  forall (w : World) (hwID attrName dflt : string),
    (lookupPtr (deviceMap (regNodes w)) hwID = None ->
     get hwID attrName dflt w = Done (dflt, Some (ErrDeviceNotFound hwID)) w) /\
    (forall config attr, registeredAs w hwID config attr ->
       get hwID attrName dflt w =
       match config !! attrName with
       | None => Done (dflt, Some (ErrConfigNotExist hwID attrName)) w
       | Some c => Done (precedence (attr !! attrName) (Default c) dflt, None) w
       end) /\
    (forall v e w', get hwID attrName dflt w = Done (v, Some e) w' -> v = dflt).

(** What the specification says of a typed getter with parser [parse]. *)
Definition ParsedGetterSpec {T : Type}
    (get : string -> string -> T -> M (T * option error))
    (parse : string -> option T) (notT : string -> string -> error) : Prop :=
  forall (w : World) (hwID attrName : string) (dflt : T),
    (lookupPtr (deviceMap (regNodes w)) hwID = None ->
     get hwID attrName dflt w = Done (dflt, Some (ErrDeviceNotFound hwID)) w) /\
    (forall config attr, registeredAs w hwID config attr ->
       get hwID attrName dflt w =
       match config !! attrName with
       | None => Done (dflt, Some (ErrConfigNotExist hwID attrName)) w
       | Some c =>
           let valueStr := precedence (attr !! attrName) (Default c) "" in
           if decide (valueStr = "") then Done (dflt, None) w
           else match parse valueStr with
                | Some v => Done (v, None) w
                | None => Done (dflt, Some (notT hwID attrName)) w
                end
       end) /\
    (forall v e w', get hwID attrName dflt w = Done (v, Some e) w' -> v = dflt).

(** ** Observations on the store *)

(** The [Config], [Attr] and [Status] maps a node pointer leads to. *)
Definition configOf (p : ref) : M (gmap string ConfigAttr) :=
  n <- derefNode p ;; readCfgMap (Config n).

Definition attrOf (p : ref) : M (gmap string string) :=
  n <- derefNode p ;; readStrMap (Attr n).

Definition statusOf (p : ref) : M (gmap string string) :=
  n <- derefNode p ;; readStrMap (Status n).

(** The [Config] and [Attr] maps of the device registered as [hwID]. *)
Definition configOfDevice (hwID : string) : M (gmap string ConfigAttr) :=
  node <- GetNodeByHWID hwID ;; configOf node.

Definition attrOfDevice (hwID : string) : M (gmap string string) :=
  node <- GetNodeByHWID hwID ;; attrOf node.

(** The [Status] map of the device registered as [hwID]. *)
Definition statusOfDevice (hwID : string) : M (gmap string string) :=
  node <- GetNodeByHWID hwID ;; statusOf node.

(** The node structs and the string maps of [w] are all present, with the
    same contents, in [w']. *)
Definition storePreserved (w w' : World) : Prop :=
  nodeHeap w ⊆ nodeHeap w' /\ strMapHeap w ⊆ strMapHeap w'.

(** The pointer [l] leads to the struct [n] whose [Attr] and [Status] maps
    hold [attr] and [status]. *)
Definition nodeIs (w : World) (l : loc) (n : NodeDiscoveryMessage)
    (attr status : gmap string string) : Prop :=
  nodeHeap w !! l = Some n /\
  readStrMap (Attr n) w = Done attr w /\
  readStrMap (Status n) w = Done status w.

(** ** Concrete inputs of the set-command examples *)

Definition exampleSetAddress : string := "dom/pub/hw1/switch/0/$set".
Definition exampleInputAddress : string := "dom/pub/hw1/switch/0/$input".
Definition exampleSender : string := "dom/app/$identity".

Definition exampleSet : SetInputMessage :=
  mkSetInputMessage exampleSetAddress exampleSender "2020-06-01T12:00:00" "on".

(** One registered input with callback number 7; the sender has already
    had a command accepted with the timestamp of [exampleSet]. *)
Definition ifsetSeen : InputFromSetCommands :=
  mkInputFromSetCommands {[exampleSender := "2020-06-01T12:00:00"]}
                         {[exampleInputAddress := Some 7]}
                         {[exampleSetAddress := exampleSetAddress]}.

(** The same input, no command accepted so far. *)
Definition ifsetNew : InputFromSetCommands :=
  mkInputFromSetCommands ∅ {[exampleInputAddress := Some 7]}
                         {[exampleSetAddress := exampleSetAddress]}.

(** ** Concrete worlds of the registry examples *)

Definition fooConfig : ConfigAttr := mkConfigAttr "string" "Foo" "bar".

(** [world1] after [hw1] was given the nodeID [alias]. *)
Definition worldRenamed : World :=
  worldAfter (SetNodeID exampleNow (Some 1%positive) "alias") world1.

(** Two devices [a] and [b]; [a] was renamed to [x], after which [b] took
    the nodeID [a]. *)
Definition worldAB : World :=
  worldAfter (CreateNode exampleNow "a" "sensor" ;;;
              CreateNode exampleNow "b" "sensor" ;;;
              nodeA <- GetNodeByHWID "a" ;;
              SetNodeID exampleNow nodeA "x" ;;;
              nodeB <- GetNodeByHWID "b" ;;
              SetNodeID exampleNow nodeB "a") emptyWorld.

(** A configure command for the node published as [alias]. *)
Definition aliasConfigure : NodeConfigureMessage :=
  mkNodeConfigureMessage "dom/pub/alias/$configure" (Some {["name" := "Kitchen"]})
                         "dom/app/$identity" "2020-06-01T12:00:00".

(** ** The trust decision, as the specification words it *)

Section TrustSpec.

Variable signMessages : bool.
Variable ParseSigned : string -> option string.
Variable Unmarshal : string -> option (option PublisherIdentityMessage).
Variable Marshal : option PublisherIdentityMessage -> option string.
Variable URLEncode : string -> string.
Variable VerifyEcdsaSignature : string -> string -> string -> bool.

(** Steps 1 to 3 of the specification on a message: [None] when the
    message fails the signing policy or does not parse; otherwise what the
    payload decodes to, an identity record or, for the JSON value [null],
    no record at all ([Some None]). *)
Definition unmarshalled (message : string) : option (option PublisherIdentityMessage) :=
  match ParseSigned message with
  | Some payload => Unmarshal payload
  | None => if signMessages then None else Unmarshal message
  end.

(** The identity record a message announces, if it announces one. *)
Definition announced (message : string) : option PublisherIdentityMessage :=
  match unmarshalled message with
  | Some (Some pub) => Some pub
  | _ => None
  end.

(** The identity carries a signature over its canonical serialization
    that verifies against the signing key [key]. *)
Definition countersigned (pub : PublisherIdentityMessage) (key : string) : bool :=
  match Marshal (Some pub) with
  | Some identityAsJSON =>
      VerifyEcdsaSignature (URLEncode identityAsJSON) (pi_IdentitySignature pub) key
  | None => false
  end.

End TrustSpec.

(** ** A toy instance of the primitives of the trust chain

    Identity payloads are written [address|key|signature], and [null] is
    the payload without a record; a signature by the key [k] over the
    payload [p] is the string [k:p]; the directory panics when it is
    given a [nil] record. *)

Definition toyUnmarshal (payload : string) : option (option PublisherIdentityMessage) :=
  if decide (payload = "null") then Some None
  else
    match Split payload "|"%char with
    | [a; k; sig] => Some (Some (mkPublisherIdentityMessage a k sig))
    | _ => None
    end.

Definition toyMarshal (pub : option PublisherIdentityMessage) : option string :=
  match pub with
  | Some pub => Some (pi_Address pub +:+ "," +:+ pi_PublicKeySigning pub)
  | None => Some "null"
  end.

Definition toyVerify (payload signature key : string) : bool :=
  bool_decide (signature = key +:+ ":" +:+ payload).

Definition toyParseSigned (message : string) : option string := None.

Definition toyHandlePublisherDiscovery :
    DomainPublishers -> string -> string -> Handled :=
  handlePublisherDiscovery "dom" false toyParseSigned toyUnmarshal toyMarshal
                           (fun s => s) toyVerify (fun _ => None).

Definition dssAddress : string := MakePublisherIdentityAddress "dom" DSSPublisherID.

(** A directory in which the DSS is known, with signing key [dss-key], and
    the publisher [p1] is known, countersigned by the DSS. *)
Definition pubsWithDSS : DomainPublishers :=
  {[ dssAddress := mkPublisherIdentityMessage dssAddress "dss-key" "";
     "dom/p1/$identity" :=
       mkPublisherIdentityMessage "dom/p1/$identity" "p1-key"
                                  "dss-key:dom/p1/$identity,p1-key" ]}.

(** ** Address segments *)

(** The string holds no [/]: it is one segment of an address. *)
Fixpoint noSlash (s : string) : bool :=
  match s with
  | EmptyString => true
  | String c s' => negb (bool_decide (c = slash)) && noSlash s'
  end.

(** ** Well-formed registries *)

(** The three map fields of the struct [n] are maps of the store. *)
Definition mapsAllocated (sh : gmap loc (gmap string string))
    (ch : gmap loc (gmap string ConfigAttr)) (n : NodeDiscoveryMessage) : Prop :=
  is_Some (Attr n ≫= fun a => sh !! a) /\
  is_Some (Status n ≫= fun s => sh !! s) /\
  is_Some (Config n ≫= fun c => ch !! c).

(** An entry [k -> p] of an index of the registry: [p] is [nil], or a node
    of the store whose maps are allocated and whose [field] is the key. *)
Definition entryOK (nh : gmap loc NodeDiscoveryMessage)
    (sh : gmap loc (gmap string string)) (ch : gmap loc (gmap string ConfigAttr))
    (field : NodeDiscoveryMessage -> string) (k : string) (p : ref) : Prop :=
  match p with
  | None => True
  | Some l =>
      match nh !! l with
      | Some n => field n = k /\ mapsAllocated sh ch n
      | None => False
      end
  end.

#[global] Instance entryOK_dec nh sh ch field k p : Decision (entryOK nh sh ch field k p).
Proof.
  unfold entryOK, mapsAllocated. destruct p as [l|]; [| apply _].
  destruct (nh !! l); apply _.
Defined.

(** The indexes [dm] (by hardware id), [nm] (by nodeID) and [um] (pending
    publications, by address) over the store [nh], [sh], [ch]. *)
Definition wfParts (nh : gmap loc NodeDiscoveryMessage)
    (sh : gmap loc (gmap string string)) (ch : gmap loc (gmap string ConfigAttr))
    (dm nm um : gmap string ref) : Prop :=
  map_Forall (entryOK nh sh ch HWID) dm /\
  map_Forall (entryOK nh sh ch NodeID) nm /\
  map_Forall (entryOK nh sh ch Address) um.

(** The registry of [w] is well formed: every pointer it holds leads to a
    node of the store with allocated maps, registered under its own
    hardware id, nodeID and address. *)
Definition regWF (w : World) : Prop :=
  wfParts (nodeHeap w) (strMapHeap w) (cfgMapHeap w)
          (deviceMap (regNodes w)) (nodeMap (regNodes w))
          (default ∅ (updatedNodes (regNodes w))).

#[global] Instance regWF_dec w : Decision (regWF w).
Proof. unfold regWF, wfParts. apply _. Defined.

(** Every location allocated in [m] is allocated in [m']. *)
Definition allocMono {V} (m m' : gmap loc V) : Prop :=
  forall l, is_Some (m !! l) -> is_Some (m' !! l).

(** A pointer a caller may hold: [nil], or a node of the store with
    allocated maps. *)
Definition usable (w : World) (node : ref) : Prop :=
  match node with
  | None => True
  | Some l =>
      match nodeHeap w !! l with
      | Some n => mapsAllocated (strMapHeap w) (cfgMapHeap w) n
      | None => False
      end
  end.

#[global] Instance usable_dec w node : Decision (usable w node).
Proof.
  unfold usable, mapsAllocated. destruct node as [l|]; [| apply _].
  destruct (nodeHeap w !! l); apply _.
Defined.

(** ** Nodes read from storage *)

(** The map field [r] of a struct is [nil] or a map of the store [h]. *)
Definition fieldValid {V} (h : gmap loc V) (r : ref) : Prop :=
  match r with
  | None => True
  | Some a => is_Some (h !! a)
  end.

(** A pointer as [LoadNodes] yields them: [nil], or a node of the store
    each of whose map fields is [nil] or a map of the store. *)
Definition loaded (w : World) (node : ref) : Prop :=
  match node with
  | None => True
  | Some l =>
      match nodeHeap w !! l with
      | Some n =>
          fieldValid (strMapHeap w) (Attr n) /\ fieldValid (strMapHeap w) (Status n) /\
          fieldValid (cfgMapHeap w) (Config n)
      | None => False
      end
  end.

#[global] Instance loaded_dec w node : Decision (loaded w node).
Proof.
  unfold loaded, fieldValid. destruct node as [l|]; [| apply _].
  destruct (nodeHeap w !! l) as [n|]; [| apply _].
  destruct (Attr n), (Status n), (Config n); apply _.
Defined.

(** The map field [r] became [r']: a field that was not [nil] is the
    same; one that was [nil] is [nil] or a map of the store [h']. *)
Definition fieldKept {V} (h' : gmap loc V) (r r' : ref) : Prop :=
  match r with
  | Some _ => r' = r
  | None => fieldValid h' r'
  end.

(** From [w] to [w'] no map of the store was lost, and every node struct
    is still there with its hardware id, nodeID and address, and with the
    map fields it had, [nil] fields possibly filled in. *)
Definition backfilled (w w' : World) : Prop :=
  allocMono (strMapHeap w) (strMapHeap w') /\
  allocMono (cfgMapHeap w) (cfgMapHeap w') /\
  forall l n, nodeHeap w !! l = Some n ->
    exists n', nodeHeap w' !! l = Some n' /\
      HWID n' = HWID n /\ NodeID n' = NodeID n /\ Address n' = Address n /\
      fieldKept (strMapHeap w') (Attr n) (Attr n') /\
      fieldKept (strMapHeap w') (Status n) (Status n') /\
      fieldKept (cfgMapHeap w') (Config n) (Config n').

(** A store holding one node as read from a file in which it had no
    attributes, no configuration and no status; nothing is registered. *)
Definition worldLoaded : World :=
  mkWorld {[1%positive := mkNode "dom/pub/hw7/$node" None None "hw7" "hw7" "pub" None ""]}
          ∅ ∅ (NewRegisteredNodes "dom" "pub") 0.

(** ** Nodes a caller holds *)

(** Whatever pointer a caller holds in [w], the struct it leads to and the
    contents of its three maps read the same in [w']. *)
Definition sameView (w w' : World) : Prop :=
  forall (p : ref) n attr status config,
    derefNode p w = Done n w -> attrOf p w = Done attr w ->
    statusOf p w = Done status w -> configOf p w = Done config w ->
    derefNode p w' = Done n w' /\ attrOf p w' = Done attr w' /\
    statusOf p w' = Done status w' /\ configOf p w' = Done config w'.

(** A signer that decodes the message [late] as a command of
    [exampleSender] stamped a day before [exampleSet], and every other
    message as [exampleSet]. *)
Definition exampleDecodeSet (message : string) : Decoded SetInputMessage :=
  if decide (message = "late")
  then mkDecoded true true None
         (mkSetInputMessage exampleSetAddress exampleSender "2020-05-31T12:00:00" "off")
  else mkDecoded true true None exampleSet.

(** ** Execution lemmas for the monad *)

Lemma bind_Done {A B} (m : M A) (k : A -> M B) w a w' :
  m w = Done a w' -> bind m k w = k a w'.
Proof. intros H. unfold bind. by rewrite H. Qed.

Lemma bind_ret {A B} (a : A) (k : A -> M B) w : bind (ret a) k w = k a w.
Proof. reflexivity. Qed.

Lemma bind_assoc {A B C} (m : M A) (f : A -> M B) (g : B -> M C) w :
  bind (bind m f) g w = bind m (fun x => bind (f x) g) w.
Proof. unfold bind. by destruct (m w). Qed.

Lemma GetNodeByHWID_eq nodeHWID w :
  GetNodeByHWID nodeHWID w = Done (lookupPtr (deviceMap (regNodes w)) nodeHWID) w.
Proof. reflexivity. Qed.

Lemma GetNodeByNodeID_eq nodeID w :
  GetNodeByNodeID nodeID w = Done (lookupPtr (nodeMap (regNodes w)) nodeID) w.
Proof. reflexivity. Qed.

(** Reading the store does not change the world. *)
Lemma derefNode_Done p w n w' :
  derefNode p w = Done n w' ->
  w' = w /\ exists l, p = Some l /\ nodeHeap w !! l = Some n.
Proof.
  unfold derefNode. destruct p as [l|]; [| discriminate].
  destruct (nodeHeap w !! l) eqn:E; [| discriminate].
  intros [= <- <-]. eauto.
Qed.

Lemma readStrMap_Done r w m w' : readStrMap r w = Done m w' -> w' = w.
Proof.
  unfold readStrMap. destruct r as [l|]; [| by intros [= _ <-]].
  destruct (strMapHeap w !! l); [by intros [= _ <-] | discriminate].
Qed.

Lemma readCfgMap_Done r w m w' : readCfgMap r w = Done m w' -> w' = w.
Proof.
  unfold readCfgMap. destruct r as [l|]; [| by intros [= _ <-]].
  destruct (cfgMapHeap w !! l); [by intros [= _ <-] | discriminate].
Qed.

Ltac read_inv :=
  repeat match goal with
         | H : derefNode _ _ = Done _ _ |- _ =>
             apply derefNode_Done in H as [-> (? & ? & ?)]
         | H : readStrMap _ _ = Done _ _ |- _ =>
             let H' := fresh in pose proof (readStrMap_Done _ _ _ _ H) as H';
             subst; clear H
         | H : readCfgMap _ _ = Done _ _ |- _ =>
             let H' := fresh in pose proof (readCfgMap_Done _ _ _ _ H) as H';
             subst; clear H
         end.

(** ** CreateNode *)

(** With the result of the lookup of [hwID] at hand, [CreateNode] is
    decided by it when that result is a node. *)
Lemma CreateNode_existing (Now : nat -> string) (hwID nodeType : string) (w : World) :
  match lookupPtr (deviceMap (regNodes w)) hwID with
  | Some l => CreateNode Now hwID nodeType w = Done (Some l) w
  | None => True
  end.
Proof.
  destruct (lookupPtr (deviceMap (regNodes w)) hwID) as [l|] eqn:Hreg; [| done].
  unfold CreateNode.
  rewrite (bind_Done _ _ _ _ _ (GetNodeByHWID_eq hwID w)).
  by rewrite Hreg.
Qed.

(** C9.  [CreateNode] is idempotent: when [hwID] is already registered a
    call returns the registered node and leaves the whole world as it
    was: no entry is added to [deviceMap] or [nodeMap], the node is not
    stamped again and not marked as updated. *)
Theorem CreateNode_idempotent (Now : nat -> string) (hwID nodeType : string)
    (w : World) (l : loc) :
  lookupPtr (deviceMap (regNodes w)) hwID = Some l ->
  CreateNode Now hwID nodeType w = Done (Some l) w.
Proof.
  intros Hreg. pose proof (CreateNode_existing Now hwID nodeType w) as H.
  rewrite Hreg in H. exact H.
Qed.

Lemma CreateNode_idempotent_witness :
  lookupPtr (deviceMap (regNodes world1)) "hw1" = Some 1%positive /\
  CreateNode exampleNow "hw1" "sensor" world1 = Done (Some 1%positive) world1.
Proof.
  split; [compute_done |].
  apply (CreateNode_idempotent exampleNow "hw1" "sensor" world1 1%positive).
  compute_done.
Defined.

(** C10.  [CreateNode] with an empty [hwID] or an empty [nodeType], for a
    [hwID] that is not registered, returns [nil] and leaves the world as
    it was. *)
Theorem CreateNode_empty_argument (Now : nat -> string) (hwID nodeType : string)
    (w : World) :
  lookupPtr (deviceMap (regNodes w)) hwID = None ->
  hwID = "" \/ nodeType = "" ->
  CreateNode Now hwID nodeType w = Done None w.
Proof.
  intros Hreg Hempty. unfold CreateNode.
  rewrite (bind_Done _ _ _ _ _ (GetNodeByHWID_eq hwID w)).
  rewrite Hreg. unfold bind at 1. simpl.
  unfold NewNode. rewrite decide_True by tauto. reflexivity.
Qed.

Lemma CreateNode_empty_argument_witness :
  CreateNode exampleNow "" "sensor" world1 = Done None world1 /\
  CreateNode exampleNow "hw2" "" world1 = Done None world1.
Proof.
  split.
  - apply (CreateNode_empty_argument exampleNow "" "sensor" world1);
      [compute_done | left; reflexivity].
  - apply (CreateNode_empty_argument exampleNow "hw2" "" world1);
      [compute_done | right; reflexivity].
Defined.

(** ** receiveConfigureCommand: the security gate *)

(** C5.  A configure command that is not encrypted, or not signed, or
    whose decoding fails is rejected, each case with an error of its own,
    and the world (registry and store) is left as it was; a call that
    returns no error or changes the world was given a message that is
    signed and encrypted and decoded without error. *)
Theorem receiveConfigureCommand_gate (Now : nat -> string)
    (DecodeMessage : string -> Decoded NodeConfigureMessage)
    (handler : option NodeConfigureHandler) (address message : string) (w : World) :
  let d := DecodeMessage message in
  let run := receiveConfigureCommand Now DecodeMessage handler address message w in
  (isEncrypted d = false -> run = Done (Some (ErrNotEncrypted address)) w) /\
  (isEncrypted d = true -> isSigned d = false ->
   run = Done (Some (ErrNotSigned address)) w) /\
  (forall cause, isEncrypted d = true -> isSigned d = true ->
   decodeErr d = Some cause -> run = Done (Some (ErrDecode address cause)) w) /\
  (forall cause, ErrNotEncrypted address <> ErrNotSigned address /\
                 ErrNotEncrypted address <> ErrDecode address cause /\
                 ErrNotSigned address <> ErrDecode address cause) /\
  (forall res w', run = Done res w' -> res = None \/ w' <> w ->
   isSigned d = true /\ isEncrypted d = true /\ decodeErr d = None).
Proof.
  intros d run. subst run. unfold receiveConfigureCommand. fold d.
  split; [| split; [| split; [| split]]].
  - intros ->. reflexivity.
  - intros -> ->. reflexivity.
  - intros cause -> -> ->. reflexivity.
  - intros cause. repeat split; discriminate.
  - intros res w' Hrun Hch.
    destruct (isEncrypted d); simpl in Hrun;
      [| inversion Hrun; subst; destruct Hch; done].
    destruct (isSigned d); simpl in Hrun;
      [| inversion Hrun; subst; destruct Hch; done].
    destruct (decodeErr d); simpl in Hrun;
      [inversion Hrun; subst; destruct Hch; done |].
    done.
Qed.

Lemma receiveConfigureCommand_gate_witness :
  let address := "dom/pub/hw1/$configure" in
  let run d := receiveConfigureCommand exampleNow (decodeAs d) None address "msg" world1 in
  run (mkDecoded true false None exampleConfigure)
    = Done (Some (ErrNotEncrypted address)) world1 /\
  run (mkDecoded false true None exampleConfigure)
    = Done (Some (ErrNotSigned address)) world1 /\
  run (mkDecoded true true (Some "unexpected end of JSON input") exampleConfigure)
    = Done (Some (ErrDecode address "unexpected end of JSON input")) world1 /\
  (isSigned (mkDecoded true true None exampleConfigure) = true /\
   isEncrypted (mkDecoded true true None exampleConfigure) = true /\
   decodeErr (mkDecoded true true None exampleConfigure) = None).
Proof.
  intros address run.
  pose (gate d := receiveConfigureCommand_gate exampleNow (decodeAs d) None
                    address "msg" world1).
  split; [| split; [| split]].
  - apply (proj1 (gate (mkDecoded true false None exampleConfigure))). reflexivity.
  - apply (proj1 (proj2 (gate (mkDecoded false true None exampleConfigure))));
      reflexivity.
  - apply (proj1 (proj2 (proj2
      (gate (mkDecoded true true (Some "unexpected end of JSON input")
                       exampleConfigure)))));
      reflexivity.
  - apply (proj2 (proj2 (proj2 (proj2 (gate (mkDecoded true true None exampleConfigure)))))
             None
             (worldAfter (receiveConfigureCommand exampleNow
                            (decodeAs (mkDecoded true true None exampleConfigure))
                            None address "msg") world1)).
    + compute_done.
    + left. reflexivity.
Defined.

(** ** The configuration getters *)

Ltac case_matches H :=
  repeat match type of H with
         | context [match ?x with _ => _ end] =>
             let E := fresh "E" in destruct x eqn:E; simpl in H; try discriminate H
         end.

Lemma GetNodeConfigString_not_found hwID attrName dflt w :
  lookupPtr (deviceMap (regNodes w)) hwID = None ->
  GetNodeConfigString hwID attrName dflt w = Done (dflt, Some (ErrDeviceNotFound hwID)) w.
Proof.
  intros H. unfold GetNodeConfigString, bind, getReg. simpl. by rewrite H.
Qed.

Lemma GetNodeConfigString_registered hwID attrName dflt w config attr :
  registeredAs w hwID config attr ->
  GetNodeConfigString hwID attrName dflt w =
  match config !! attrName with
  | None => Done (dflt, Some (ErrConfigNotExist hwID attrName)) w
  | Some c => Done (precedence (attr !! attrName) (Default c) dflt, None) w
  end.
Proof.
  intros (l & n & Hl & Hn & Hc & Ha).
  unfold GetNodeConfigString, bind, getReg. simpl. rewrite Hl. simpl.
  unfold derefNode at 1. rewrite Hn, Hc. destruct (config !! attrName) as [c|]; [| reflexivity].
  rewrite Ha. unfold precedence, ret.
  destruct (attr !! attrName) as [v|]; repeat case_decide; congruence.
Qed.

Lemma GetNodeConfigString_error hwID attrName dflt w v e w' :
  GetNodeConfigString hwID attrName dflt w = Done (v, Some e) w' -> v = dflt /\ w' = w.
Proof.
  unfold GetNodeConfigString, bind, getReg, ret.
  intros H. simpl in H. case_matches H; inversion H; subst; read_inv; auto.
Qed.

Lemma GetNodeConfigString_StringGetterSpec : StringGetterSpec GetNodeConfigString.
Proof.
  intros w hwID attrName dflt. split; [| split].
  - apply GetNodeConfigString_not_found.
  - intros config attr. apply GetNodeConfigString_registered.
  - intros v e w' H. by apply GetNodeConfigString_error in H as [-> _].
Qed.

Lemma GetNodeConfigParsed_ParsedGetterSpec {T} (parse : string -> option T)
    (notT : string -> string -> error) :
  ParsedGetterSpec (GetNodeConfigParsed parse notT) parse notT.
Proof.
  intros w hwID attrName dflt. split; [| split].
  - intros H. unfold GetNodeConfigParsed, bind.
    by rewrite (GetNodeConfigString_not_found _ _ _ _ H).
  - intros config attr H. unfold GetNodeConfigParsed, bind.
    rewrite (GetNodeConfigString_registered _ _ _ _ _ _ H).
    destruct (config !! attrName) as [c|]; [| reflexivity].
    simpl. case_decide; [reflexivity |]. by destruct (parse _).
  - intros v e w' H. unfold GetNodeConfigParsed, bind in H.
    destruct (GetNodeConfigString hwID attrName "" w) as [[s [e'|]] w1|] eqn:E;
      simpl in H; try discriminate H.
    + by inversion H.
    + case_decide; [discriminate H |].
      destruct (parse s); [discriminate H | by inversion H].
Qed.

(** C8.  The four getters resolve the value with the precedence attribute
    value, configuration default, caller default; they return the caller
    default with a NotFound error for an unknown device or configuration
    key, and the caller default with a parse error for a value that does
    not parse; whenever an error is returned the value is the caller
    default. *)
Theorem GetNodeConfig_precedence :
  StringGetterSpec GetNodeConfigString /\
  ParsedGetterSpec GetNodeConfigBool ParseBool ErrNotBoolean /\
  ParsedGetterSpec GetNodeConfigInt Atoi ErrNotInteger /\
  (forall (float32 : Type) (ParseFloat32 : string -> option float32),
     ParsedGetterSpec (GetNodeConfigFloat float32 ParseFloat32) ParseFloat32 ErrNotFloat).
Proof.
  split; [apply GetNodeConfigString_StringGetterSpec |].
  split; [apply GetNodeConfigParsed_ParsedGetterSpec |].
  split; [apply GetNodeConfigParsed_ParsedGetterSpec |].
  intros float32 ParseFloat32. apply GetNodeConfigParsed_ParsedGetterSpec.
Qed.

Lemma GetNodeConfig_precedence_witness :
  GetNodeConfigInt "hw1" "interval" 99%Z world2 = Done (10%Z, None) world2 /\
  GetNodeConfigInt "hw1" "interval" 99%Z world3 = Done (42%Z, None) world3 /\
  GetNodeConfigInt "hw1" "name" 99%Z world2 = Done (99%Z, None) world2 /\
  GetNodeConfigBool "hw1" "interval" true world3
    = Done (true, Some (ErrNotBoolean "hw1" "interval")) world3 /\
  GetNodeConfigString "hw1" "nokey" "dflt" world2
    = Done ("dflt", Some (ErrConfigNotExist "hw1" "nokey")) world2 /\
  GetNodeConfigString "hw9" "interval" "dflt" world2
    = Done ("dflt", Some (ErrDeviceNotFound "hw9")) world2.
Proof.
  destruct GetNodeConfig_precedence as (HS & HB & HI & _).
  pose (cfg w := default ∅ (valueOf (configOfDevice "hw1") w)).
  pose (att w := default ∅ (valueOf (attrOfDevice "hw1") w)).
  assert (R2 : registeredAs world2 "hw1" (cfg world2) (att world2)).
  { exists 2%positive, (default (mkNode "" None None "" "" "" None "")
                          (valueOf (derefNode (Some 2%positive)) world2)).
    repeat apply conj; compute_done. }
  assert (R3 : registeredAs world3 "hw1" (cfg world3) (att world3)).
  { exists 3%positive, (default (mkNode "" None None "" "" "" None "")
                          (valueOf (derefNode (Some 3%positive)) world3)).
    repeat apply conj; compute_done. }
  split; [| split; [| split; [| split; [| split]]]].
  - destruct (HI world2 "hw1" "interval" 99%Z) as (_ & H & _).
    rewrite (H _ _ R2). compute_done.
  - destruct (HI world3 "hw1" "interval" 99%Z) as (_ & H & _).
    rewrite (H _ _ R3). compute_done.
  - destruct (HI world2 "hw1" "name" 99%Z) as (_ & H & _).
    rewrite (H _ _ R2). compute_done.
  - destruct (HB world3 "hw1" "interval" true) as (_ & H & _).
    rewrite (H _ _ R3). compute_done.
  - destruct (HS world2 "hw1" "nokey" "dflt") as (_ & H & _).
    rewrite (H _ _ R2). compute_done.
  - destruct (HS world2 "hw9" "interval" "dflt") as (H & _ & _).
    apply H. compute_done.
Defined.

(** ** decodeSetCommand: replay protection *)

(** A set command that passed the envelope checks and whose timestamp is
    strictly older than the one recorded for its sender is rejected: the
    state is as before and no callback is invoked. *)
Lemma decodeSetCommand_stale_rejected
    (DecodeMessage : string -> Decoded SetInputMessage)
    (ifset : InputFromSetCommands) (address message : string) :
  let d := DecodeMessage message in
  6 <= length (Split address slash) ->
  isEncrypted d = true -> isSigned d = true -> decodeErr d = None ->
  strGt (lookupStr (senderTimestamp ifset) (sm_Sender (decoded d)))
        (sm_Timestamp (decoded d)) = true ->
  decodeSetCommand DecodeMessage ifset address message =
  (Some (ErrEarlierTimestamp address (sm_Sender (decoded d))), ifset, []).
Proof.
  intros d Hlen He Hs Herr Hgt. unfold decodeSetCommand. fold d.
  rewrite decide_False by lia. rewrite He, Hs, Herr. simpl. by rewrite Hgt.
Qed.

Lemma strGt_irrefl (a : string) : strGt a a = false.
Proof.
  unfold strGt. pose proof (String.compare_antisym a a) as H.
  destruct (String.compare a a); simpl in H; congruence.
Qed.

(** A set command that passed the envelope checks and whose timestamp is
    EQUAL to the one recorded for its sender is not rejected. *)
Lemma decodeSetCommand_equal_timestamp
    (DecodeMessage : string -> Decoded SetInputMessage)
    (ifset : InputFromSetCommands) (address message : string) :
  let d := DecodeMessage message in
  6 <= length (Split address slash) ->
  isEncrypted d = true -> isSigned d = true -> decodeErr d = None ->
  senderTimestamp ifset !! sm_Sender (decoded d) = Some (sm_Timestamp (decoded d)) ->
  decodeSetCommand DecodeMessage ifset address message =
  (None, ifset,
   NotifyInputHandler (registeredInputs ifset)
     (String.concat "/" (<[5 := MessageTypeInputDiscovery]> (Split address slash)))
     (sm_Sender (decoded d)) (sm_Value (decoded d))).
Proof.
  intros d Hlen He Hs Herr Hts. unfold decodeSetCommand. fold d.
  rewrite decide_False by lia. rewrite He, Hs, Herr. simpl.
  unfold lookupStr. rewrite Hts. simpl. rewrite strGt_irrefl.
  rewrite insert_id by done. by destruct ifset.
Qed.

(** C1 (the code differs).  A replayed set command, signed and encrypted,
    whose timestamp equals the timestamp already accepted from the same
    sender: [decodeSetCommand] returns no error and invokes the callback
    of the input. *)
Theorem decodeSetCommand_replay_accepted :
  lookupStr (senderTimestamp ifsetSeen) (sm_Sender exampleSet) = sm_Timestamp exampleSet /\
  decodeSetCommand (decodeAs (mkDecoded true true None exampleSet)) ifsetSeen
                   exampleSetAddress "msg"
  = (None, ifsetSeen, [mkInvocation 7 exampleInputAddress exampleSender "on"]).
Proof. apply conj; compute_done. Qed.

(** C3 (the code differs).  A set command, signed and encrypted, for an
    address whose input is not registered: [decodeSetCommand] returns no
    error and records the timestamp of the sender; only the callback is
    not invoked. *)
Theorem decodeSetCommand_unknown_input_accepted :
  let address := "dom/pub/hw9/switch/0/$set" in
  let run := decodeSetCommand (decodeAs (mkDecoded true true None exampleSet)) ifsetNew
                              address "msg" in
  registeredInputs ifsetNew !! "dom/pub/hw9/switch/0/$input" = None /\
  run.1.1 = None /\
  senderTimestamp ifsetNew !! exampleSender = None /\
  senderTimestamp run.1.2 !! exampleSender = Some "2020-06-01T12:00:00" /\
  run.2 = [].
Proof. intros address run. repeat apply conj; compute_done. Qed.

(** Whatever the registered inputs are, a command that passes the envelope
    and timestamp checks is accepted and its timestamp is recorded: the
    registry of inputs is consulted only by [NotifyInputHandler]. *)
Lemma decodeSetCommand_ignores_registration
    (DecodeMessage : string -> Decoded SetInputMessage)
    (ifset : InputFromSetCommands) (address message : string) :
  let d := DecodeMessage message in
  let run := decodeSetCommand DecodeMessage ifset address message in
  6 <= length (Split address slash) ->
  isEncrypted d = true -> isSigned d = true -> decodeErr d = None ->
  strGt (lookupStr (senderTimestamp ifset) (sm_Sender (decoded d)))
        (sm_Timestamp (decoded d)) = false ->
  run.1.1 = None /\
  senderTimestamp run.1.2 !! sm_Sender (decoded d) = Some (sm_Timestamp (decoded d)).
Proof.
  intros d run Hlen He Hs Herr Hgt. subst run. unfold decodeSetCommand. fold d.
  rewrite decide_False by lia. rewrite He, Hs, Herr. simpl. rewrite Hgt. simpl.
  split; [reflexivity | apply lookup_insert_eq].
Qed.

(** ** The Update operations and the old node *)

(** C4 (the code differs).  [UpdateNodeConfig] and [CreateNodeConfig] write
    the descriptor through the [Config] reference that the clone shares
    with the node it was cloned from: the node referenced before the call
    has the new configuration entry afterwards. *)
Theorem UpdateNodeConfig_changes_old_node :
  let old : ref := Some 1%positive in
  let w1 := worldAfter (UpdateNodeConfig exampleNow "hw1" "foo" (Some fooConfig)) world1 in
  let w2 := worldAfter (CreateNodeConfig exampleNow "hw1" "foo" "string" "Foo" "bar")
                       world1 in
  GetNodeByHWID "hw1" world1 = Done old world1 /\
  (valueOf (configOf old) world1 ≫= (fun config => config !! "foo")) = None /\
  UpdateNodeConfig exampleNow "hw1" "foo" (Some fooConfig) world1 = Done tt w1 /\
  GetNodeByHWID "hw1" w1 = Done (Some 2%positive) w1 /\
  (valueOf (configOf old) w1 ≫= (fun config => config !! "foo")) = Some fooConfig /\
  CreateNodeConfig exampleNow "hw1" "foo" "string" "Foo" "bar" world1
    = Done (Some fooConfig) w2 /\
  (valueOf (configOf old) w2 ≫= (fun config => config !! "foo")) = Some fooConfig.
Proof. intros old w1 w2. repeat apply conj; compute_done. Qed.

(** ** receiveConfigureCommand: applying the configuration *)

(** A configure command that passes the gate and resolves to a node is
    handed to [UpdateNodeConfigValues] under the NODE id of that node. *)
Lemma receiveConfigureCommand_applies (Now : nat -> string)
    (DecodeMessage : string -> Decoded NodeConfigureMessage)
    (handler : option NodeConfigureHandler) (address message : string) (w : World)
    (l : loc) (n : NodeDiscoveryMessage) (params : NodeAttrMap) :
  let d := DecodeMessage message in
  isEncrypted d = true -> isSigned d = true -> decodeErr d = None ->
  GetNodeByAddress address w = Done (Some l) w ->
  nodeHeap w !! l = Some n ->
  message <> "" ->
  match handler with
  | Some h => h address (cm_Attr (decoded d))
  | None => cm_Attr (decoded d)
  end = Some params ->
  receiveConfigureCommand Now DecodeMessage handler address message w =
  (UpdateNodeConfigValues Now (NodeID n) (Some params) ;;; ret None) w.
Proof.
  intros d He Hs Herr Hnode Hn Hmsg Hparams.
  unfold receiveConfigureCommand. fold d. rewrite He, Hs, Herr. simpl.
  rewrite (bind_Done _ _ _ _ _ Hnode).
  rewrite decide_False by (intros [|]; congruence).
  rewrite Hparams. unfold bind at 1. unfold derefNode. by rewrite Hn.
Qed.

(** C6 (the code differs).  The node [hw1] is published as [alias].  A
    signed and encrypted configure command addressed to [alias] resolves
    to that node, whose [name] attribute is configurable; the command
    returns no error, yet the value is not stored: the registry is looked
    up with the nodeID where a hardware id is expected.  The same map
    given to [UpdateNodeConfigValues] under the hardware id is stored. *)
Theorem receiveConfigureCommand_renamed_node_not_configured :
  let address := "dom/pub/alias/$configure" in
  let cmd := receiveConfigureCommand exampleNow
               (decodeAs (mkDecoded true true None aliasConfigure)) None address "msg" in
  let w' := worldAfter cmd worldRenamed in
  valueOf (node <- GetNodeByAddress address ;; n <- derefNode node ;;
           ret (HWID n, NodeID n)) worldRenamed = Some ("hw1", "alias") /\
  (valueOf (configOfDevice "hw1") worldRenamed ≫= (fun config => config !! "name"))
    = Some (mkConfigAttr DataTypeString "Human friendly node name" "") /\
  cmd worldRenamed = Done None w' /\
  valueOf (GetNodeAttr "hw1" "name") w' = Some "" /\
  regNodes w' = regNodes worldRenamed /\
  valueOf (GetNodeAttr "hw1" "name")
          (worldAfter (UpdateNodeConfigValues exampleNow "hw1"
                         (Some {["name" := "Kitchen"]})) worldRenamed)
    = Some "Kitchen".
Proof. intros address cmd w'. repeat apply conj; compute_done. Qed.

(** ** SetNodeID *)

(** C7 (the code differs).  In [worldAB] the nodeID [a] belongs to the
    registered device [b].  [SetNodeID] of the device [a] (published as
    [x]) to the nodeID [a] returns true and rebinds [a] in [nodeMap]: the
    test compares the new id with the hardware id of the node, not the
    owner of the id with the node. *)
Theorem SetNodeID_takes_nodeID_in_use :
  let nodeA : ref := Some 3%positive in
  let w' := worldAfter (SetNodeID exampleNow nodeA "a") worldAB in
  GetNodeByHWID "a" worldAB = Done nodeA worldAB /\
  valueOf (n <- derefNode nodeA ;; ret (HWID n, NodeID n)) worldAB = Some ("a", "x") /\
  valueOf (owner <- GetNodeByNodeID "a" ;; n <- derefNode owner ;;
           ret (owner, HWID n, NodeID n)) worldAB = Some (Some 4%positive, "b", "a") /\
  GetNodeByHWID "b" worldAB = Done (Some 4%positive) worldAB /\
  SetNodeID exampleNow nodeA "a" worldAB = Done true w' /\
  GetNodeByNodeID "a" w' = Done (Some 5%positive) w' /\
  regNodes w' <> regNodes worldAB.
Proof.
  intros nodeA w'. repeat apply conj; compute_done.
Qed.

(** ** handlePublisherDiscovery: the trust decision *)

Section TrustChain.

Variable publisherDomain : string.
Variable signMessages : bool.
Variable ParseSigned : string -> option string.
Variable Unmarshal : string -> option (option PublisherIdentityMessage).
Variable Marshal : option PublisherIdentityMessage -> option string.
Variable URLEncode : string -> string.
Variable VerifyEcdsaSignature : string -> string -> string -> bool.
Variable UpdateNilPublisher : DomainPublishers -> option DomainPublishers.

Local Abbreviation handle :=
  (handlePublisherDiscovery publisherDomain signMessages ParseSigned
     Unmarshal Marshal URLEncode VerifyEcdsaSignature UpdateNilPublisher).
Local Abbreviation theDSS := (MakePublisherIdentityAddress publisherDomain DSSPublisherID).
Local Abbreviation decodes := (unmarshalled signMessages ParseSigned Unmarshal).
Local Abbreviation announces := (announced signMessages ParseSigned Unmarshal).
Local Abbreviation signedBy := (countersigned Marshal URLEncode VerifyEcdsaSignature).

(** The handler in terms of what the message decodes to. *)
Lemma handlePublisherDiscovery_decodes pubs address message :
  handle pubs address message =
  match decodes message with
  | None =>
      Returns (Some (match ParseSigned message with
                     | None => if signMessages then ErrSignedOnly address
                               else ErrParseJSON
                     | Some _ => ErrParseJSON
                     end)) pubs
  | Some pubIdentityMsg =>
      match (if decide (address = theDSS)
             then handleDSSDiscovery UpdateNilPublisher pubs pubIdentityMsg
             else Some pubs) with
      | None => Panics
      | Some pubs =>
          match GetPublisherKey pubs theDSS with
          | None =>
              match callUpdatePublisher UpdateNilPublisher pubs pubIdentityMsg with
              | None => Panics
              | Some pubs => Returns None pubs
              end
          | Some dssSigningKey =>
              match Marshal pubIdentityMsg with
              | None => Returns (Some (ErrMissingIdentity address)) pubs
              | Some identityAsJSON =>
                  match pubIdentityMsg with
                  | None => Panics
                  | Some record =>
                      if negb (VerifyEcdsaSignature (URLEncode identityAsJSON)
                                 (pi_IdentitySignature record) dssSigningKey)
                      then Returns (Some (ErrNoValidDSSSignature address)) pubs
                      else
                        match callUpdatePublisher UpdateNilPublisher pubs
                                pubIdentityMsg with
                        | None => Panics
                        | Some pubs => Returns None pubs
                        end
                  end
              end
          end
      end
  end.
Proof.
  unfold unmarshalled, handlePublisherDiscovery.
  destruct (ParseSigned message) as [payload|].
  - by destruct (Unmarshal payload).
  - destruct signMessages; [done |]. by destruct (Unmarshal message).
Qed.

Lemma announced_decodes message pub :
  announces message = Some pub <-> decodes message = Some (Some pub).
Proof.
  unfold announced. destruct (decodes message) as [[pub'|]|]; split; congruence.
Qed.

(** A message that fails the signing policy or does not parse is rejected
    and stores nothing. *)
Lemma handlePublisherDiscovery_not_decoded pubs address message :
  decodes message = None ->
  exists e, handle pubs address message = Returns (Some e) pubs.
Proof.
  intros Hnone. rewrite handlePublisherDiscovery_decodes, Hnone. eauto.
Qed.

(** On an address other than that of the DSS, with a DSS known: an
    announced record. *)
Lemma handlePublisherDiscovery_with_DSS pubs address message dssKey pub :
  GetPublisherKey pubs theDSS = Some dssKey ->
  address <> theDSS ->
  announces message = Some pub ->
  handle pubs address message =
  if signedBy pub dssKey then Returns None (UpdatePublisher pubs pub)
  else Returns (Some (match Marshal (Some pub) with
                      | Some _ => ErrNoValidDSSSignature address
                      | None => ErrMissingIdentity address
                      end)) pubs.
Proof.
  intros Hkey Hne Hpub. apply announced_decodes in Hpub.
  rewrite handlePublisherDiscovery_decodes, Hpub. unfold countersigned.
  rewrite decide_False by done. rewrite Hkey.
  destruct (Marshal (Some pub)); [| reflexivity].
  by destruct (VerifyEcdsaSignature _ _ _).
Qed.

(** On an address other than that of the DSS, with a DSS known: no
    record.  Nothing is stored: serializing fails, or reading the
    signature of the [nil] record panics. *)
Lemma handlePublisherDiscovery_nil_with_DSS pubs address message dssKey :
  GetPublisherKey pubs theDSS = Some dssKey ->
  address <> theDSS ->
  decodes message = Some None ->
  handle pubs address message =
  match Marshal None with
  | Some _ => Panics
  | None => Returns (Some (ErrMissingIdentity address)) pubs
  end.
Proof.
  intros Hkey Hne Hnil. rewrite handlePublisherDiscovery_decodes, Hnil.
  rewrite decide_False by done. by rewrite Hkey.
Qed.

(** On the address of the DSS an announced record is stored whatever its
    signature is. *)
Lemma handlePublisherDiscovery_on_DSS_address pubs message pub :
  announces message = Some pub ->
  exists e, handle pubs theDSS message = Returns e (UpdatePublisher pubs pub).
Proof.
  intros Hpub. apply announced_decodes in Hpub.
  rewrite handlePublisherDiscovery_decodes, Hpub.
  assert (Hidem : UpdatePublisher (UpdatePublisher pubs pub) pub
                  = UpdatePublisher pubs pub).
  { unfold UpdatePublisher. apply insert_insert_eq. }
  rewrite decide_True by done. unfold handleDSSDiscovery. simpl.
  destruct (GetPublisherKey _ _); [| rewrite Hidem; eauto].
  destruct (Marshal (Some pub)); [| eauto].
  destruct (VerifyEcdsaSignature _ _ _); simpl; [rewrite Hidem |]; eauto.
Qed.

(** On the address of the DSS a payload without a record makes the
    handler panic: [handleDSSDiscovery] reads the address of the [nil]
    record. *)
Lemma handlePublisherDiscovery_nil_on_DSS_address pubs message :
  decodes message = Some None ->
  handle pubs theDSS message = Panics.
Proof.
  intros Hnil. rewrite handlePublisherDiscovery_decodes, Hnil.
  rewrite decide_True by done. unfold handleDSSDiscovery. simpl.
  by destruct (UpdateNilPublisher pubs).
Qed.


End TrustChain.


(** With the DSS known, an announcement of [p1] countersigned by the DSS
    replaces the entry of [p1]. *)
Example countersigned_announcement_accepted :
  toyHandlePublisherDiscovery pubsWithDSS "dom/p1/$identity"
    "dom/p1/$identity|p1-key2|dss-key:dom/p1/$identity,p1-key2"
  = Returns None
      (UpdatePublisher pubsWithDSS
         (mkPublisherIdentityMessage "dom/p1/$identity" "p1-key2"
                                     "dss-key:dom/p1/$identity,p1-key2")).
Proof. compute_done. Qed.


(** ** The store under the Update operations *)

Lemma readStrMap_ext r w m w2 :
  readStrMap r w = Done m w -> strMapHeap w ⊆ strMapHeap w2 ->
  readStrMap r w2 = Done m w2.
Proof.
  unfold readStrMap. destruct r as [l|]; [| by intros [= <-]].
  destruct (strMapHeap w !! l) as [m'|] eqn:E; [| discriminate].
  intros [= <-] Hsub. by rewrite (lookup_weaken _ _ _ _ E Hsub).
Qed.

Lemma readCfgMap_ext r w m w2 :
  readCfgMap r w = Done m w -> cfgMapHeap w ⊆ cfgMapHeap w2 ->
  readCfgMap r w2 = Done m w2.
Proof.
  unfold readCfgMap. destruct r as [l|]; [| by intros [= <-]].
  destruct (cfgMapHeap w !! l) as [m'|] eqn:E; [| discriminate].
  intros [= <-] Hsub. by rewrite (lookup_weaken _ _ _ _ E Hsub).
Qed.

Lemma fresh_insert_subseteq {V} (m : gmap loc V) (x : V) :
  m ⊆ <[fresh (dom m) := x]> m.
Proof. apply insert_subseteq, not_elem_of_dom, is_fresh. Qed.

Lemma fresh_lookup {V} (m : gmap loc V) : m !! fresh (dom m) = None.
Proof. apply not_elem_of_dom, is_fresh. Qed.

(** [Clone] of a node whose maps can be read: the clone is a new struct
    with a new [Attr] map and a new [Status] map of the same contents, and
    the same [Config] reference; nothing else changes. *)
Lemma Clone_Done l w n attr status :
  nodeHeap w !! l = Some n ->
  readStrMap (Attr n) w = Done attr w ->
  readStrMap (Status n) w = Done status w ->
  let a := fresh (dom (strMapHeap w)) in
  let s := fresh (dom (<[a := attr]> (strMapHeap w))) in
  let l' := fresh (dom (nodeHeap w)) in
  Clone (Some l) w =
  Done (Some l')
       (mkWorld (<[l' := mkNode (Address n) (Some a) (Config n) (HWID n) (NodeID n)
                                (PublisherID n) (Some s) (Timestamp n)]> (nodeHeap w))
                (<[s := status]> (<[a := attr]> (strMapHeap w)))
                (cfgMapHeap w) (regNodes w) (ticks w)).
Proof.
  intros Hn Hattr Hstatus a s l'. unfold Clone.
  unfold bind at 1. unfold derefNode. rewrite Hn.
  rewrite (bind_Done _ _ _ _ _ Hattr).
  unfold bind at 1. unfold allocStrMap at 1. fold a.
  erewrite bind_Done; last first.
  { eapply readStrMap_ext; [exact Hstatus |]. simpl. apply fresh_insert_subseteq. }
  reflexivity.
Qed.

(** [updateNode] of an allocated node. *)
Lemma updateNode_Done Now l w n :
  nodeHeap w !! l = Some n ->
  updateNode Now (Some l) w =
  Done tt
    (mkWorld
       (<[l := mkNode (Address n) (Attr n) (Config n) (HWID n) (NodeID n)
                      (PublisherID n) (Status n) (Now (ticks w))]> (nodeHeap w))
       (strMapHeap w) (cfgMapHeap w)
       (mkRegisteredNodes (domain (regNodes w)) (publisherID (regNodes w))
          (<[HWID n := Some l]> (deviceMap (regNodes w)))
          (<[NodeID n := Some l]> (nodeMap (regNodes w)))
          (Some (<[Address n := Some l]> (default ∅ (updatedNodes (regNodes w))))))
       (S (ticks w))).
Proof.
  intros Hn. unfold updateNode, bind, derefNode, getReg, timeNow, storeNode, putReg.
  rewrite Hn. simpl. rewrite Hn. reflexivity.
Qed.

Lemma nodeIs_preserved w w' l n attr status :
  storePreserved w w' -> nodeIs w l n attr status -> nodeIs w' l n attr status.
Proof.
  intros [Hn Hs] (H1 & H2 & H3). repeat apply conj.
  - by eapply lookup_weaken.
  - by eapply readStrMap_ext.
  - by eapply readStrMap_ext.
Qed.

Lemma fresh_insert_lookup {V} (m : gmap loc V) (a : loc) (x : V) :
  m !! fresh (dom (<[a := x]> m)) = None /\ fresh (dom (<[a := x]> m)) <> a.
Proof.
  pose proof (fresh_lookup (<[a := x]> m)) as H.
  apply lookup_insert_None in H as [H1 H2]. auto.
Qed.

Lemma derefNode_Some l w n :
  nodeHeap w !! l = Some n -> derefNode (Some l) w = Done n w.
Proof. intros H. unfold derefNode. by rewrite H. Qed.

Lemma readStrMap_Some a w m :
  strMapHeap w !! a = Some m -> readStrMap (Some a) w = Done m w.
Proof. intros H. unfold readStrMap. by rewrite H. Qed.

Lemma writeStrMap_Some a w m0 m :
  strMapHeap w !! a = Some m0 ->
  writeStrMap (Some a) m w =
  Done tt (mkWorld (nodeHeap w) (<[a := m]> (strMapHeap w)) (cfgMapHeap w)
                   (regNodes w) (ticks w)).
Proof. intros H. unfold writeStrMap. by rewrite H. Qed.

Lemma writeCfgMap_Some c w m0 m :
  cfgMapHeap w !! c = Some m0 ->
  writeCfgMap (Some c) m w =
  Done tt (mkWorld (nodeHeap w) (strMapHeap w) (<[c := m]> (cfgMapHeap w))
                   (regNodes w) (ticks w)).
Proof. intros H. unfold writeCfgMap. by rewrite H. Qed.

Ltac heap_lookup :=
  simpl;
  repeat first [rewrite lookup_insert_ne by done | rewrite lookup_insert_eq];
  first [reflexivity | eassumption].

(** One step of a computation: [run lemma] rewrites the first action with
    the execution lemma [lemma], whose side condition is a lookup. *)
Ltac run lemma :=
  rewrite ?bind_assoc; erewrite bind_Done; [| eapply lemma; heap_lookup];
  cbv beta.

(** The world after the clone of [l] was taken: names for the fresh
    locations and the facts about them. *)
Ltac run_Clone Hn Ha Hs a s l' :=
  rewrite (bind_Done _ _ _ _ _ (Clone_Done _ _ _ _ _ Hn Ha Hs));
  match goal with
  | |- context [<[?x := _]> (<[fresh (dom ?sh) := ?attr]> ?sh)] =>
      let Hs1 := fresh "Hfresh" in
      let Hs2 := fresh "Hne" in
      let Ha1 := fresh "Hfresh" in
      destruct (fresh_insert_lookup sh (fresh (dom sh)) attr) as [Hs1 Hs2];
      pose proof (fresh_lookup sh) as Ha1;
      set (a := fresh (dom sh)) in *;
      set (s := fresh (dom (<[a := attr]> sh))) in *
  end;
  match goal with
  | |- context [<[fresh (dom ?nh) := _]> ?nh] =>
      let Hl1 := fresh "Hfresh" in
      pose proof (fresh_lookup nh) as Hl1;
      set (l' := fresh (dom nh)) in *
  end.

(** Inserting at locations that are not allocated in [m] keeps [m]. *)
Ltac solve_preserved :=
  apply map_subseteq_spec; intros ? ? ?;
  repeat (rewrite lookup_insert_ne by (intros <-; congruence));
  assumption.

Ltac finish_preserved :=
  eexists _, _; split; [reflexivity |]; unfold storePreserved; simpl;
  repeat apply conj; [solve_preserved | solve_preserved | reflexivity].

(** [UpdateNodeAttr] on a registered device returns, and every node struct
    and every [Attr] and [Status] map that existed before the call is
    unchanged; no [Config] map is written. *)
Lemma UpdateNodeAttr_preserves Now hwID attrParams w l n attr status :
  lookupPtr (deviceMap (regNodes w)) hwID = Some l ->
  nodeIs w l n attr status ->
  exists changed w',
    UpdateNodeAttr Now hwID attrParams w = Done changed w' /\
    storePreserved w w' /\ cfgMapHeap w' = cfgMapHeap w.
Proof.
  intros Hl (Hn & Ha & Hs). unfold UpdateNodeAttr.
  rewrite (bind_Done _ _ _ _ _ (GetNodeByHWID_eq hwID w)). rewrite Hl.
  run_Clone Hn Ha Hs a s l'.
  run derefNode_Some. run readStrMap_Some. run writeStrMap_Some.
  destruct (foldl mergeStep (attr, false) (map_to_list attrParams)).2.
  - run updateNode_Done. finish_preserved.
  - finish_preserved.
Qed.

Lemma UpdateNodeStatus_preserves Now hwID statusAttr w l n attr status :
  lookupPtr (deviceMap (regNodes w)) hwID = Some l ->
  nodeIs w l n attr status ->
  exists changed w',
    UpdateNodeStatus Now hwID statusAttr w = Done changed w' /\
    storePreserved w w' /\ cfgMapHeap w' = cfgMapHeap w.
Proof.
  intros Hl (Hn & Ha & Hs). unfold UpdateNodeStatus.
  rewrite (bind_Done _ _ _ _ _ (GetNodeByHWID_eq hwID w)). rewrite Hl.
  run_Clone Hn Ha Hs a s l'.
  run derefNode_Some. run readStrMap_Some. run writeStrMap_Some.
  destruct (foldl mergeStep (status, false) (map_to_list statusAttr)).2.
  - run updateNode_Done. finish_preserved.
  - finish_preserved.
Qed.

Lemma UpdateErrorStatus_preserves Now hwID runState errorMsg w l n attr status :
  lookupPtr (deviceMap (regNodes w)) hwID = Some l ->
  nodeIs w l n attr status ->
  exists changed w',
    UpdateErrorStatus Now hwID runState errorMsg w = Done changed w' /\
    storePreserved w w' /\ cfgMapHeap w' = cfgMapHeap w.
Proof.
  intros Hl (Hn & Ha & Hs). unfold UpdateErrorStatus.
  rewrite (bind_Done _ _ _ _ _ (GetNodeByHWID_eq hwID w)). rewrite Hl.
  assert (Hst : forall w2, strMapHeap w ⊆ strMapHeap w2 ->
                           readStrMap (Status n) w2 = Done status w2).
  { intros w2 Hsub. by eapply readStrMap_ext. }
  run_Clone Hn Ha Hs a s l'.
  erewrite bind_Done; [| eapply derefNode_Some; simpl; by eapply lookup_weaken;
                         [exact Hn | solve_preserved]].
  run derefNode_Some.
  erewrite bind_Done; [| apply Hst; simpl; solve_preserved].
  destruct (decide (lookupStr status NodeStatusLastError ≠ errorMsg)).
  - rewrite !bind_assoc. run readStrMap_Some. run writeStrMap_Some. rewrite bind_ret.
    erewrite bind_Done; [| apply Hst; simpl; solve_preserved].
    destruct (decide (lookupStr status NodeStatusRunState ≠ runState)).
    + rewrite !bind_assoc. run readStrMap_Some. run writeStrMap_Some. rewrite bind_ret.
      run updateNode_Done. finish_preserved.
    + rewrite bind_ret. run updateNode_Done. finish_preserved.
  - rewrite bind_ret. erewrite bind_Done; [| apply Hst; simpl; solve_preserved].
    destruct (decide (lookupStr status NodeStatusRunState ≠ runState)).
    + rewrite !bind_assoc. run readStrMap_Some. run writeStrMap_Some. rewrite bind_ret.
      run updateNode_Done. finish_preserved.
    + rewrite bind_ret. rewrite bind_ret. finish_preserved.
Qed.

Lemma readCfgMap_Some c w m :
  cfgMapHeap w !! c = Some m -> readCfgMap (Some c) w = Done m w.
Proof. intros H. unfold readCfgMap. by rewrite H. Qed.

(** [UpdateNodeConfigValues] on a registered device: the call returns;
    the old store is kept and no [Config] map is written; when nothing
    changed the registry is as before, otherwise the device is registered
    as a new node whose attributes are those computed by the loop. *)
Lemma UpdateNodeConfigValues_Done Now hwID params w l n attr status config :
  lookupPtr (deviceMap (regNodes w)) hwID = Some l ->
  nodeIs w l n attr status ->
  readCfgMap (Config n) w = Done config w ->
  let res := foldl (configStep config attr) (attr, false) (map_to_list params) in
  exists w',
    UpdateNodeConfigValues Now hwID (Some params) w = Done res.2 w' /\
    storePreserved w w' /\ cfgMapHeap w' = cfgMapHeap w /\
    (res.2 = false -> regNodes w' = regNodes w) /\
    (res.2 = true ->
     exists l' n',
       lookupPtr (deviceMap (regNodes w')) (HWID n) = Some l' /\
       nodeIs w' l' n' res.1 status /\
       Config n' = Config n /\ HWID n' = HWID n /\ NodeID n' = NodeID n).
Proof.
  intros Hl (Hn & Ha & Hs) Hc res. unfold UpdateNodeConfigValues.
  rewrite (bind_Done _ _ _ _ _ (GetNodeByHWID_eq hwID w)). rewrite Hl.
  run_Clone Hn Ha Hs a s l'.
  erewrite bind_Done; [| eapply derefNode_Some; simpl; by eapply lookup_weaken;
                         [exact Hn | solve_preserved]].
  run derefNode_Some.
  erewrite bind_Done; [| eapply readCfgMap_ext; [exact Hc | reflexivity]].
  erewrite bind_Done; [| eapply readStrMap_ext; [exact Ha | simpl; solve_preserved]].
  run readStrMap_Some. fold res. run writeStrMap_Some.
  destruct res.2 eqn:Hres.
  - run updateNode_Done. eexists. split; [reflexivity |].
    unfold storePreserved. simpl.
    repeat apply conj; [solve_preserved | solve_preserved | reflexivity | done |].
    intros _. exists l'. eexists.
    split; [unfold lookupPtr; simpl; by rewrite lookup_insert_eq |].
    split; [split; [simpl; rewrite lookup_insert_eq; reflexivity |];
            split; apply readStrMap_Some; heap_lookup
           | done].
  - eexists. split; [reflexivity |]. unfold storePreserved. simpl.
    repeat apply conj; [solve_preserved | solve_preserved | reflexivity | done | done].
Qed.

(** The loop of [UpdateNodeConfigValues], key by key. *)
Lemma configStep_foldl config attr (l : list (string * string)) :
  NoDup l.*1 ->
  forall acc : gmap string string * bool,
    (forall k, k ∈ l.*1 -> acc.1 !! k = attr !! k) ->
    let res := foldl (configStep config attr) acc l in
    (forall k v, (k, v) ∈ l -> is_Some (config !! k) -> res.1 !! k = Some v) /\
    (forall k, k ∉ l.*1 -> res.1 !! k = acc.1 !! k) /\
    (forall k, config !! k = None -> res.1 !! k = acc.1 !! k) /\
    (res.2 = false -> res.1 = acc.1).
Proof.
  induction l as [| [k0 v0] l IH]; intros Hnd acc Hagree.
  - simpl. repeat apply conj; try done. intros k v Hin. by apply elem_of_nil in Hin.
  - simpl in Hnd. apply NoDup_cons in Hnd as [Hk0 Hnd]. simpl.
    set (acc' := configStep config attr acc (k0, v0)).
    assert (Hother : forall k, k <> k0 -> acc'.1 !! k = acc.1 !! k).
    { intros k Hk. subst acc'. unfold configStep. simpl.
      destruct (config !! k0); [| done].
      destruct (attr !! k0); [case_decide |]; simpl;
        by rewrite ?lookup_insert_ne. }
    assert (Hhead : is_Some (config !! k0) -> acc'.1 !! k0 = Some v0).
    { intros [c Hc]. subst acc'. unfold configStep. simpl. rewrite Hc.
      pose proof (Hagree k0 ltac:(simpl; left)) as Hk.
      destruct (attr !! k0) as [old|] eqn:E; [case_decide |]; simpl;
        rewrite ?lookup_insert_eq; try done.
      rewrite Hk. f_equal. by destruct (decide (old = v0)). }
    assert (Hskip : config !! k0 = None -> acc' = acc).
    { intros Hc. subst acc'. unfold configStep. simpl. by rewrite Hc. }
    assert (Hflag : acc'.2 = false -> acc'.1 = acc.1).
    { subst acc'. unfold configStep. simpl.
      destruct (config !! k0); [| done].
      destruct (attr !! k0); [case_decide |]; simpl; done. }
    destruct (IH Hnd acc') as (IH1 & IH2 & IH3 & IH4).
    { intros k Hk. rewrite Hother; [apply Hagree; simpl; by right |].
      intros ->. done. }
    repeat apply conj.
    + intros k v Hin Hcfg. apply elem_of_cons in Hin as [[= -> ->] | Hin].
      * rewrite IH2 by done. by apply Hhead.
      * by apply IH1.
    + intros k Hk. apply not_elem_of_cons in Hk as [Hk1 Hk2].
      rewrite IH2 by done. by apply Hother.
    + intros k Hk. rewrite IH3 by done.
      destruct (decide (k = k0)) as [-> |]; [by rewrite Hskip | by apply Hother].
    + intros Hres. rewrite (IH4 Hres).
      apply Hflag. 
      destruct (acc'.2) eqn:E; [| done].
      exfalso. clear -Hres E.
      assert (Hmono : forall (l : list (string * string)) (b : gmap string string * bool),
                 b.2 = true -> (foldl (configStep config attr) b l).2 = true).
      { clear. induction l as [| kv l IHl]; intros b Hb; [done |].
        simpl. apply IHl. unfold configStep.
        destruct (config !! kv.1); [| done].
        destruct (attr !! kv.1); [case_decide |]; simpl; done. }
      rewrite (Hmono l acc' E) in Hres. discriminate.
Qed.

Lemma elem_of_map_to_list_fst (m : gmap string string) (k : string) :
  k ∈ (map_to_list m).*1 <-> is_Some (m !! k).
Proof.
  rewrite list_elem_of_fmap. split.
  - intros ([k' v] & -> & Hin). apply elem_of_map_to_list in Hin. by exists v.
  - intros [v Hv]. exists (k, v). split; [done |]. by apply elem_of_map_to_list.
Qed.

(** [UpdateNodeConfigValues] under the hardware id of a registered device:
    afterwards the device has, for every requested name that has a
    [Config] entry, the requested value as its attribute; the other
    attributes are as before. *)
Lemma UpdateNodeConfigValues_stores Now hwID params w l n attr status config :
  lookupPtr (deviceMap (regNodes w)) hwID = Some l ->
  nodeIs w l n attr status ->
  readCfgMap (Config n) w = Done config w ->
  HWID n = hwID ->
  exists changed w' attr',
    UpdateNodeConfigValues Now hwID (Some params) w = Done changed w' /\
    registeredAs w' hwID config attr' /\
    (forall k v, params !! k = Some v -> is_Some (config !! k) -> attr' !! k = Some v) /\
    (forall k, params !! k = None \/ config !! k = None -> attr' !! k = attr !! k).
Proof.
  intros Hl Hnode Hc Hhw.
  destruct (UpdateNodeConfigValues_Done Now hwID params w l n attr status config
              Hl Hnode Hc) as (w' & Hrun & Hpres & Hcfg & Hsame & Hnew).
  destruct (configStep_foldl config attr (map_to_list params)
              (NoDup_fst_map_to_list params) (attr, false) ltac:(done))
    as (F1 & F2 & F3 & F4).
  set (res := foldl (configStep config attr) (attr, false) (map_to_list params)) in *.
  assert (Hcfg' : forall r, readCfgMap r w = Done config w ->
                            readCfgMap r w' = Done config w').
  { intros r Hr. eapply readCfgMap_ext; [exact Hr |]. by rewrite Hcfg. }
  exists res.2, w', res.1. split; [exact Hrun |]. split; [| split].
  - destruct res.2 eqn:Hres.
    + destruct (Hnew eq_refl) as (l' & n' & Hl' & (Hn' & Ha' & _) & HC & _ & _).
      exists l', n'. rewrite <- Hhw. repeat apply conj; try done.
      rewrite HC. by apply Hcfg'.
    + rewrite (F4 eq_refl). simpl.
      destruct (nodeIs_preserved _ _ _ _ _ _ Hpres Hnode) as (Hn' & Ha' & _).
      exists l, n. rewrite (Hsame eq_refl). repeat apply conj; try done.
      by apply Hcfg'.
  - intros k v Hk Hck. apply F1; [by apply elem_of_map_to_list | done].
  - intros k [Hk | Hk].
    + apply (F2 k). rewrite elem_of_map_to_list_fst, Hk. by intros [? ?].
    + by apply (F3 k).
Qed.

(** For a node whose nodeID is its hardware id, a configure command that
    passes the gate stores the requested values of the configurable
    attributes. *)
Lemma receiveConfigureCommand_configures (Now : nat -> string)
    (DecodeMessage : string -> Decoded NodeConfigureMessage)
    (handler : option NodeConfigureHandler) (address message : string) (w : World)
    (l : loc) (n : NodeDiscoveryMessage) (attr status : gmap string string)
    (config : gmap string ConfigAttr) (params : NodeAttrMap) :
  let d := DecodeMessage message in
  isEncrypted d = true -> isSigned d = true -> decodeErr d = None ->
  GetNodeByAddress address w = Done (Some l) w ->
  message <> "" ->
  match handler with
  | Some h => h address (cm_Attr (decoded d))
  | None => cm_Attr (decoded d)
  end = Some params ->
  nodeIs w l n attr status ->
  readCfgMap (Config n) w = Done config w ->
  NodeID n = HWID n ->
  lookupPtr (deviceMap (regNodes w)) (HWID n) = Some l ->
  exists w' attr',
    receiveConfigureCommand Now DecodeMessage handler address message w = Done None w' /\
    registeredAs w' (HWID n) config attr' /\
    (forall k v, params !! k = Some v -> is_Some (config !! k) -> attr' !! k = Some v).
Proof.
  intros d He Hs Herr Haddr Hmsg Hparams Hnode Hc Hid Hl.
  destruct (UpdateNodeConfigValues_stores Now (HWID n) params w l n attr status config
              Hl Hnode Hc eq_refl) as (changed & w' & attr' & Hrun & Hreg & Hset & _).
  exists w', attr'. split; [| by split].
  rewrite (receiveConfigureCommand_applies Now DecodeMessage handler address message
             w l n params He Hs Herr Haddr (proj1 Hnode) Hmsg Hparams).
  rewrite Hid. by rewrite (bind_Done _ _ _ _ _ Hrun).
Qed.

(** [UpdateNodeConfig] on a registered device, in general: the old node
    struct and its [Attr] and [Status] maps are kept, but the descriptor
    is written into the [Config] map the old node refers to. *)
Lemma UpdateNodeConfig_writes_shared_Config Now hwID attrName configAttr w l n attr
    status c config :
  lookupPtr (deviceMap (regNodes w)) hwID = Some l ->
  nodeIs w l n attr status ->
  Config n = Some c ->
  cfgMapHeap w !! c = Some config ->
  attrName <> "" ->
  exists w',
    UpdateNodeConfig Now hwID attrName (Some configAttr) w = Done tt w' /\
    storePreserved w w' /\
    cfgMapHeap w' = <[c := <[attrName := configAttr]> config]> (cfgMapHeap w).
Proof.
  intros Hl (Hn & Ha & Hs) HC Hc Hname. unfold UpdateNodeConfig.
  rewrite (bind_Done _ _ _ _ _ (GetNodeByHWID_eq hwID w)). rewrite Hl.
  rewrite decide_False by done.
  run_Clone Hn Ha Hs a s l'.
  run derefNode_Some. simpl. rewrite HC.
  run readCfgMap_Some. run writeCfgMap_Some. 
  erewrite updateNode_Done; [| heap_lookup].
  eexists. split; [reflexivity |]. unfold storePreserved. simpl.
  repeat apply conj; [solve_preserved | solve_preserved | reflexivity].
Qed.

Lemma CreateNodeConfig_writes_shared_Config Now hwID attrName dataType description
    defaultValue w l n attr status c config :
  lookupPtr (deviceMap (regNodes w)) hwID = Some l ->
  nodeIs w l n attr status ->
  Config n = Some c ->
  cfgMapHeap w !! c = Some config ->
  exists w',
    CreateNodeConfig Now hwID attrName dataType description defaultValue w
      = Done (Some (mkConfigAttr dataType description defaultValue)) w' /\
    storePreserved w w' /\
    cfgMapHeap w' =
      <[c := <[attrName := mkConfigAttr dataType description defaultValue]> config]>
        (cfgMapHeap w).
Proof.
  intros Hl (Hn & Ha & Hs) HC Hc. unfold CreateNodeConfig.
  rewrite (bind_Done _ _ _ _ _ (GetNodeByHWID_eq hwID w)). rewrite Hl.
  run derefNode_Some. rewrite HC. run readCfgMap_Some.
  replace (match config !! attrName with
           | Some config0 => _
           | None => mkConfigAttr dataType description defaultValue
           end) with (mkConfigAttr dataType description defaultValue)
    by (by destruct (config !! attrName)).
  run_Clone Hn Ha Hs a s l'.
  run derefNode_Some. simpl. rewrite HC.
  run readCfgMap_Some. run writeCfgMap_Some. run updateNode_Done.
  eexists. split; [reflexivity |]. unfold storePreserved. simpl.
  repeat apply conj; [solve_preserved | solve_preserved | reflexivity].
Qed.

(** A new nodeID that is bound in [nodeMap] and differs from the hardware
    id of the node is refused and the registry is as before. *)
Lemma SetNodeID_in_use_rejected Now newNodeID w l n attr status :
  nodeIs w l n attr status ->
  newNodeID <> "" ->
  lookupPtr (nodeMap (regNodes w)) newNodeID <> None ->
  newNodeID <> HWID n ->
  exists w',
    SetNodeID Now (Some l) newNodeID w = Done false w' /\
    regNodes w' = regNodes w /\
    storePreserved w w' /\ cfgMapHeap w' = cfgMapHeap w.
Proof.
  intros (Hn & Ha & Hs) Hne Huse Hhw. unfold SetNodeID.
  run_Clone Hn Ha Hs a s l'.
  erewrite bind_Done; [| eapply derefNode_Some; simpl; by eapply lookup_weaken;
                         [exact Hn | solve_preserved]].
  rewrite decide_False by done.
  erewrite bind_Done; [| apply GetNodeByNodeID_eq]. simpl.
  rewrite decide_True by done.
  eexists. split; [reflexivity |]. unfold storePreserved. simpl.
  repeat apply conj; [reflexivity | solve_preserved | solve_preserved | reflexivity].
Qed.

(** [CreateNode] of an unregistered device with non-empty arguments
    returns a new node, registered under [hwID]; a second call returns
    that node and changes nothing. *)
Lemma CreateNode_twice Now hwID nodeType w :
  lookupPtr (deviceMap (regNodes w)) hwID = None ->
  domain (regNodes w) <> "" -> publisherID (regNodes w) <> "" ->
  hwID <> "" -> nodeType <> "" ->
  exists l w',
    CreateNode Now hwID nodeType w = Done (Some l) w' /\
    lookupPtr (deviceMap (regNodes w')) hwID = Some l /\
    lookupPtr (nodeMap (regNodes w')) hwID = Some l /\
    storePreserved w w' /\
    CreateNode Now hwID nodeType w' = Done (Some l) w'.
Proof.
  intros Hreg Hd Hp Hh Ht. unfold CreateNode at 1.
  rewrite (bind_Done _ _ _ _ _ (GetNodeByHWID_eq hwID w)). rewrite Hreg.
  unfold bind at 1. unfold getReg. unfold NewNode.
  rewrite decide_False by tauto.
  destruct (fresh_insert_lookup (strMapHeap w) (fresh (dom (strMapHeap w))) ∅)
    as [Hs1 Hs2].
  pose proof (fresh_lookup (strMapHeap w)) as Ha1.
  pose proof (fresh_lookup (cfgMapHeap w)) as Hc1.
  pose proof (fresh_lookup (nodeHeap w)) as Hl1.
  rewrite ?bind_assoc. erewrite bind_Done; [| reflexivity]. simpl.
  rewrite ?bind_assoc. erewrite bind_Done; [| reflexivity]. simpl.
  rewrite ?bind_assoc. erewrite bind_Done; [| reflexivity]. simpl.
  rewrite ?bind_assoc. erewrite bind_Done; [| reflexivity]. simpl.
  rewrite ?bind_assoc. erewrite bind_Done; [| reflexivity]. simpl.
  set (a := fresh (dom (strMapHeap w))) in *.
  set (s := fresh (dom (<[a := ∅]> (strMapHeap w)))) in *.
  set (c := fresh (dom (cfgMapHeap w))) in *.
  set (l := fresh (dom (nodeHeap w))) in *.
  run writeStrMap_Some. run writeCfgMap_Some.
  erewrite bind_Done; [| reflexivity].
  run updateNode_Done. unfold ret. simpl.
  eexists l, _. split; [reflexivity |].
  assert (Hdev : lookupPtr (<[hwID := Some l]> (deviceMap (regNodes w))) hwID = Some l).
  { unfold lookupPtr. by rewrite lookup_insert_eq. }
  unfold storePreserved. simpl. repeat apply conj.
  - exact Hdev.
  - unfold lookupPtr. simpl. by rewrite lookup_insert_eq.
  - solve_preserved.
  - solve_preserved.
  - match goal with
    | |- CreateNode _ _ _ ?w' = _ =>
        pose proof (CreateNode_existing Now hwID nodeType w') as H
    end.
    simpl in H. rewrite Hdev in H. exact H.
Qed.

(** The node referenced before [UpdateNodeConfig] sees the new descriptor:
    in general, not only in the example. *)
Lemma UpdateNodeConfig_old_node_sees_descriptor Now hwID attrName configAttr w l n attr
    status c config :
  lookupPtr (deviceMap (regNodes w)) hwID = Some l ->
  nodeIs w l n attr status ->
  Config n = Some c ->
  cfgMapHeap w !! c = Some config ->
  attrName <> "" ->
  exists w',
    UpdateNodeConfig Now hwID attrName (Some configAttr) w = Done tt w' /\
    configOf (Some l) w = Done config w /\
    configOf (Some l) w' = Done (<[attrName := configAttr]> config) w' /\
    attrOf (Some l) w' = Done attr w' /\
    statusOf (Some l) w' = Done status w'.
Proof.
  intros Hl Hnode HC Hc Hname.
  destruct (UpdateNodeConfig_writes_shared_Config Now hwID attrName configAttr w l n
              attr status c config Hl Hnode HC Hc Hname) as (w' & Hrun & Hpres & Hcfg).
  destruct (nodeIs_preserved _ _ _ _ _ _ Hpres Hnode) as (Hn' & Ha' & Hs').
  destruct Hnode as (Hn & Ha & Hs).
  exists w'. split; [exact Hrun |]. unfold configOf, attrOf, statusOf.
  rewrite (bind_Done _ _ _ _ _ (derefNode_Some _ _ _ Hn)).
  rewrite !(bind_Done _ _ _ _ _ (derefNode_Some _ _ _ Hn')).
  rewrite HC. repeat apply conj; try done.
  - by apply readCfgMap_Some.
  - apply readCfgMap_Some. rewrite Hcfg. apply lookup_insert_eq.
Qed.

(** A configure command for a node whose nodeID is not a registered
    hardware id is accepted and changes nothing. *)
Lemma receiveConfigureCommand_renamed_dropped (Now : nat -> string)
    (DecodeMessage : string -> Decoded NodeConfigureMessage)
    (handler : option NodeConfigureHandler) (address message : string) (w : World)
    (l : loc) (n : NodeDiscoveryMessage) (params : NodeAttrMap) :
  let d := DecodeMessage message in
  isEncrypted d = true -> isSigned d = true -> decodeErr d = None ->
  GetNodeByAddress address w = Done (Some l) w ->
  nodeHeap w !! l = Some n ->
  message <> "" ->
  match handler with
  | Some h => h address (cm_Attr (decoded d))
  | None => cm_Attr (decoded d)
  end = Some params ->
  lookupPtr (deviceMap (regNodes w)) (NodeID n) = None ->
  receiveConfigureCommand Now DecodeMessage handler address message w = Done None w.
Proof.
  intros d He Hs Herr Haddr Hn Hmsg Hparams Hdev.
  rewrite (receiveConfigureCommand_applies Now DecodeMessage handler address message
             w l n params He Hs Herr Haddr Hn Hmsg Hparams).
  unfold UpdateNodeConfigValues.
  rewrite bind_assoc.
  rewrite (bind_Done _ _ _ _ _ (GetNodeByHWID_eq (NodeID n) w)). by rewrite Hdev.
Qed.

Lemma storeNode_Some l w n0 n :
  nodeHeap w !! l = Some n0 ->
  storeNode (Some l) n w =
  Done tt (mkWorld (<[l := n]> (nodeHeap w)) (strMapHeap w) (cfgMapHeap w)
                   (regNodes w) (ticks w)).
Proof. intros H. unfold storeNode. by rewrite H. Qed.

(** [SetNodeID] to the hardware id of the node itself is never refused,
    whoever holds that nodeID: afterwards the nodeID leads to the clone. *)
Lemma SetNodeID_own_hwID_not_checked Now w l n attr status :
  nodeIs w l n attr status ->
  HWID n <> "" ->
  exists l' w',
    SetNodeID Now (Some l) (HWID n) w = Done true w' /\
    nodeHeap w !! l' = None /\
    lookupPtr (nodeMap (regNodes w')) (HWID n) = Some l'.
Proof.
  intros (Hn & Ha & Hs) Hne. unfold SetNodeID.
  run_Clone Hn Ha Hs a s l'.
  erewrite bind_Done; [| eapply derefNode_Some; simpl; by eapply lookup_weaken;
                         [exact Hn | solve_preserved]].
  rewrite decide_False by done.
  erewrite bind_Done; [| apply GetNodeByNodeID_eq]. simpl.
  rewrite decide_False by (intros [_ ?]; done).
  run derefNode_Some. run storeNode_Some.
  erewrite bind_Done; [| reflexivity]. simpl.
  erewrite bind_Done; [| reflexivity]. simpl.
  run derefNode_Some.
  erewrite bind_Done; [| reflexivity]. simpl.
  run storeNode_Some. run updateNode_Done. unfold ret.
  exists l'. eexists. split; [reflexivity |]. split; [done |].
  unfold lookupPtr. simpl. by rewrite lookup_insert_eq.
Qed.

(** * Further properties of the code *)

(** ** Addresses *)

Lemma string_append_assoc (a b c : string) : (a +:+ b) +:+ c = a +:+ (b +:+ c).
Proof.
  induction a as [| x a IH]; [reflexivity |].
  change (String x ((a +:+ b) +:+ c) = String x (a +:+ b +:+ c)). by f_equal.
Qed.

Lemma Split_noSlash (a : string) : noSlash a = true -> Split a slash = [a].
Proof.
  induction a as [| c a IH]; simpl; [reflexivity |].
  intros H. apply andb_prop in H as [Hc Ha].
  apply negb_true_iff, bool_decide_eq_false in Hc.
  rewrite decide_False by done. by rewrite (IH Ha).
Qed.

Lemma Split_segment (a r : string) :
  noSlash a = true -> Split (a +:+ String slash r) slash = a :: Split r slash.
Proof.
  induction a as [| c a IH]; simpl.
  - intros _. reflexivity.
  - intros H. apply andb_prop in H as [Hc Ha].
    apply negb_true_iff, bool_decide_eq_false in Hc.
    rewrite decide_False by done. by rewrite (IH Ha).
Qed.

Lemma Split_nonempty (s : string) : 1 <= length (Split s slash).
Proof.
  induction s as [| c s IH]; simpl; [lia |].
  case_decide; simpl; [lia |]. destruct (Split s slash); simpl in *; lia.
Qed.

(** [GetNodeByAddress] undoes [MakeNodeAddress]: the address made for a
    nodeID, with or without a message type, resolves to the node that
    [GetNodeByNodeID] returns for that nodeID. *)
Theorem GetNodeByAddress_MakeNodeAddress (d p nodeID messageType : string) (w : World) :
  noSlash d = true -> noSlash p = true -> noSlash nodeID = true ->
  GetNodeByAddress (MakeNodeAddress d p nodeID messageType) w
  = GetNodeByNodeID nodeID w.
Proof.
  intros Hd Hp Hn. unfold GetNodeByAddress, MakeNodeAddress.
  assert (Hsplit : exists rest,
             Split (if decide (messageType ≠ "")
                    then (d +:+ "/" +:+ p +:+ "/" +:+ nodeID) +:+ "/" +:+ messageType
                    else d +:+ "/" +:+ p +:+ "/" +:+ nodeID) slash
             = d :: p :: nodeID :: rest).
  { case_decide.
    - rewrite !string_append_assoc.
      change ("/" +:+ ?x) with (String slash x).
      rewrite (Split_segment d) by done. 
      change ("/" +:+ ?x) with (String slash x).
      rewrite (Split_segment p) by done.
      change ("/" +:+ ?x) with (String slash x).
      rewrite (Split_segment nodeID) by done. eauto.
    - change ("/" +:+ ?x) with (String slash x).
      rewrite (Split_segment d) by done.
      change ("/" +:+ ?x) with (String slash x).
      rewrite (Split_segment p) by done.
      rewrite (Split_noSlash nodeID) by done. eauto. }
  destruct Hsplit as [rest ->].
  rewrite decide_False by (simpl; lia). reflexivity.
Qed.

Lemma GetNodeByAddress_MakeNodeAddress_witness :
  GetNodeByAddress (MakeNodeAddress "dom" "pub" "alias" MessageTypeConfigure) worldRenamed
  = GetNodeByNodeID "alias" worldRenamed.
Proof.
  apply (GetNodeByAddress_MakeNodeAddress "dom" "pub" "alias" MessageTypeConfigure
           worldRenamed); reflexivity.
Defined.

(** ** Set commands *)

Lemma Split_MakeSetInputAddress (d p n t i : string) :
  noSlash d = true -> noSlash p = true -> noSlash n = true ->
  noSlash t = true -> noSlash i = true ->
  Split (MakeSetInputAddress d p n t i) slash = [d; p; n; t; i; MessageTypeSet].
Proof.
  intros Hd Hp Hn Ht Hi. unfold MakeSetInputAddress.
  change ("/" +:+ ?x) with (String slash x).
  rewrite (Split_segment d) by done.
  change ("/" +:+ ?x) with (String slash x).
  rewrite (Split_segment p) by done.
  change ("/" +:+ ?x) with (String slash x).
  rewrite (Split_segment n) by done.
  change ("/" +:+ ?x) with (String slash x).
  rewrite (Split_segment t) by done.
  change ("/" +:+ ?x) with (String slash x).
  rewrite (Split_segment i) by done.
  reflexivity.
Qed.

(** A set command received on the set address of an input, signed,
    encrypted and not older than the last one of its sender, is accepted:
    the callback registered under the DISCOVERY address of that input is
    invoked once, with that address, the sender and the value, and the
    timestamp of the sender is recorded. *)
Theorem decodeSetCommand_notifies_input
    (DecodeMessage : string -> Decoded SetInputMessage)
    (ifset : InputFromSetCommands) (d p n t i message : string) (h : nat) :
  let m := DecodeMessage message in
  noSlash d = true -> noSlash p = true -> noSlash n = true ->
  noSlash t = true -> noSlash i = true ->
  isEncrypted m = true -> isSigned m = true -> decodeErr m = None ->
  strGt (lookupStr (senderTimestamp ifset) (sm_Sender (decoded m)))
        (sm_Timestamp (decoded m)) = false ->
  registeredInputs ifset !! MakeInputDiscoveryAddress d p n t i = Some (Some h) ->
  decodeSetCommand DecodeMessage ifset (MakeSetInputAddress d p n t i) message =
  (None,
   mkInputFromSetCommands
     (<[sm_Sender (decoded m) := sm_Timestamp (decoded m)]> (senderTimestamp ifset))
     (registeredInputs ifset) (subscriptions ifset),
   [mkInvocation h (MakeInputDiscoveryAddress d p n t i)
                 (sm_Sender (decoded m)) (sm_Value (decoded m))]).
Proof.
  intros m Hd Hp Hn Ht Hi He Hs Herr Hfresh Hreg.
  unfold decodeSetCommand. fold m.
  rewrite (Split_MakeSetInputAddress d p n t i) by done.
  rewrite decide_False by (simpl; lia).
  rewrite He, Hs, Herr. simpl negb. cbv iota. rewrite Hfresh.
  unfold NotifyInputHandler.
  change (String.concat "/" (<[5:=MessageTypeInputDiscovery]>
                               [d; p; n; t; i; MessageTypeSet]))
    with (MakeInputDiscoveryAddress d p n t i).
  cbn [registeredInputs]. by rewrite Hreg.
Qed.

Lemma decodeSetCommand_notifies_input_witness :
  decodeSetCommand (decodeAs (mkDecoded true true None exampleSet)) ifsetNew
                   (MakeSetInputAddress "dom" "pub" "hw1" "switch" "0") "msg" =
  (None,
   mkInputFromSetCommands {[exampleSender := "2020-06-01T12:00:00"]}
                          (registeredInputs ifsetNew) (subscriptions ifsetNew),
   [mkInvocation 7 (MakeInputDiscoveryAddress "dom" "pub" "hw1" "switch" "0")
                 exampleSender "on"]).
Proof.
  apply (decodeSetCommand_notifies_input
           (decodeAs (mkDecoded true true None exampleSet)) ifsetNew
           "dom" "pub" "hw1" "switch" "0" "msg" 7); compute_done.
Defined.

(** A set command on an address of fewer than six segments, or not
    encrypted, or not signed, or that does not decode, is rejected with an
    error of its own; and whenever [decodeSetCommand] returns an error,
    whatever the error, the state is as before and no callback was
    invoked. *)
Theorem decodeSetCommand_rejections
    (DecodeMessage : string -> Decoded SetInputMessage)
    (ifset : InputFromSetCommands) (address message : string) :
  let m := DecodeMessage message in
  let run := decodeSetCommand DecodeMessage ifset address message in
  (length (Split address slash) < 6 ->
   run = (Some (ErrIncompleteAddress address), ifset, [])) /\
  (6 <= length (Split address slash) -> isEncrypted m = false ->
   run = (Some (ErrNotEncrypted address), ifset, [])) /\
  (6 <= length (Split address slash) -> isEncrypted m = true -> isSigned m = false ->
   run = (Some (ErrNotSigned address), ifset, [])) /\
  (forall cause, 6 <= length (Split address slash) ->
   isEncrypted m = true -> isSigned m = true -> decodeErr m = Some cause ->
   run = (Some (ErrDecode address cause), ifset, [])) /\
  (forall e, run.1.1 = Some e -> run.1.2 = ifset /\ run.2 = []).
Proof.
  intros m run. subst run. unfold decodeSetCommand. fold m.
  split; [| split; [| split; [| split]]].
  - intros H. by rewrite decide_True.
  - intros H ->. by rewrite decide_False by lia.
  - intros H -> ->. by rewrite decide_False by lia.
  - intros cause H -> -> ->. by rewrite decide_False by lia.
  - intros e. case_decide; [done |].
    destruct (isEncrypted m); [| done]. destruct (isSigned m); [| done].
    destruct (decodeErr m); [done |]. simpl.
    destruct (strGt _ _); [done |]. simpl. discriminate.
Qed.

Lemma decodeSetCommand_rejections_witness :
  let run address d := decodeSetCommand (decodeAs d) ifsetSeen address "msg" in
  run "dom/pub/hw1" (mkDecoded true true None exampleSet)
    = (Some (ErrIncompleteAddress "dom/pub/hw1"), ifsetSeen, []) /\
  run exampleSetAddress (mkDecoded true false None exampleSet)
    = (Some (ErrNotEncrypted exampleSetAddress), ifsetSeen, []) /\
  run exampleSetAddress (mkDecoded false true None exampleSet)
    = (Some (ErrNotSigned exampleSetAddress), ifsetSeen, []) /\
  run exampleSetAddress (mkDecoded true true (Some "bad") exampleSet)
    = (Some (ErrDecode exampleSetAddress "bad"), ifsetSeen, []) /\
  ((run exampleSetAddress
      (mkDecoded true true None
         (mkSetInputMessage exampleSetAddress exampleSender "2020-06-01T11:59:59" "on"))).1.2
     = ifsetSeen /\
   (run exampleSetAddress
      (mkDecoded true true None
         (mkSetInputMessage exampleSetAddress exampleSender "2020-06-01T11:59:59" "on"))).2
     = []).
Proof.
  intros run.
  pose (R address d := decodeSetCommand_rejections (decodeAs d) ifsetSeen address "msg").
  split; [| split; [| split; [| split]]].
  - apply (proj1 (R "dom/pub/hw1" (mkDecoded true true None exampleSet))).
    compute_done.
  - apply (proj1 (proj2 (R exampleSetAddress (mkDecoded true false None exampleSet))));
      compute_done.
  - apply (proj1 (proj2 (proj2
      (R exampleSetAddress (mkDecoded false true None exampleSet)))));
      compute_done.
  - apply (proj1 (proj2 (proj2 (proj2
      (R exampleSetAddress (mkDecoded true true (Some "bad") exampleSet))))));
      compute_done.
  - apply (proj2 (proj2 (proj2 (proj2
      (R exampleSetAddress
         (mkDecoded true true None
            (mkSetInputMessage exampleSetAddress exampleSender
                               "2020-06-01T11:59:59" "on"))))))
             (ErrEarlierTimestamp exampleSetAddress exampleSender)).
    compute_done.
Defined.

(** Across any call of [decodeSetCommand] the timestamp recorded for a
    sender never moves back, the timestamps of the senders other than the
    one of the command stay as they are, and the registered inputs and the
    subscriptions are not touched. *)
Theorem decodeSetCommand_timestamps_monotone
    (DecodeMessage : string -> Decoded SetInputMessage)
    (ifset : InputFromSetCommands) (address message : string) :
  let m := DecodeMessage message in
  let ifset' := (decodeSetCommand DecodeMessage ifset address message).1.2 in
  (forall sender,
     strGt (lookupStr (senderTimestamp ifset) sender)
           (lookupStr (senderTimestamp ifset') sender) = false) /\
  (forall sender, sender <> sm_Sender (decoded m) ->
     senderTimestamp ifset' !! sender = senderTimestamp ifset !! sender) /\
  registeredInputs ifset' = registeredInputs ifset /\
  subscriptions ifset' = subscriptions ifset.
Proof.
  intros m ifset'. subst ifset'. unfold decodeSetCommand. fold m.
  assert (Hsame : (forall sender,
     strGt (lookupStr (senderTimestamp ifset) sender)
           (lookupStr (senderTimestamp ifset) sender) = false) /\
   (forall sender, sender <> sm_Sender (decoded m) ->
      senderTimestamp ifset !! sender = senderTimestamp ifset !! sender) /\
   registeredInputs ifset = registeredInputs ifset /\
   subscriptions ifset = subscriptions ifset).
  { repeat apply conj; try done. intros sender. apply strGt_irrefl. }
  case_decide; [exact Hsame |].
  destruct (isEncrypted m); [| exact Hsame].
  destruct (isSigned m); [| exact Hsame].
  destruct (decodeErr m); [exact Hsame |]. simpl.
  destruct (strGt _ _) eqn:Hgt; [exact Hsame |]. simpl.
  repeat apply conj; try done.
  - intros sender. unfold lookupStr at 2.
    destruct (decide (sender = sm_Sender (decoded m))) as [-> | Hne].
    + rewrite lookup_insert_eq. exact Hgt.
    + rewrite lookup_insert_ne by done. apply strGt_irrefl.
  - intros sender Hne. by rewrite lookup_insert_ne.
Qed.

(** ** Subscriptions to set commands *)

(** No double subscription: after [subscribeToSetCommand] the input is
    subscribed, a second call for the same input changes nothing and makes
    no call to the message signer, and the first call makes at most one. *)
Theorem subscribeToSetCommand_once (dom pub : string) (ifset : InputFromSetCommands)
    (nodeID inputType instance : string) :
  let first := subscribeToSetCommand dom pub ifset nodeID inputType instance in
  subscribeToSetCommand dom pub first.1 nodeID inputType instance = (first.1, []) /\
  length first.2 <= 1 /\
  is_Some (subscriptions first.1 !! MakeSetInputAddress dom pub nodeID inputType instance).
Proof.
  intros first. subst first. unfold subscribeToSetCommand.
  destruct (subscriptions ifset !! _) as [x|] eqn:E; simpl.
  - rewrite E. repeat apply conj; [done | lia | done].
  - rewrite lookup_insert_eq. repeat apply conj; [done | lia | done].
Qed.

(** Subscribing an input that was not subscribed and unsubscribing it
    again gives the state before, with one call of [Subscribe] and then
    one call of [Unsubscribe] for the set address of the input;
    unsubscribing an input that is not subscribed does nothing. *)
Theorem subscribe_unsubscribe (dom pub : string) (ifset : InputFromSetCommands)
    (nodeID inputType instance : string) :
  let setAddr := MakeSetInputAddress dom pub nodeID inputType instance in
  subscriptions ifset !! setAddr = None ->
  let first := subscribeToSetCommand dom pub ifset nodeID inputType instance in
  first.2 = [Subscribe setAddr] /\
  unsubscribeFromSetCommand dom pub first.1 nodeID inputType instance
    = (ifset, [Unsubscribe setAddr]) /\
  unsubscribeFromSetCommand dom pub ifset nodeID inputType instance = (ifset, []).
Proof.
  intros setAddr Hfree first. subst first.
  unfold subscribeToSetCommand, unsubscribeFromSetCommand. fold setAddr.
  rewrite Hfree. simpl. rewrite lookup_insert_eq.
  rewrite (delete_insert_id _ _ _ Hfree).
  repeat apply conj; try done. by destruct ifset.
Qed.

Lemma subscribe_unsubscribe_witness :
  let setAddr := MakeSetInputAddress "dom" "pub" "hw2" "switch" "0" in
  let first := subscribeToSetCommand "dom" "pub" ifsetNew "hw2" "switch" "0" in
  first.2 = [Subscribe setAddr] /\
  unsubscribeFromSetCommand "dom" "pub" first.1 "hw2" "switch" "0"
    = (ifsetNew, [Unsubscribe setAddr]) /\
  unsubscribeFromSetCommand "dom" "pub" ifsetNew "hw2" "switch" "0" = (ifsetNew, []).
Proof.
  apply (subscribe_unsubscribe "dom" "pub" ifsetNew "hw2" "switch" "0").
  compute_done.
Defined.

(** ** Well-formed registries *)

Lemma mapsAllocated_mono sh ch sh' ch' n :
  allocMono sh sh' -> allocMono ch ch' ->
  mapsAllocated sh ch n -> mapsAllocated sh' ch' n.
Proof.
  unfold mapsAllocated, allocMono. intros Hs Hc (H1 & H2 & H3).
  destruct (Attr n), (Status n), (Config n); simpl in *; auto.
Qed.

Lemma entryOK_mono nh sh ch nh' sh' ch' field k p :
  nh ⊆ nh' -> allocMono sh sh' -> allocMono ch ch' ->
  entryOK nh sh ch field k p -> entryOK nh' sh' ch' field k p.
Proof.
  intros Hn Hs Hc. unfold entryOK. destruct p as [l|]; [| done].
  destruct (nh !! l) as [n|] eqn:E; [| done].
  rewrite (lookup_weaken _ _ _ _ E Hn). intros [Hk Hm].
  split; [done |]. by eapply mapsAllocated_mono.
Qed.

Lemma wfParts_mono nh sh ch nh' sh' ch' dm nm um :
  nh ⊆ nh' -> allocMono sh sh' -> allocMono ch ch' ->
  wfParts nh sh ch dm nm um -> wfParts nh' sh' ch' dm nm um.
Proof.
  intros Hn Hs Hc. unfold wfParts. intros (H1 & H2 & H3).
  repeat apply conj; (eapply map_Forall_impl; [eassumption |]);
    intros k p; by apply entryOK_mono.
Qed.

(** Registering the node [l'] under its hardware id, nodeID and address. *)
Lemma wfParts_register nh sh ch dm nm um l' n' h i a :
  wfParts nh sh ch dm nm um ->
  nh !! l' = Some n' -> HWID n' = h -> NodeID n' = i -> Address n' = a ->
  mapsAllocated sh ch n' ->
  wfParts nh sh ch (<[h := Some l']> dm) (<[i := Some l']> nm) (<[a := Some l']> um).
Proof.
  unfold wfParts. intros (H1 & H2 & H3) Hl Hh Hi Ha Hm.
  repeat apply conj; apply map_Forall_insert_2; try done;
    unfold entryOK; by rewrite Hl.
Qed.

(** Binding a nodeID and a pending publication to [nil]. *)
Lemma wfParts_retire nh sh ch dm nm um i k :
  wfParts nh sh ch dm nm um ->
  wfParts nh sh ch dm (<[i := None]> nm) (<[k := None]> um).
Proof.
  unfold wfParts. intros (H1 & H2 & H3). repeat apply conj; [done | |];
    by apply map_Forall_insert_2.
Qed.

(** What well-formedness says of a registered device. *)
Lemma regWF_registered w hwID l :
  regWF w -> lookupPtr (deviceMap (regNodes w)) hwID = Some l ->
  exists n a s c attr status config,
    nodeHeap w !! l = Some n /\ HWID n = hwID /\
    Attr n = Some a /\ Status n = Some s /\ Config n = Some c /\
    strMapHeap w !! a = Some attr /\ strMapHeap w !! s = Some status /\
    cfgMapHeap w !! c = Some config.
Proof.
  unfold regWF, wfParts. intros (H1 & _ & _) Hl. unfold lookupPtr in Hl.
  destruct (deviceMap (regNodes w) !! hwID) as [p|] eqn:E; [| discriminate].
  simpl in Hl. subst p. specialize (H1 _ _ E). unfold entryOK in H1.
  destruct (nodeHeap w !! l) as [n|] eqn:Hn; [| done].
  destruct H1 as (Hh & Ha & Hs & Hc).
  destruct (Attr n) as [a|] eqn:HA; [| by apply is_Some_None in Ha].
  destruct (Status n) as [s|] eqn:HS; [| by apply is_Some_None in Hs].
  destruct (Config n) as [c|] eqn:HC; [| by apply is_Some_None in Hc].
  simpl in *. destruct Ha as [attr Ha], Hs as [status Hs], Hc as [config Hc].
  by exists n, a, s, c, attr, status, config.
Qed.

Lemma usable_node w l :
  usable w (Some l) ->
  exists n a s c attr status config,
    nodeHeap w !! l = Some n /\
    Attr n = Some a /\ Status n = Some s /\ Config n = Some c /\
    strMapHeap w !! a = Some attr /\ strMapHeap w !! s = Some status /\
    cfgMapHeap w !! c = Some config.
Proof.
  unfold usable. destruct (nodeHeap w !! l) as [n|] eqn:Hn; [| done].
  intros (Ha & Hs & Hc).
  destruct (Attr n) as [a|] eqn:HA; [| by apply is_Some_None in Ha].
  destruct (Status n) as [s|] eqn:HS; [| by apply is_Some_None in Hs].
  destruct (Config n) as [c|] eqn:HC; [| by apply is_Some_None in Hc].
  simpl in *. destruct Ha as [attr Ha], Hs as [status Hs], Hc as [config Hc].
  by exists n, a, s, c, attr, status, config.
Qed.

(** A registered pointer is usable. *)
Lemma regWF_usable w hwID :
  regWF w -> usable w (lookupPtr (deviceMap (regNodes w)) hwID).
Proof.
  intros Hwf. destruct (lookupPtr (deviceMap (regNodes w)) hwID) as [l|] eqn:Hl;
    [| done].
  destruct (regWF_registered w hwID l Hwf Hl)
    as (n & a & s & c & attr & status & config & Hn & _ & Ha & Hs & Hc & ? & ? & ?).
  unfold usable, mapsAllocated. rewrite Hn, Ha, Hs, Hc. simpl. eauto.
Qed.

Ltac solve_alloc :=
  intros ? ?; repeat (apply lookup_insert_is_Some'; right); assumption.

Ltac solve_is_Some :=
  repeat first [ by (apply lookup_insert_is_Some'; left)
               | apply lookup_insert_is_Some'; right ];
  eauto.

(** The facts about a registered device of a well-formed registry, under
    the names the execution tactics expect. *)
Ltac registered_facts Hwf Hl n attr status config c0 :=
  let a0 := fresh "a0" in
  let s0 := fresh "s0" in
  destruct (regWF_registered _ _ _ Hwf Hl)
    as (n & a0 & s0 & c0 & attr & status & config
        & Hn & Hh & HA & HS & HC & Ha0 & Hs0 & Hc0);
  assert (Ha : readStrMap (Attr n) _ = Done attr _)
    by (rewrite HA; apply readStrMap_Some; exact Ha0);
  assert (Hs : readStrMap (Status n) _ = Done status _)
    by (rewrite HS; apply readStrMap_Some; exact Hs0).

(** The world reached registers the clone [l'] over a store that extends
    the one of the well-formed world [Hwf] speaks of. *)
Ltac finish_wf Hwf HC :=
  unfold regWF; simpl;
  eapply wfParts_register;
  [ refine (wfParts_mono _ _ _ _ _ _ _ _ _ _ _ _ Hwf);
    [solve_preserved | solve_alloc | solve_alloc]
  | simpl; rewrite lookup_insert_eq; reflexivity
  | reflexivity | reflexivity | reflexivity
  | unfold mapsAllocated; simpl; rewrite ?HC; simpl;
    repeat apply conj; solve_is_Some ].

(** The world reached has the registry of the well-formed world [Hwf]
    speaks of, over a store that extends the one of that world. *)
Ltac finish_wf_same Hwf :=
  unfold regWF; simpl;
  refine (wfParts_mono _ _ _ _ _ _ _ _ _ _ _ _ Hwf);
  [solve_preserved | solve_alloc | solve_alloc].

Lemma UpdateNodeAttr_wf Now hwID attrParams w :
  regWF w ->
  exists changed w', UpdateNodeAttr Now hwID attrParams w = Done changed w' /\ regWF w'.
Proof.
  intros Hwf. unfold UpdateNodeAttr.
  rewrite (bind_Done _ _ _ _ _ (GetNodeByHWID_eq hwID w)).
  destruct (lookupPtr (deviceMap (regNodes w)) hwID) as [l|] eqn:Hl;
    [| by exists false, w].
  registered_facts Hwf Hl n attr status config c0.
  run_Clone Hn Ha Hs a s l'.
  run derefNode_Some. run readStrMap_Some. run writeStrMap_Some.
  destruct (foldl mergeStep (attr, false) (map_to_list attrParams)).2.
  - run updateNode_Done. eexists _, _. split; [reflexivity |]. finish_wf Hwf HC.
  - eexists _, _. split; [reflexivity |]. finish_wf_same Hwf.
Qed.

Lemma UpdateNodeStatus_wf Now hwID statusAttr w :
  regWF w ->
  exists changed w', UpdateNodeStatus Now hwID statusAttr w = Done changed w' /\ regWF w'.
Proof.
  intros Hwf. unfold UpdateNodeStatus.
  rewrite (bind_Done _ _ _ _ _ (GetNodeByHWID_eq hwID w)).
  destruct (lookupPtr (deviceMap (regNodes w)) hwID) as [l|] eqn:Hl;
    [| by exists false, w].
  registered_facts Hwf Hl n attr status config c0.
  run_Clone Hn Ha Hs a s l'.
  run derefNode_Some. run readStrMap_Some. run writeStrMap_Some.
  destruct (foldl mergeStep (status, false) (map_to_list statusAttr)).2.
  - run updateNode_Done. eexists _, _. split; [reflexivity |]. finish_wf Hwf HC.
  - eexists _, _. split; [reflexivity |]. finish_wf_same Hwf.
Qed.

Lemma UpdateErrorStatus_wf Now hwID runState errorMsg w :
  regWF w ->
  exists changed w',
    UpdateErrorStatus Now hwID runState errorMsg w = Done changed w' /\ regWF w'.
Proof.
  intros Hwf. unfold UpdateErrorStatus.
  rewrite (bind_Done _ _ _ _ _ (GetNodeByHWID_eq hwID w)).
  destruct (lookupPtr (deviceMap (regNodes w)) hwID) as [l|] eqn:Hl;
    [| by exists false, w].
  registered_facts Hwf Hl n attr status config c0.
  assert (Hst : forall w2, strMapHeap w ⊆ strMapHeap w2 ->
                           readStrMap (Status n) w2 = Done status w2).
  { intros w2 Hsub. by eapply readStrMap_ext. }
  run_Clone Hn Ha Hs a s l'.
  erewrite bind_Done; [| eapply derefNode_Some; simpl; by eapply lookup_weaken;
                         [exact Hn | solve_preserved]].
  run derefNode_Some.
  erewrite bind_Done; [| apply Hst; simpl; solve_preserved].
  destruct (decide (lookupStr status NodeStatusLastError ≠ errorMsg)).
  - rewrite !bind_assoc. run readStrMap_Some. run writeStrMap_Some. rewrite bind_ret.
    erewrite bind_Done; [| apply Hst; simpl; solve_preserved].
    destruct (decide (lookupStr status NodeStatusRunState ≠ runState)).
    + rewrite !bind_assoc. run readStrMap_Some. run writeStrMap_Some. rewrite bind_ret.
      run updateNode_Done. eexists _, _. split; [reflexivity |]. finish_wf Hwf HC.
    + rewrite bind_ret. run updateNode_Done.
      eexists _, _. split; [reflexivity |]. finish_wf Hwf HC.
  - rewrite bind_ret. erewrite bind_Done; [| apply Hst; simpl; solve_preserved].
    destruct (decide (lookupStr status NodeStatusRunState ≠ runState)).
    + rewrite !bind_assoc. run readStrMap_Some. run writeStrMap_Some. rewrite bind_ret.
      run updateNode_Done. eexists _, _. split; [reflexivity |]. finish_wf Hwf HC.
    + rewrite bind_ret. rewrite bind_ret.
      eexists _, _. split; [reflexivity |]. finish_wf_same Hwf.
Qed.

Lemma UpdateNodeConfigValues_wf Now hwID params w :
  regWF w ->
  exists changed w',
    UpdateNodeConfigValues Now hwID params w = Done changed w' /\ regWF w'.
Proof.
  intros Hwf. unfold UpdateNodeConfigValues.
  rewrite (bind_Done _ _ _ _ _ (GetNodeByHWID_eq hwID w)).
  destruct (lookupPtr (deviceMap (regNodes w)) hwID) as [l|] eqn:Hl;
    [| by exists false, w].
  destruct params as [params|]; [| by exists false, w].
  registered_facts Hwf Hl n attr status config c0.
  assert (Hc : readCfgMap (Config n) w = Done config w)
    by (rewrite HC; by apply readCfgMap_Some).
  run_Clone Hn Ha Hs a s l'.
  erewrite bind_Done; [| eapply derefNode_Some; simpl; by eapply lookup_weaken;
                         [exact Hn | solve_preserved]].
  run derefNode_Some.
  erewrite bind_Done; [| eapply readCfgMap_ext; [exact Hc | reflexivity]].
  erewrite bind_Done; [| eapply readStrMap_ext; [exact Ha | simpl; solve_preserved]].
  run readStrMap_Some. run writeStrMap_Some.
  destruct (foldl (configStep config attr) (attr, false) (map_to_list params)).2.
  - run updateNode_Done. eexists _, _. split; [reflexivity |]. finish_wf Hwf HC.
  - eexists _, _. split; [reflexivity |]. finish_wf_same Hwf.
Qed.

Lemma UpdateNodeConfig_wf Now hwID attrName configAttr w :
  regWF w ->
  exists w', UpdateNodeConfig Now hwID attrName configAttr w = Done tt w' /\ regWF w'.
Proof.
  intros Hwf. unfold UpdateNodeConfig.
  rewrite (bind_Done _ _ _ _ _ (GetNodeByHWID_eq hwID w)).
  destruct (lookupPtr (deviceMap (regNodes w)) hwID) as [l|] eqn:Hl;
    [| by exists w].
  destruct configAttr as [configAttr|]; [| by exists w].
  case_decide; [by exists w |].
  registered_facts Hwf Hl n attr status config c0.
  run_Clone Hn Ha Hs a s l'.
  run derefNode_Some. simpl. rewrite HC.
  run readCfgMap_Some. run writeCfgMap_Some.
  erewrite updateNode_Done; [| heap_lookup].
  eexists. split; [reflexivity |]. finish_wf Hwf HC.
Qed.

Lemma CreateNodeConfig_wf Now hwID attrName dataType description defaultValue w :
  regWF w ->
  exists r w',
    CreateNodeConfig Now hwID attrName dataType description defaultValue w = Done r w' /\
    regWF w'.
Proof.
  intros Hwf. unfold CreateNodeConfig.
  rewrite (bind_Done _ _ _ _ _ (GetNodeByHWID_eq hwID w)).
  destruct (lookupPtr (deviceMap (regNodes w)) hwID) as [l|] eqn:Hl;
    [| by exists None, w].
  registered_facts Hwf Hl n attr status config c0.
  run derefNode_Some. rewrite HC. run readCfgMap_Some.
  run_Clone Hn Ha Hs a s l'.
  run derefNode_Some. simpl. rewrite HC.
  run readCfgMap_Some. run writeCfgMap_Some. run updateNode_Done.
  eexists _, _. split; [reflexivity |]. finish_wf Hwf HC.
Qed.

Lemma CreateNode_wf Now hwID nodeType w :
  regWF w ->
  exists r w', CreateNode Now hwID nodeType w = Done r w' /\ regWF w'.
Proof.
  intros Hwf. unfold CreateNode.
  rewrite (bind_Done _ _ _ _ _ (GetNodeByHWID_eq hwID w)).
  destruct (lookupPtr (deviceMap (regNodes w)) hwID) as [l|] eqn:Hl;
    [by exists (Some l), w |].
  unfold bind at 1. unfold getReg. unfold NewNode.
  case_decide; [by exists None, w |].
  destruct (fresh_insert_lookup (strMapHeap w) (fresh (dom (strMapHeap w))) ∅)
    as [Hs1 Hs2].
  pose proof (fresh_lookup (strMapHeap w)) as Ha1.
  pose proof (fresh_lookup (cfgMapHeap w)) as Hc1.
  pose proof (fresh_lookup (nodeHeap w)) as Hl1.
  rewrite ?bind_assoc. erewrite bind_Done; [| reflexivity]. simpl.
  rewrite ?bind_assoc. erewrite bind_Done; [| reflexivity]. simpl.
  rewrite ?bind_assoc. erewrite bind_Done; [| reflexivity]. simpl.
  rewrite ?bind_assoc. erewrite bind_Done; [| reflexivity]. simpl.
  rewrite ?bind_assoc. erewrite bind_Done; [| reflexivity]. simpl.
  set (a := fresh (dom (strMapHeap w))) in *.
  set (s := fresh (dom (<[a := ∅]> (strMapHeap w)))) in *.
  set (c := fresh (dom (cfgMapHeap w))) in *.
  set (l := fresh (dom (nodeHeap w))) in *.
  run writeStrMap_Some. run writeCfgMap_Some.
  erewrite bind_Done; [| reflexivity].
  run updateNode_Done. unfold ret.
  eexists _, _. split; [reflexivity |].
  unfold regWF; simpl.
  eapply wfParts_register;
    [ refine (wfParts_mono _ _ _ _ _ _ _ _ _ _ _ _ Hwf);
      [solve_preserved | solve_alloc | solve_alloc]
    | simpl; rewrite lookup_insert_eq; reflexivity
    | reflexivity | reflexivity | reflexivity
    | unfold mapsAllocated; simpl; repeat apply conj; solve_is_Some ].
Qed.

Lemma SetNodeID_wf Now node newNodeID w :
  regWF w -> usable w node ->
  exists b w', SetNodeID Now node newNodeID w = Done b w' /\ regWF w'.
Proof.
  intros Hwf Huse. unfold SetNodeID.
  destruct node as [l|]; [| by exists false, w].
  destruct (usable_node w l Huse)
    as (n & a0 & s0 & c0 & attr & status & config
        & Hn & HA & HS & HC & Ha0 & Hs0 & Hc0).
  assert (Ha : readStrMap (Attr n) w = Done attr w)
    by (rewrite HA; by apply readStrMap_Some).
  assert (Hs : readStrMap (Status n) w = Done status w)
    by (rewrite HS; by apply readStrMap_Some).
  run_Clone Hn Ha Hs a s l'.
  erewrite bind_Done; [| eapply derefNode_Some; simpl; by eapply lookup_weaken;
                         [exact Hn | solve_preserved]].
  assert (Hrename : forall newID, exists w',
    (nn <- derefNode (Some l') ;;
     storeNode (Some l') (mkNode (Address nn) (Attr nn) (Config nn) (HWID nn) newID
                                 (PublisherID nn) (Status nn) (Timestamp nn)) ;;;
     r <- getReg ;;
     putReg (mkRegisteredNodes (domain r) (publisherID r) (deviceMap r)
               (<[NodeID n := None]> (nodeMap r))
               (Some (<[NodeID n := None]> (default ∅ (updatedNodes r))))) ;;;
     nn <- derefNode (Some l') ;;
     r <- getReg ;;
     storeNode (Some l')
       (mkNode (MakeNodeDiscoveryAddress (domain r) (publisherID r) (NodeID nn))
               (Attr nn) (Config nn) (HWID nn) (NodeID nn)
               (PublisherID nn) (Status nn) (Timestamp nn)) ;;;
     updateNode Now (Some l') ;;;
     ret true)
      (mkWorld
         (<[l' := mkNode (Address n) (Some a) (Config n) (HWID n) (NodeID n)
                         (PublisherID n) (Some s) (Timestamp n)]> (nodeHeap w))
         (<[s := status]> (<[a := attr]> (strMapHeap w)))
         (cfgMapHeap w) (regNodes w) (ticks w))
    = Done true w' /\ regWF w').
  { intros newID.
    run derefNode_Some. run storeNode_Some.
    erewrite bind_Done; [| reflexivity]. simpl.
    erewrite bind_Done; [| reflexivity]. simpl.
    run derefNode_Some.
    erewrite bind_Done; [| reflexivity]. simpl.
    run storeNode_Some. run updateNode_Done. unfold ret.
    eexists. split; [reflexivity |].
    unfold regWF; simpl.
    eapply wfParts_register;
      [ apply wfParts_retire;
        refine (wfParts_mono _ _ _ _ _ _ _ _ _ _ _ _ Hwf);
        [solve_preserved | solve_alloc | solve_alloc]
      | simpl; rewrite lookup_insert_eq; reflexivity
      | reflexivity | reflexivity | reflexivity
      | unfold mapsAllocated; simpl; rewrite ?HC; simpl;
        repeat apply conj; solve_is_Some ]. }
  case_decide.
  - destruct (Hrename (HWID n)) as (w' & Hrun & Hwf'). by exists true, w'.
  - erewrite bind_Done; [| apply GetNodeByNodeID_eq]. simpl.
    case_decide.
    + eexists false, _. split; [reflexivity |]. finish_wf_same Hwf.
    + destruct (Hrename newNodeID) as (w' & Hrun & Hwf'). by exists true, w'.
Qed.

Lemma GetUpdatedNodes_wf clearUpdates w :
  regWF w ->
  exists nodes w',
    GetUpdatedNodes clearUpdates w = Done nodes w' /\ regWF w' /\
    Forall (usable w') nodes.
Proof.
  intros Hwf. unfold GetUpdatedNodes, bind, getReg.
  assert (Hall : forall um : gmap string ref,
             map_Forall (entryOK (nodeHeap w) (strMapHeap w) (cfgMapHeap w) Address) um ->
             forall w2, nodeHeap w2 = nodeHeap w -> strMapHeap w2 = strMapHeap w ->
                        cfgMapHeap w2 = cfgMapHeap w ->
                        Forall (usable w2) (snd <$> map_to_list um)).
  { intros um Hum w2 E1 E2 E3. apply Forall_fmap, Forall_forall.
    intros [k p] Hin. apply elem_of_map_to_list in Hin. specialize (Hum _ _ Hin).
    simpl. unfold usable, entryOK in *. rewrite E1, E2, E3.
    destruct p as [l|]; [| done]. destruct (nodeHeap w !! l); [| done]. tauto. }
  destruct Hwf as (H1 & H2 & H3).
  destruct (updatedNodes (regNodes w)) as [um|] eqn:E.
  - destruct clearUpdates; simpl.
    + eexists _, _. split; [reflexivity |]. split.
      * unfold regWF. simpl. repeat apply conj; try done; apply map_Forall_empty.
      * by apply Hall.
    + exists (snd <$> map_to_list um), w. split; [reflexivity |]. split.
      * unfold regWF. rewrite E. by repeat apply conj.
      * by apply Hall.
  - exists [], w. split; [reflexivity |]. split; [| constructor].
    unfold regWF. rewrite E. by repeat apply conj.
Qed.

(** A new registry is well formed, whatever the store holds. *)
Lemma regWF_new nh sh ch d p t :
  regWF (mkWorld nh sh ch (NewRegisteredNodes d p) t).
Proof. unfold regWF, wfParts. simpl. repeat apply conj; apply map_Forall_empty. Qed.

(** On a well-formed registry no method that changes the registry panics,
    whatever its arguments (unknown or empty ids, nil maps, nil
    descriptor), and the registry is well formed afterwards: every pointer
    in [deviceMap], [nodeMap] and the pending publications still leads to
    a node with allocated maps, kept under its own hardware id, nodeID and
    address. *)
Theorem registry_methods_keep_regWF (Now : nat -> string) (w : World) :
  regWF w ->
  (forall hwID nodeType,
     exists r w', CreateNode Now hwID nodeType w = Done r w' /\ regWF w') /\
  (forall hwID attrName dataType description defaultValue,
     exists r w',
       CreateNodeConfig Now hwID attrName dataType description defaultValue w
         = Done r w' /\ regWF w') /\
  (forall node newNodeID, usable w node ->
     exists b w', SetNodeID Now node newNodeID w = Done b w' /\ regWF w') /\
  (forall hwID runState errorMsg,
     exists b w', UpdateErrorStatus Now hwID runState errorMsg w = Done b w' /\ regWF w') /\
  (forall hwID attrParams,
     exists b w', UpdateNodeAttr Now hwID attrParams w = Done b w' /\ regWF w') /\
  (forall hwID params,
     exists b w', UpdateNodeConfigValues Now hwID params w = Done b w' /\ regWF w') /\
  (forall hwID attrName configAttr,
     exists w', UpdateNodeConfig Now hwID attrName configAttr w = Done tt w' /\ regWF w') /\
  (forall hwID statusAttr,
     exists b w', UpdateNodeStatus Now hwID statusAttr w = Done b w' /\ regWF w') /\
  (forall clearUpdates,
     exists nodes w',
       GetUpdatedNodes clearUpdates w = Done nodes w' /\ regWF w' /\
       Forall (usable w') nodes).
Proof.
  intros Hwf. repeat apply conj; intros.
  - by apply CreateNode_wf.
  - by apply CreateNodeConfig_wf.
  - by apply SetNodeID_wf.
  - by apply UpdateErrorStatus_wf.
  - by apply UpdateNodeAttr_wf.
  - by apply UpdateNodeConfigValues_wf.
  - by apply UpdateNodeConfig_wf.
  - by apply UpdateNodeStatus_wf.
  - by apply GetUpdatedNodes_wf.
Qed.

Lemma registry_methods_keep_regWF_witness :
  (exists b w', SetNodeID exampleNow (Some 3%positive) "a" worldAB = Done b w' /\ regWF w') /\
  (exists w', UpdateNodeConfig exampleNow "a" "" (Some fooConfig) worldAB = Done tt w'
              /\ regWF w') /\
  (exists b w', UpdateNodeConfigValues exampleNow "nobody" None worldAB = Done b w'
                /\ regWF w').
Proof.
  assert (Hwf : regWF worldAB) by compute_done.
  pose proof (registry_methods_keep_regWF exampleNow worldAB Hwf)
    as (_ & _ & HS & _ & _ & HV & HC & _ & _).
  repeat apply conj.
  - apply HS. compute_done.
  - apply HC.
  - apply HV.
Defined.

Lemma regWF_registeredAs w hwID l :
  regWF w -> lookupPtr (deviceMap (regNodes w)) hwID = Some l ->
  exists config attr, registeredAs w hwID config attr.
Proof.
  intros Hwf Hl.
  destruct (regWF_registered w hwID l Hwf Hl)
    as (n & a & s & c & attr & status & config
        & Hn & _ & HA & _ & HC & Ha & _ & Hc).
  exists config, attr, l, n. repeat apply conj; try done.
  - rewrite HC. by apply readCfgMap_Some.
  - rewrite HA. by apply readStrMap_Some.
Qed.

(** On a well-formed registry the getters never panic and change nothing,
    whatever device and attribute they are asked for. *)
Theorem getters_return (w : World) (hwID attrName : string) :
  regWF w ->
  (exists v, GetNodeAttr hwID attrName w = Done v w) /\
  (forall dflt, exists r, GetNodeConfigString hwID attrName dflt w = Done r w) /\
  (forall dflt, exists r, GetNodeConfigBool hwID attrName dflt w = Done r w) /\
  (forall dflt, exists r, GetNodeConfigInt hwID attrName dflt w = Done r w) /\
  (forall (float32 : Type) (ParseFloat32 : string -> option float32) dflt,
     exists r, GetNodeConfigFloat float32 ParseFloat32 hwID attrName dflt w = Done r w).
Proof.
  intros Hwf.
  assert (HP : forall (T : Type) (parse : string -> option T) notT (dflt : T),
             exists r, GetNodeConfigParsed parse notT hwID attrName dflt w = Done r w).
  { intros T parse notT dflt.
    destruct (GetNodeConfigParsed_ParsedGetterSpec parse notT w hwID attrName dflt)
      as (Hnone & Hsome & _).
    destruct (lookupPtr (deviceMap (regNodes w)) hwID) as [l|] eqn:Hl.
    - destruct (regWF_registeredAs w hwID l Hwf Hl) as (config & attr & Hreg).
      rewrite (Hsome config attr Hreg).
      destruct (config !! attrName); [| eauto]. simpl.
      case_decide; [eauto |]. destruct (parse _); eauto.
    - rewrite (Hnone eq_refl). eauto. }
  repeat apply conj.
  - unfold GetNodeAttr, bind, getReg. simpl.
    destruct (lookupPtr (deviceMap (regNodes w)) hwID) as [l|] eqn:Hl; [| by eexists].
    destruct (regWF_registered w hwID l Hwf Hl)
      as (n & a & s & c & attr & status & config
          & Hn & _ & HA & _ & _ & Ha & _ & _).
    rewrite (derefNode_Some _ _ _ Hn). rewrite HA.
    rewrite (readStrMap_Some _ _ _ Ha). by eexists.
  - intros dflt.
    destruct (lookupPtr (deviceMap (regNodes w)) hwID) as [l|] eqn:Hl.
    + destruct (regWF_registeredAs w hwID l Hwf Hl) as (config & attr & Hreg).
      rewrite (GetNodeConfigString_registered _ _ _ _ _ _ Hreg).
      destruct (config !! attrName); eauto.
    + rewrite (GetNodeConfigString_not_found _ _ _ _ Hl). eauto.
  - intros dflt. apply HP.
  - intros dflt. apply HP.
  - intros float32 ParseFloat32 dflt. apply HP.
Qed.

Lemma getters_return_witness :
  (exists v, GetNodeAttr "b" "type" worldAB = Done v worldAB) /\
  (exists r, GetNodeConfigInt "nobody" "interval" 7%Z worldAB = Done r worldAB).
Proof.
  assert (Hwf : regWF worldAB) by compute_done.
  split.
  - apply (getters_return worldAB "b" "type" Hwf).
  - apply (getters_return worldAB "nobody" "interval" Hwf).
Defined.

(** On a well-formed registry the ingestion of a configure command never
    panics, whatever the message, the address and the handler are, and the
    registry is well formed afterwards. *)
Theorem receiveConfigureCommand_keeps_regWF (Now : nat -> string)
    (DecodeMessage : string -> Decoded NodeConfigureMessage)
    (handler : option NodeConfigureHandler) (address message : string) (w : World) :
  regWF w ->
  exists r w',
    receiveConfigureCommand Now DecodeMessage handler address message w = Done r w' /\
    regWF w'.
Proof.
  intros Hwf. unfold receiveConfigureCommand.
  destruct (isEncrypted _); simpl; [| by eexists _, w].
  destruct (isSigned _); simpl; [| by eexists _, w].
  destruct (decodeErr _); [by eexists _, w |].
  unfold GetNodeByAddress.
  set (params := match handler with
                 | Some h => h address (cm_Attr (decoded (DecodeMessage message)))
                 | None => cm_Attr (decoded (DecodeMessage message))
                 end).
  assert (Hnode : forall p : ref,
             p = None \/ (exists i, nodeMap (regNodes w) !! i = Some p) ->
             exists r w',
               (if decide (p = None ∨ message = "")
                then ret (Some (ErrUnknownNode address))
                else match params with
                     | Some _ =>
                         n <- derefNode p ;;
                         UpdateNodeConfigValues Now (NodeID n) params ;;; ret None
                     | None => ret None
                     end) w = Done r w' /\ regWF w').
  { intros p Hp. case_decide; [by eexists _, w |].
    destruct params as [ps|]; [| by eexists _, w].
    destruct Hp as [-> | [i Hi]]; [tauto |].
    destruct p as [l|]; [| tauto].
    destruct Hwf as (H1 & H2 & H3). pose proof (H2 _ _ Hi) as Hl.
    unfold entryOK in Hl. destruct (nodeHeap w !! l) as [n|] eqn:Hn; [| done].
    rewrite (bind_Done _ _ _ _ _ (derefNode_Some _ _ _ Hn)).
    destruct (UpdateNodeConfigValues_wf Now (NodeID n) (Some ps) w
                (conj H1 (conj H2 H3))) as (b & w' & Hrun & Hwf').
    rewrite (bind_Done _ _ _ _ _ Hrun). by eexists _, w'. }
  destruct (decide (length (Split address slash) < 3)).
  - erewrite bind_Done; [| reflexivity]. apply Hnode. by left.
  - erewrite bind_Done; [| reflexivity]. apply Hnode.
    unfold lookupPtr.
    destruct (nodeMap (regNodes w) !! _) as [p|] eqn:E; simpl; [right; eauto | by left].
Qed.

Lemma receiveConfigureCommand_keeps_regWF_witness :
  exists r w',
    receiveConfigureCommand exampleNow
      (decodeAs (mkDecoded true true None aliasConfigure)) None
      "dom/pub/alias/$configure" "msg" worldRenamed = Done r w' /\
    regWF w'.
Proof.
  apply (receiveConfigureCommand_keeps_regWF exampleNow
           (decodeAs (mkDecoded true true None aliasConfigure)) None
           "dom/pub/alias/$configure" "msg" worldRenamed).
  compute_done.
Defined.

(** ** Attributes: update and read back *)

(** The loop of [UpdateNodeAttr] and [UpdateNodeStatus], key by key. *)
Lemma mergeStep_foldl (l : list (string * string)) :
  NoDup l.*1 ->
  forall acc : gmap string string * bool,
    let res := foldl mergeStep acc l in
    (forall k v, (k, v) ∈ l -> lookupStr res.1 k = v) /\
    (forall k, k ∉ l.*1 -> res.1 !! k = acc.1 !! k) /\
    (res.2 = false -> res.1 = acc.1) /\
    (res.2 = false <->
     acc.2 = false /\ forall k v, (k, v) ∈ l -> lookupStr acc.1 k = v).
Proof.
  induction l as [| [k0 v0] l IH]; intros Hnd acc.
  - simpl. split; [| split; [| split; [| split]]]; try done.
    + intros k v Hin. by apply elem_of_nil in Hin.
    + intros H. split; [done |]. intros k v Hin. by apply elem_of_nil in Hin.
    + by intros [? _].
  - simpl in Hnd. apply NoDup_cons in Hnd as [Hk0 Hnd]. simpl.
    set (acc' := mergeStep acc (k0, v0)).
    assert (Hhead : lookupStr acc'.1 k0 = v0).
    { subst acc'. unfold mergeStep. simpl. case_decide; simpl.
      - unfold lookupStr. by rewrite lookup_insert_eq.
      - by destruct (decide (lookupStr acc.1 k0 = v0)). }
    assert (Hother : forall k, k <> k0 -> acc'.1 !! k = acc.1 !! k).
    { intros k Hk. subst acc'. unfold mergeStep. simpl. case_decide; simpl; [| done].
      by rewrite lookup_insert_ne. }
    assert (Hflag : acc'.2 = false <-> acc.2 = false /\ lookupStr acc.1 k0 = v0).
    { subst acc'. unfold mergeStep. simpl. case_decide; simpl.
      - split; [done | by intros [_ ?]].
      - split; [intros ?; split; [done |] | by intros [? _]].
        by destruct (decide (lookupStr acc.1 k0 = v0)). }
    assert (Hkeep : acc'.2 = false -> acc' = acc).
    { subst acc'. unfold mergeStep. simpl. by case_decide. }
    destruct (IH Hnd acc') as (IH1 & IH2 & IH3 & IH4).
    split; [| split; [| split]].
    + intros k v Hin. apply elem_of_cons in Hin as [[= -> ->] | Hin].
      * unfold lookupStr. rewrite IH2 by done. exact Hhead.
      * by apply IH1.
    + intros k Hk. apply not_elem_of_cons in Hk as [Hk1 Hk2].
      rewrite IH2 by done. by apply Hother.
    + intros Hres. rewrite (IH3 Hres).
      apply IH4 in Hres as [Hres _]. by rewrite (Hkeep Hres).
    + rewrite IH4. split.
      * intros [Hf Hall]. pose proof (Hkeep Hf) as Heq.
        apply Hflag in Hf as [Hf Hk]. split; [done |].
        intros k v Hin. apply elem_of_cons in Hin as [[= -> ->] | Hin]; [done |].
        rewrite <- Heq. by apply Hall.
      * intros [Hf Hall].
        assert (Hf' : acc'.2 = false).
        { apply Hflag. split; [done |]. apply Hall. by left. }
        split; [done |]. intros k v Hin. rewrite (Hkeep Hf').
        apply Hall. by right.
Qed.

(** [GetNodeAttr] of a registered device. *)
Lemma GetNodeAttr_registered hwID k w l n attr status :
  lookupPtr (deviceMap (regNodes w)) hwID = Some l ->
  nodeIs w l n attr status ->
  GetNodeAttr hwID k w = Done (lookupStr attr k) w.
Proof.
  intros Hl (Hn & Ha & _). unfold GetNodeAttr, bind, getReg. simpl. rewrite Hl.
  rewrite (derefNode_Some _ _ _ Hn). by rewrite Ha.
Qed.

(** [UpdateNodeAttr] on a registered device: the result of the call. *)
Lemma UpdateNodeAttr_Done Now hwID attrParams w l n attr status :
  lookupPtr (deviceMap (regNodes w)) hwID = Some l ->
  nodeIs w l n attr status ->
  let res := foldl mergeStep (attr, false) (map_to_list attrParams) in
  exists w',
    UpdateNodeAttr Now hwID attrParams w = Done res.2 w' /\
    storePreserved w w' /\
    (res.2 = false -> regNodes w' = regNodes w) /\
    (res.2 = true ->
     exists l' n',
       lookupPtr (deviceMap (regNodes w')) (HWID n) = Some l' /\
       nodeIs w' l' n' res.1 status).
Proof.
  intros Hl (Hn & Ha & Hs) res. unfold UpdateNodeAttr.
  rewrite (bind_Done _ _ _ _ _ (GetNodeByHWID_eq hwID w)). rewrite Hl.
  run_Clone Hn Ha Hs a s l'.
  run derefNode_Some. run readStrMap_Some. fold res. run writeStrMap_Some.
  destruct res.2 eqn:Hres.
  - run updateNode_Done. eexists. split; [reflexivity |].
    unfold storePreserved. simpl.
    repeat apply conj; [solve_preserved | solve_preserved | done |].
    intros _. exists l'. eexists.
    split; [unfold lookupPtr; simpl; by rewrite lookup_insert_eq |].
    split; [simpl; rewrite lookup_insert_eq; reflexivity |].
    split; apply readStrMap_Some; heap_lookup.
  - eexists. split; [reflexivity |]. unfold storePreserved. simpl.
    repeat apply conj; [solve_preserved | solve_preserved | done | done].
Qed.

(** Update and read back.  After [UpdateNodeAttr] on a registered device
    of a well-formed registry, [GetNodeAttr] returns the given value for
    every name of the update and what it returned before for every other
    name.  The call reports a change exactly when some name did not read
    as its given value before; when it reports none, the registry is as
    before, so nothing is marked for publication. *)
Theorem UpdateNodeAttr_GetNodeAttr (Now : nat -> string) (hwID : string)
    (attrParams : NodeAttrMap) (w : World) (l : loc) :
  regWF w ->
  lookupPtr (deviceMap (regNodes w)) hwID = Some l ->
  exists changed w',
    UpdateNodeAttr Now hwID attrParams w = Done changed w' /\
    (forall k v, attrParams !! k = Some v -> GetNodeAttr hwID k w' = Done v w') /\
    (forall k, attrParams !! k = None ->
       exists v, GetNodeAttr hwID k w = Done v w /\ GetNodeAttr hwID k w' = Done v w') /\
    (changed = false <->
     forall k v, attrParams !! k = Some v -> GetNodeAttr hwID k w = Done v w) /\
    (changed = false -> regNodes w' = regNodes w).
Proof.
  intros Hwf Hl.
  destruct (regWF_registered w hwID l Hwf Hl)
    as (n & a & s & c & attr & status & config
        & Hn & Hh & HA & HS & HC & Ha & Hs & Hc).
  assert (Hnode : nodeIs w l n attr status).
  { repeat apply conj; [done | rewrite HA | rewrite HS]; by apply readStrMap_Some. }
  destruct (UpdateNodeAttr_Done Now hwID attrParams w l n attr status Hl Hnode)
    as (w' & Hrun & Hpres & Hsame & Hnew).
  destruct (mergeStep_foldl (map_to_list attrParams) (NoDup_fst_map_to_list attrParams)
              (attr, false)) as (F1 & F2 & F3 & F4).
  set (res := foldl mergeStep (attr, false) (map_to_list attrParams)) in *.
  assert (Hget : forall k, GetNodeAttr hwID k w = Done (lookupStr attr k) w).
  { intros k. by eapply GetNodeAttr_registered. }
  assert (Hget' : forall k, GetNodeAttr hwID k w' = Done (lookupStr res.1 k) w').
  { intros k. destruct res.2 eqn:Hres.
    - destruct (Hnew eq_refl) as (l' & n' & Hl' & Hnode'). rewrite Hh in Hl'.
      by eapply GetNodeAttr_registered.
    - rewrite (F3 eq_refl). simpl.
      eapply GetNodeAttr_registered; [by rewrite (Hsame eq_refl) |].
      by eapply nodeIs_preserved. }
  exists res.2, w'. split; [exact Hrun |]. repeat apply conj.
  - intros k v Hk. rewrite Hget'. f_equal. apply F1. by apply elem_of_map_to_list.
  - intros k Hk. exists (lookupStr attr k). split; [apply Hget |].
    rewrite Hget'. unfold lookupStr. rewrite F2; [done |].
    rewrite elem_of_map_to_list_fst, Hk. by intros [? ?].
  - intros Hres k v Hk. rewrite Hget. f_equal.
    apply F4 in Hres as [_ Hall]. apply Hall. by apply elem_of_map_to_list.
  - intros Hall. apply F4. split; [done |]. intros k v Hin.
    apply elem_of_map_to_list in Hin. specialize (Hall k v Hin).
    rewrite Hget in Hall. by inversion Hall.
  - exact Hsame.
Qed.

Lemma UpdateNodeAttr_GetNodeAttr_witness :
  exists changed w',
    UpdateNodeAttr exampleNow "hw1" {["firmware" := "1.2"]} world1 = Done changed w' /\
    (forall k v, ({["firmware" := "1.2"]} : NodeAttrMap) !! k = Some v ->
                 GetNodeAttr "hw1" k w' = Done v w') /\
    (forall k, ({["firmware" := "1.2"]} : NodeAttrMap) !! k = None ->
       exists v, GetNodeAttr "hw1" k world1 = Done v world1 /\
                 GetNodeAttr "hw1" k w' = Done v w') /\
    (changed = false <->
     forall k v, ({["firmware" := "1.2"]} : NodeAttrMap) !! k = Some v ->
                 GetNodeAttr "hw1" k world1 = Done v world1) /\
    (changed = false -> regNodes w' = regNodes world1).
Proof.
  apply (UpdateNodeAttr_GetNodeAttr exampleNow "hw1" {["firmware" := "1.2"]} world1
           1%positive); compute_done.
Defined.

(** ** A new handler of set commands *)

Lemma strGt_empty (s : string) : strGt "" s = false.
Proof. by destruct s. Qed.

(** A handler made by [NewInputFromSetCommands] has no subscription and
    has seen no sender: the first authenticated command of a sender is
    accepted whatever its timestamp, and a following command of the same
    sender with an earlier timestamp is rejected, the state staying as the
    first command left it and no callback being invoked. *)
Theorem NewInputFromSetCommands_first_then_earlier
    (DecodeMessage : string -> Decoded SetInputMessage)
    (regInputs : RegisteredInputs) (address first second : string) :
  let m1 := DecodeMessage first in
  let m2 := DecodeMessage second in
  let ifset := NewInputFromSetCommands regInputs in
  6 <= length (Split address slash) ->
  isEncrypted m1 = true -> isSigned m1 = true -> decodeErr m1 = None ->
  isEncrypted m2 = true -> isSigned m2 = true -> decodeErr m2 = None ->
  sm_Sender (decoded m2) = sm_Sender (decoded m1) ->
  strGt (sm_Timestamp (decoded m1)) (sm_Timestamp (decoded m2)) = true ->
  let run1 := decodeSetCommand DecodeMessage ifset address first in
  subscriptions ifset = ∅ /\
  run1.1.1 = None /\
  senderTimestamp run1.1.2 = {[sm_Sender (decoded m1) := sm_Timestamp (decoded m1)]} /\
  decodeSetCommand DecodeMessage run1.1.2 address second =
  (Some (ErrEarlierTimestamp address (sm_Sender (decoded m1))), run1.1.2, []).
Proof.
  intros m1 m2 ifset Hlen He1 Hs1 Hd1 He2 Hs2 Hd2 Hsender Hgt run1.
  assert (Hrun1 : run1 =
    (None,
     mkInputFromSetCommands {[sm_Sender (decoded m1) := sm_Timestamp (decoded m1)]}
                            regInputs ∅,
     NotifyInputHandler regInputs
       (String.concat "/" (<[5 := MessageTypeInputDiscovery]> (Split address slash)))
       (sm_Sender (decoded m1)) (sm_Value (decoded m1)))).
  { subst run1. unfold decodeSetCommand. rewrite decide_False by lia.
    fold m1. rewrite He1, Hs1, Hd1. simpl.
    unfold lookupStr. rewrite lookup_empty. simpl. by rewrite strGt_empty. }
  rewrite Hrun1. simpl. repeat apply conj; try done.
  unfold decodeSetCommand. rewrite decide_False by lia.
  fold m2. rewrite He2, Hs2, Hd2. simpl. rewrite Hsender.
  unfold lookupStr. rewrite lookup_singleton_eq. simpl. by rewrite Hgt.
Qed.

Lemma NewInputFromSetCommands_first_then_earlier_witness :
  let ifset := NewInputFromSetCommands {[exampleInputAddress := Some 7]} in
  let run1 := decodeSetCommand exampleDecodeSet ifset exampleSetAddress "first" in
  subscriptions ifset = ∅ /\
  run1.1.1 = None /\
  senderTimestamp run1.1.2 = {[exampleSender := "2020-06-01T12:00:00"]} /\
  decodeSetCommand exampleDecodeSet run1.1.2 exampleSetAddress "late" =
  (Some (ErrEarlierTimestamp exampleSetAddress exampleSender), run1.1.2, []).
Proof.
  apply (NewInputFromSetCommands_first_then_earlier exampleDecodeSet
           {[exampleInputAddress := Some 7]} exampleSetAddress "first" "late");
    compute_done.
Defined.

(** ** Configuration values: update and read back *)

(** Configure and read back.  After [UpdateNodeConfigValues] on a
    registered device of a well-formed registry, the device has the
    configurations it had; [GetNodeConfigString] returns each given
    non-empty value whose name has a configuration; a given empty value
    makes the getter fall back to the default of the configuration, then to
    that of the caller; a name without configuration is ignored, its
    attribute reading as before; and so does every name that was not
    given. *)
Theorem UpdateNodeConfigValues_GetNodeConfigString (Now : nat -> string)
    (hwID : string) (params : NodeAttrMap) (w : World)
    (config : gmap string ConfigAttr) (attr : gmap string string) :
  regWF w ->
  registeredAs w hwID config attr ->
  exists changed w' attr',
    UpdateNodeConfigValues Now hwID (Some params) w = Done changed w' /\
    registeredAs w' hwID config attr' /\
    (forall k v c dflt, params !! k = Some v -> config !! k = Some c -> v <> "" ->
       GetNodeConfigString hwID k dflt w' = Done (v, None) w') /\
    (forall k c dflt, params !! k = Some "" -> config !! k = Some c ->
       GetNodeConfigString hwID k dflt w' =
       Done (if decide (Default c ≠ "") then Default c else dflt, None) w') /\
    (forall k, config !! k = None ->
       GetNodeAttr hwID k w = Done (lookupStr attr k) w /\
       GetNodeAttr hwID k w' = Done (lookupStr attr k) w') /\
    (forall k dflt r, params !! k = None ->
       GetNodeConfigString hwID k dflt w = Done r w ->
       GetNodeConfigString hwID k dflt w' = Done r w').
Proof.
  intros Hwf Hreg. pose proof Hreg as (l & n & Hl & Hn & Hcfg & Hattr).
  destruct (regWF_registered w hwID l Hwf Hl)
    as (n0 & a & s & c & attr0 & status & config0
        & Hn0 & Hh & HA & HS & HC & Ha & Hs & Hc).
  rewrite Hn in Hn0. injection Hn0 as <-.
  assert (Hnode : nodeIs w l n attr status).
  { repeat apply conj; [done | done |]. rewrite HS. by apply readStrMap_Some. }
  destruct (UpdateNodeConfigValues_stores Now hwID params w l n attr status config
              Hl Hnode Hcfg Hh) as (changed & w' & attr' & Hrun & Hreg' & Hset & Hkeep).
  exists changed, w', attr'. split; [exact Hrun |]. split; [exact Hreg' |].
  pose proof Hreg' as (l' & n' & Hl' & Hn' & Hcfg' & Hattr').
  repeat apply conj.
  - intros k v c0 dflt Hk Hc0 Hv.
    rewrite (GetNodeConfigString_registered _ _ _ _ _ _ Hreg'), Hc0.
    rewrite (Hset k v Hk (mk_is_Some _ _ Hc0)). unfold precedence.
    by rewrite decide_True.
  - intros k c0 dflt Hk Hc0.
    rewrite (GetNodeConfigString_registered _ _ _ _ _ _ Hreg'), Hc0.
    rewrite (Hset k "" Hk (mk_is_Some _ _ Hc0)). unfold precedence.
    by rewrite decide_False by (by intros ?).
  - intros k Hk. split.
    + unfold GetNodeAttr, bind, getReg. simpl. rewrite Hl.
      rewrite (derefNode_Some _ _ _ Hn). by rewrite Hattr.
    + unfold GetNodeAttr, bind, getReg. simpl. rewrite Hl'.
      rewrite (derefNode_Some _ _ _ Hn'). rewrite Hattr'. unfold ret, lookupStr.
      by rewrite (Hkeep k (or_intror Hk)).
  - intros k dflt r Hk.
    rewrite (GetNodeConfigString_registered _ _ _ _ _ _ Hreg).
    rewrite (GetNodeConfigString_registered _ _ _ _ _ _ Hreg').
    rewrite (Hkeep k (or_introl Hk)).
    destruct (config !! k); intros [= <-]; reflexivity.
Qed.

Lemma UpdateNodeConfigValues_GetNodeConfigString_witness :
  regWF world2 /\
  exists changed w' attr',
    UpdateNodeConfigValues exampleNow "hw1" (Some {["interval" := "42"]}) world2
      = Done changed w' /\
    registeredAs w' "hw1" (default ∅ (valueOf (configOfDevice "hw1") world2)) attr' /\
    GetNodeConfigString "hw1" "interval" "" w' = Done ("42", None) w'.
Proof.
  pose (cfg := default ∅ (valueOf (configOfDevice "hw1") world2)).
  pose (att := default ∅ (valueOf (attrOfDevice "hw1") world2)).
  assert (Hwf : regWF world2) by compute_done.
  assert (R2 : registeredAs world2 "hw1" cfg att).
  { exists 2%positive, (default (mkNode "" None None "" "" "" None "")
                          (valueOf (derefNode (Some 2%positive)) world2)).
    repeat apply conj; compute_done. }
  split; [exact Hwf |].
  destruct (UpdateNodeConfigValues_GetNodeConfigString exampleNow "hw1"
              {["interval" := "42"]} world2 cfg att Hwf R2)
    as (changed & w' & attr' & Hrun & Hreg' & Hset & _).
  exists changed, w', attr'. split; [exact Hrun |]. split; [exact Hreg' |].
  assert (Hc : is_Some (cfg !! "interval")) by compute_done.
  destruct Hc as (c & Hc).
  apply (Hset "interval" "42" c ""); [reflexivity | exact Hc | discriminate].
Defined.

(** ** The error status of a device *)

Ltac read_status Hh :=
  unfold statusOfDevice;
  erewrite bind_Done; [| apply GetNodeByHWID_eq];
  unfold lookupPtr; simpl; rewrite ?Hh, ?lookup_insert_eq; simpl;
  unfold statusOf;
  erewrite bind_Done; [| eapply derefNode_Some; heap_lookup];
  simpl; apply readStrMap_Some; heap_lookup.

(** [UpdateErrorStatus] on a registered device of a well-formed registry:
    afterwards the status of the device reads the given error message and
    run state, every other status name reading as before.  The call
    reports a change exactly when one of the two differed from the given
    value; when it reports none the registry is as before, so nothing is
    marked for publication. *)
Theorem UpdateErrorStatus_sets_status (Now : nat -> string)
    (hwID runState errorMsg : string) (w : World) (l : loc)
    (status : gmap string string) :
  regWF w ->
  lookupPtr (deviceMap (regNodes w)) hwID = Some l ->
  statusOfDevice hwID w = Done status w ->
  exists changed w' status',
    UpdateErrorStatus Now hwID runState errorMsg w = Done changed w' /\
    statusOfDevice hwID w' = Done status' w' /\
    lookupStr status' NodeStatusLastError = errorMsg /\
    lookupStr status' NodeStatusRunState = runState /\
    (forall k, k <> NodeStatusLastError -> k <> NodeStatusRunState ->
               status' !! k = status !! k) /\
    (changed = false <->
     lookupStr status NodeStatusLastError = errorMsg /\
     lookupStr status NodeStatusRunState = runState) /\
    (changed = false -> regNodes w' = regNodes w).
Proof.
  intros Hwf Hl Hstatus.
  registered_facts Hwf Hl n attr status0 config c0.
  assert (status0 = status) as ->.
  { revert Hstatus. unfold statusOfDevice.
    erewrite bind_Done; [| apply GetNodeByHWID_eq]. rewrite Hl. unfold statusOf.
    erewrite bind_Done; [| by eapply derefNode_Some]. rewrite Hs. by intros [= ->]. }
  assert (Hne : NodeStatusLastError <> NodeStatusRunState) by done.
  unfold UpdateErrorStatus.
  rewrite (bind_Done _ _ _ _ _ (GetNodeByHWID_eq hwID w)). rewrite Hl.
  assert (Hst : forall w2, strMapHeap w ⊆ strMapHeap w2 ->
                           readStrMap (Status n) w2 = Done status w2).
  { intros w2 Hsub. by eapply readStrMap_ext. }
  run_Clone Hn Ha Hs a s l'.
  erewrite bind_Done; [| eapply derefNode_Some; simpl; by eapply lookup_weaken;
                         [exact Hn | solve_preserved]].
  run derefNode_Some.
  erewrite bind_Done; [| apply Hst; simpl; solve_preserved].
  destruct (decide (lookupStr status NodeStatusLastError ≠ errorMsg)) as [He | He];
    [| apply dec_stable in He].
  - rewrite !bind_assoc. run readStrMap_Some. run writeStrMap_Some. rewrite bind_ret.
    erewrite bind_Done; [| apply Hst; simpl; solve_preserved].
    destruct (decide (lookupStr status NodeStatusRunState ≠ runState)) as [Hr | Hr];
      [| apply dec_stable in Hr].
    + rewrite !bind_assoc. run readStrMap_Some. run writeStrMap_Some. rewrite bind_ret.
      run updateNode_Done. eexists _, _, _. split; [reflexivity |].
      split; [read_status Hh |]. unfold lookupStr.
      split; [by rewrite lookup_insert_ne, lookup_insert_eq |].
      split; [by rewrite lookup_insert_eq |].
      split; [intros k Hk1 Hk2; by rewrite !lookup_insert_ne |].
      split; [split; [done | by intros [? _]] | done].
    + rewrite bind_ret. run updateNode_Done. eexists _, _, _. split; [reflexivity |].
      split; [read_status Hh |]. unfold lookupStr.
      split; [by rewrite lookup_insert_eq |].
      split; [by rewrite lookup_insert_ne |].
      split; [intros k Hk1 Hk2; by rewrite !lookup_insert_ne |].
      split; [split; [done | by intros [? _]] | done].
  - rewrite bind_ret. erewrite bind_Done; [| apply Hst; simpl; solve_preserved].
    destruct (decide (lookupStr status NodeStatusRunState ≠ runState)) as [Hr | Hr];
      [| apply dec_stable in Hr].
    + rewrite !bind_assoc. run readStrMap_Some. run writeStrMap_Some. rewrite bind_ret.
      run updateNode_Done. eexists _, _, _. split; [reflexivity |].
      split; [read_status Hh |]. unfold lookupStr.
      split; [by rewrite lookup_insert_ne |].
      split; [by rewrite lookup_insert_eq |].
      split; [intros k Hk1 Hk2; by rewrite !lookup_insert_ne |].
      split; [split; [done | by intros [_ ?]] | done].
    + rewrite bind_ret. rewrite bind_ret. eexists _, _, _. split; [reflexivity |].
      split; [unfold statusOfDevice;
              erewrite bind_Done; [| apply GetNodeByHWID_eq]; simpl; rewrite Hl;
              unfold statusOf;
              erewrite bind_Done;
                [| eapply derefNode_Some; simpl; by eapply lookup_weaken;
                   [exact Hn | solve_preserved]];
              apply Hst; simpl; solve_preserved |].
      done.
Qed.

Lemma UpdateErrorStatus_sets_status_witness :
  exists changed w' status',
    UpdateErrorStatus exampleNow "hw1" "error" "no response" world1 = Done changed w' /\
    statusOfDevice "hw1" w' = Done status' w' /\
    lookupStr status' NodeStatusLastError = "no response" /\
    lookupStr status' NodeStatusRunState = "error" /\
    (forall k, k <> NodeStatusLastError -> k <> NodeStatusRunState ->
               status' !! k = (∅ : gmap string string) !! k) /\
    (changed = false <->
     lookupStr (∅ : gmap string string) NodeStatusLastError = "no response" /\
     lookupStr (∅ : gmap string string) NodeStatusRunState = "error") /\
    (changed = false -> regNodes w' = regNodes world1).
Proof.
  apply (UpdateErrorStatus_sets_status exampleNow "hw1" "error" "no response" world1
           1%positive ∅); compute_done.
Defined.

(** ** Renaming a node *)

(** A successful [SetNodeID].  When the new nodeID is empty, or not in use,
    or the hardware ID of the node, the call returns [true]; the node it
    registers is a new one, the old struct staying as it was; the new node
    carries the new nodeID (the hardware ID when the new nodeID is empty),
    the hardware ID of the old one and the discovery address made from the
    new nodeID; it is found under the new nodeID and under the hardware
    ID, and is marked as updated under its new address; the old nodeID,
    when it differs, leads to [nil]. *)
Theorem SetNodeID_renames (Now : nat -> string) (w : World) (l : loc)
    (n : NodeDiscoveryMessage) (attr status : gmap string string)
    (newNodeID : string) :
  nodeIs w l n attr status ->
  newNodeID = "" \/ lookupPtr (nodeMap (regNodes w)) newNodeID = None
    \/ newNodeID = HWID n ->
  let target := if decide (newNodeID = "") then HWID n else newNodeID in
  exists l' w' n',
    SetNodeID Now (Some l) newNodeID w = Done true w' /\
    nodeHeap w !! l' = None /\
    nodeHeap w' !! l = Some n /\
    nodeHeap w' !! l' = Some n' /\
    NodeID n' = target /\ HWID n' = HWID n /\ Config n' = Config n /\
    Address n' =
      MakeNodeDiscoveryAddress (domain (regNodes w)) (publisherID (regNodes w)) target /\
    attrOf (Some l') w' = Done attr w' /\
    statusOf (Some l') w' = Done status w' /\
    GetNodeByNodeID target w' = Done (Some l') w' /\
    GetNodeByHWID (HWID n) w' = Done (Some l') w' /\
    (updatedNodes (regNodes w') ≫= fun um => um !! Address n') = Some (Some l') /\
    (NodeID n <> target -> nodeMap (regNodes w') !! NodeID n = Some None).
Proof.
  intros (Hn & Ha & Hs) Hfree target. unfold SetNodeID.
  run_Clone Hn Ha Hs a s l'.
  erewrite bind_Done; [| eapply derefNode_Some; simpl; by eapply lookup_weaken;
                         [exact Hn | solve_preserved]].
  assert (Hl : l <> l') by (intros ->; congruence).
  assert (Hrename : forall newID, exists w' n',
    (nn <- derefNode (Some l') ;;
     storeNode (Some l') (mkNode (Address nn) (Attr nn) (Config nn) (HWID nn) newID
                                 (PublisherID nn) (Status nn) (Timestamp nn)) ;;;
     r <- getReg ;;
     putReg (mkRegisteredNodes (domain r) (publisherID r) (deviceMap r)
               (<[NodeID n := None]> (nodeMap r))
               (Some (<[NodeID n := None]> (default ∅ (updatedNodes r))))) ;;;
     nn <- derefNode (Some l') ;;
     r <- getReg ;;
     storeNode (Some l')
       (mkNode (MakeNodeDiscoveryAddress (domain r) (publisherID r) (NodeID nn))
               (Attr nn) (Config nn) (HWID nn) (NodeID nn)
               (PublisherID nn) (Status nn) (Timestamp nn)) ;;;
     updateNode Now (Some l') ;;;
     ret true)
      (mkWorld
         (<[l' := mkNode (Address n) (Some a) (Config n) (HWID n) (NodeID n)
                         (PublisherID n) (Some s) (Timestamp n)]> (nodeHeap w))
         (<[s := status]> (<[a := attr]> (strMapHeap w)))
         (cfgMapHeap w) (regNodes w) (ticks w))
    = Done true w' /\
    nodeHeap w' !! l = Some n /\
    nodeHeap w' !! l' = Some n' /\
    NodeID n' = newID /\ HWID n' = HWID n /\ Config n' = Config n /\
    Address n' =
      MakeNodeDiscoveryAddress (domain (regNodes w)) (publisherID (regNodes w)) newID /\
    attrOf (Some l') w' = Done attr w' /\
    statusOf (Some l') w' = Done status w' /\
    GetNodeByNodeID newID w' = Done (Some l') w' /\
    GetNodeByHWID (HWID n) w' = Done (Some l') w' /\
    (updatedNodes (regNodes w') ≫= fun um => um !! Address n') = Some (Some l') /\
    (NodeID n <> newID -> nodeMap (regNodes w') !! NodeID n = Some None)).
  { intros newID.
    run derefNode_Some. run storeNode_Some.
    erewrite bind_Done; [| reflexivity]. simpl.
    erewrite bind_Done; [| reflexivity]. simpl.
    run derefNode_Some.
    erewrite bind_Done; [| reflexivity]. simpl.
    run storeNode_Some. run updateNode_Done. unfold ret.
    eexists _, _. split; [reflexivity |]. simpl.
    split; [by rewrite !lookup_insert_ne by done |].
    split; [by rewrite lookup_insert_eq |]. simpl.
    repeat apply conj; try reflexivity.
    - unfold attrOf. erewrite bind_Done; [| eapply derefNode_Some; heap_lookup].
      simpl. apply readStrMap_Some. heap_lookup.
    - unfold statusOf. erewrite bind_Done; [| eapply derefNode_Some; heap_lookup].
      simpl. apply readStrMap_Some. heap_lookup.
    - rewrite GetNodeByNodeID_eq. unfold lookupPtr. simpl.
      by rewrite lookup_insert_eq.
    - rewrite GetNodeByHWID_eq. unfold lookupPtr. simpl.
      by rewrite lookup_insert_eq.
    - by rewrite lookup_insert_eq.
    - intros Hdiff. rewrite lookup_insert_ne by done. by rewrite lookup_insert_eq. }
  subst target. destruct (decide (newNodeID = "")) as [-> | Hnonempty].
  - destruct (Hrename (HWID n)) as (w' & n' & Hrun & H). by exists l', w', n'.
  - erewrite bind_Done; [| apply GetNodeByNodeID_eq]. simpl.
    rewrite decide_False.
    + destruct (Hrename newNodeID) as (w' & n' & Hrun & H). by exists l', w', n'.
    + intros [Hin Hhw]. destruct Hfree as [? | [Hnone | ?]]; done.
Qed.

Lemma SetNodeID_renames_witness :
  exists l' w' n',
    SetNodeID exampleNow (Some 1%positive) "alias" world1 = Done true w' /\
    nodeHeap world1 !! l' = None /\
    nodeHeap w' !! 1%positive
      = Some (mkNode "dom/pub/hw1/$node" (Some 1%positive) (Some 1%positive) "hw1" "hw1"
                     "pub" (Some 2%positive) "2020-06-01T12:00:01") /\
    nodeHeap w' !! l' = Some n' /\
    NodeID n' = "alias" /\ HWID n' = "hw1" /\ Config n' = Some 1%positive /\
    Address n' = MakeNodeDiscoveryAddress "dom" "pub" "alias" /\
    attrOf (Some l') w' = Done {["type" := "sensor"]} w' /\
    statusOf (Some l') w' = Done ∅ w' /\
    GetNodeByNodeID "alias" w' = Done (Some l') w' /\
    GetNodeByHWID "hw1" w' = Done (Some l') w' /\
    (updatedNodes (regNodes w') ≫= fun um => um !! Address n') = Some (Some l') /\
    ("hw1" <> "alias" -> nodeMap (regNodes w') !! "hw1" = Some None).
Proof.
  apply (SetNodeID_renames exampleNow world1 1%positive
           (mkNode "dom/pub/hw1/$node" (Some 1%positive) (Some 1%positive) "hw1" "hw1"
                   "pub" (Some 2%positive) "2020-06-01T12:00:01")
           {["type" := "sensor"]} ∅ "alias").
  - repeat apply conj; compute_done.
  - right. left. compute_done.
Defined.

(** ** Discovery of publishers: what a message can change *)

Section Discovery.

Variable publisherDomain : string.
Variable signMessages : bool.
Variable ParseSigned : string -> option string.
Variable Unmarshal : string -> option (option PublisherIdentityMessage).
Variable Marshal : option PublisherIdentityMessage -> option string.
Variable URLEncode : string -> string.
Variable VerifyEcdsaSignature : string -> string -> string -> bool.
Variable UpdateNilPublisher : DomainPublishers -> option DomainPublishers.

Local Abbreviation discover :=
  (handlePublisherDiscovery publisherDomain signMessages ParseSigned
     Unmarshal Marshal URLEncode VerifyEcdsaSignature UpdateNilPublisher).
Local Abbreviation domainDSS :=
  (MakePublisherIdentityAddress publisherDomain DSSPublisherID).
Local Abbreviation decodedAs := (unmarshalled signMessages ParseSigned Unmarshal).

(** What one discovery message can do, whatever the directory holds, by
    what the message decodes to.  A message that fails the signing policy
    or does not parse is rejected and stores nothing.  A message that
    holds an identity record never makes the handler panic: the handler
    returns, the directory being left as it was or given the record,
    stored under the address the record itself carries, every other entry
    staying as it was; the record is stored whenever no error is returned;
    and while no DSS is known, a record received on an address other than
    that of the DSS is stored without any verification.  A payload that
    holds no record (the JSON value [null]) makes the handler panic on the
    address of the DSS; on another address it makes it panic or return
    the missing-identity error, nothing being stored, when a DSS is known,
    and is handed to the directory as a [nil] record when none is. *)
Theorem handlePublisherDiscovery_stores_announced_only
    (pubs : DomainPublishers) (address message : string) :
  let run := discover pubs address message in
  (decodedAs message = None -> exists e, run = Returns (Some e) pubs) /\
  (forall pub, decodedAs message = Some (Some pub) ->
     exists e pubs',
       run = Returns e pubs' /\
       (pubs' = pubs \/ pubs' = UpdatePublisher pubs pub) /\
       (e = None -> pubs' = UpdatePublisher pubs pub) /\
       (forall k, k <> pi_Address pub -> pubs' !! k = pubs !! k) /\
       (GetPublisherKey pubs domainDSS = None -> address <> domainDSS ->
        run = Returns None (UpdatePublisher pubs pub))) /\
  (decodedAs message = Some None ->
     (address = domainDSS -> run = Panics) /\
     (address <> domainDSS -> is_Some (GetPublisherKey pubs domainDSS) ->
      run = match Marshal None with
            | Some _ => Panics
            | None => Returns (Some (ErrMissingIdentity address)) pubs
            end) /\
     (address <> domainDSS -> GetPublisherKey pubs domainDSS = None ->
      run = match UpdateNilPublisher pubs with
            | Some pubs' => Returns None pubs'
            | None => Panics
            end)).
Proof.
  intros run. subst run.
  unfold unmarshalled, handlePublisherDiscovery.
  split; [| split].
  - destruct (ParseSigned message) as [payload|].
    + intros ->. eauto.
    + destruct signMessages; [eauto |]. intros ->. eauto.
  - intros pub Hpub.
    assert (Hpayload : exists payload,
              match ParseSigned message with
              | Some p => Some p
              | None => if signMessages then None else Some message
              end = Some payload /\ Unmarshal payload = Some (Some pub)).
    { destruct (ParseSigned message) as [payload|]; [eauto |].
      destruct signMessages; [done | eauto]. }
    destruct Hpayload as (payload & -> & ->).
    unfold handleDSSDiscovery, callUpdatePublisher.
    assert (Hidem : UpdatePublisher (UpdatePublisher pubs pub) pub
                    = UpdatePublisher pubs pub).
    { unfold UpdatePublisher. apply insert_insert_eq. }
    assert (Hframe : forall k, k <> pi_Address pub ->
                               UpdatePublisher pubs pub !! k = pubs !! k).
    { intros k Hk. unfold UpdatePublisher. apply lookup_insert_ne. congruence. }
    destruct (decide (address = domainDSS)) as [Hdss | Hdss].
    + destruct (GetPublisherKey (UpdatePublisher pubs pub) domainDSS) as [key|].
      * destruct (Marshal (Some pub)) as [json|]; simpl.
        -- destruct (VerifyEcdsaSignature _ _ _); simpl; rewrite ?Hidem;
             eexists _, _; (split; [reflexivity |]);
             repeat apply conj; auto; done.
        -- eexists _, _; (split; [reflexivity |]); repeat apply conj; auto; done.
      * simpl. rewrite Hidem.
        eexists _, _; (split; [reflexivity |]); repeat apply conj; auto; done.
    + destruct (GetPublisherKey pubs domainDSS) as [key|] eqn:Hkey.
      * destruct (Marshal (Some pub)) as [json|]; simpl.
        -- destruct (VerifyEcdsaSignature _ _ _); simpl;
             eexists _, _; (split; [reflexivity |]);
             repeat apply conj; auto; done.
        -- eexists _, _; (split; [reflexivity |]); repeat apply conj; auto; done.
      * simpl. eexists _, _; (split; [reflexivity |]); repeat apply conj; auto; done.
  - intros Hnil.
    assert (Hpayload : exists payload,
              match ParseSigned message with
              | Some p => Some p
              | None => if signMessages then None else Some message
              end = Some payload /\ Unmarshal payload = Some None).
    { destruct (ParseSigned message) as [payload|]; [eauto |].
      destruct signMessages; [done | eauto]. }
    destruct Hpayload as (payload & -> & ->).
    unfold handleDSSDiscovery, callUpdatePublisher.
    split; [| split].
    + intros Hdss. rewrite decide_True by done.
      by destruct (UpdateNilPublisher pubs).
    + intros Hdss [key Hkey]. rewrite decide_False by done. by rewrite Hkey.
    + intros Hdss Hkey. rewrite decide_False by done. rewrite Hkey.
      by destruct (UpdateNilPublisher pubs).
Qed.

End Discovery.

Lemma handlePublisherDiscovery_stores_announced_only_witness :
  let p2 := mkPublisherIdentityMessage "dom/p2/$identity" "p2-key" "" in
  (exists e pubs',
     toyHandlePublisherDiscovery ∅ "dom/p2/$identity" "dom/p2/$identity|p2-key|"
       = Returns e pubs' /\
     (pubs' = ∅ \/ pubs' = UpdatePublisher ∅ p2) /\
     (e = None -> pubs' = UpdatePublisher ∅ p2) /\
     (forall k, k <> pi_Address p2 -> pubs' !! k = (∅ : DomainPublishers) !! k) /\
     (GetPublisherKey ∅ dssAddress = None -> "dom/p2/$identity" <> dssAddress ->
      toyHandlePublisherDiscovery ∅ "dom/p2/$identity" "dom/p2/$identity|p2-key|"
        = Returns None (UpdatePublisher ∅ p2))) /\
  toyHandlePublisherDiscovery pubsWithDSS "dom/p2/$identity" "null" = Panics.
Proof.
  intros p2. split.
  - apply (handlePublisherDiscovery_stores_announced_only "dom" false toyParseSigned
             toyUnmarshal toyMarshal (fun s => s) toyVerify (fun _ => None) ∅
             "dom/p2/$identity" "dom/p2/$identity|p2-key|").
    compute_done.
  - destruct (handlePublisherDiscovery_stores_announced_only "dom" false toyParseSigned
                toyUnmarshal toyMarshal (fun s => s) toyVerify (fun _ => None)
                pubsWithDSS "dom/p2/$identity" "null") as (_ & _ & H).
    destruct H as (_ & H & _); [compute_done |].
    apply H; compute_done.
Defined.

(** ** Nodes read from storage *)

Lemma fieldKept_valid {V} (h h' : gmap loc V) r r' :
  allocMono h h' -> fieldKept h' r r' -> fieldValid h r -> fieldValid h' r'.
Proof.
  intros Hmono Hkept Hvalid. destruct r as [a|]; simpl in *; [| done].
  subst r'. simpl. by apply Hmono.
Qed.

Lemma fieldKept_allocated {V} (h h' : gmap loc V) r r' :
  allocMono h h' -> fieldKept h' r r' ->
  is_Some (r ≫= fun a => h !! a) -> is_Some (r' ≫= fun a => h' !! a).
Proof.
  intros Hmono Hkept Halloc. destruct r as [a|]; simpl in *.
  - subst r'. simpl. by apply Hmono.
  - by apply is_Some_None in Halloc.
Qed.

Lemma fieldKept_trans {V} (h' h'' : gmap loc V) r r' r'' :
  allocMono h' h'' -> fieldKept h' r r' -> fieldKept h'' r' r'' -> fieldKept h'' r r''.
Proof.
  intros Hmono H1 H2. destruct r as [a|]; simpl in *.
  - subst r'. exact H2.
  - destruct r' as [a'|]; simpl in *; [| done]. subst r''. simpl. by apply Hmono.
Qed.

Lemma backfilled_refl w : backfilled w w.
Proof.
  unfold backfilled. split; [by intros ? ? | split; [by intros ? ? |]].
  intros l n Hn. exists n. repeat apply conj; try done.
  - by destruct (Attr n).
  - by destruct (Status n).
  - by destruct (Config n).
Qed.

Lemma backfilled_trans w1 w2 w3 :
  backfilled w1 w2 -> backfilled w2 w3 -> backfilled w1 w3.
Proof.
  intros (Hs1 & Hc1 & H1) (Hs2 & Hc2 & H2). unfold backfilled.
  repeat apply conj.
  - intros l Hl. by apply Hs2, Hs1.
  - intros l Hl. by apply Hc2, Hc1.
  - intros l n Hn.
    destruct (H1 l n Hn) as (n' & Hn' & Hh & Hi & Had & Ha & Hst & Hc).
    destruct (H2 l n' Hn') as (n'' & Hn'' & Hh' & Hi' & Had' & Ha' & Hst' & Hc').
    exists n''. repeat apply conj; try congruence.
    + by eapply fieldKept_trans.
    + by eapply fieldKept_trans.
    + by eapply fieldKept_trans.
Qed.

Lemma backfilled_mapsAllocated w w' l n n' :
  backfilled w w' -> nodeHeap w !! l = Some n -> nodeHeap w' !! l = Some n' ->
  mapsAllocated (strMapHeap w) (cfgMapHeap w) n ->
  mapsAllocated (strMapHeap w') (cfgMapHeap w') n'.
Proof.
  intros (Hs & Hc & H) Hn Hn' (Ha & Hst & Hcf).
  destruct (H l n Hn) as (n0 & Hn0 & _ & _ & _ & Ka & Kst & Kc).
  rewrite Hn' in Hn0. injection Hn0 as <-.
  repeat apply conj; by eapply fieldKept_allocated.
Qed.

Lemma backfilled_entryOK w w' field k p :
  (forall l n n', nodeHeap w !! l = Some n -> nodeHeap w' !! l = Some n' ->
                  field n' = field n) ->
  backfilled w w' ->
  entryOK (nodeHeap w) (strMapHeap w) (cfgMapHeap w) field k p ->
  entryOK (nodeHeap w') (strMapHeap w') (cfgMapHeap w') field k p.
Proof.
  intros Hfield Hback. unfold entryOK. destruct p as [l|]; [| done].
  destruct (nodeHeap w !! l) as [n|] eqn:Hn; [| done].
  pose proof Hback as (_ & _ & H).
  destruct (H l n Hn) as (n' & Hn' & _). rewrite Hn'.
  intros [Hk Halloc]. split.
  - by rewrite (Hfield l n n' Hn Hn').
  - by eapply backfilled_mapsAllocated.
Qed.

Lemma backfilled_wfParts w w' dm nm um :
  backfilled w w' ->
  wfParts (nodeHeap w) (strMapHeap w) (cfgMapHeap w) dm nm um ->
  wfParts (nodeHeap w') (strMapHeap w') (cfgMapHeap w') dm nm um.
Proof.
  intros Hback (Hd & Hn & Hu).
  assert (Hids : forall l n n', nodeHeap w !! l = Some n -> nodeHeap w' !! l = Some n' ->
                   HWID n' = HWID n /\ NodeID n' = NodeID n /\ Address n' = Address n).
  { intros l n n' Hl Hl'. pose proof Hback as (_ & _ & H).
    destruct (H l n Hl) as (n0 & Hn0 & ? & ? & ? & _).
    rewrite Hl' in Hn0. by injection Hn0 as <-. }
  unfold wfParts. repeat apply conj.
  - intros k p Hk. eapply backfilled_entryOK; [| exact Hback | by apply Hd].
    intros l n n' Hl Hl'. by destruct (Hids l n n' Hl Hl') as (? & ? & ?).
  - intros k p Hk. eapply backfilled_entryOK; [| exact Hback | by apply Hn].
    intros l n n' Hl Hl'. by destruct (Hids l n n' Hl Hl') as (? & ? & ?).
  - intros k p Hk. eapply backfilled_entryOK; [| exact Hback | by apply Hu].
    intros l n n' Hl Hl'. by destruct (Hids l n n' Hl Hl') as (? & ? & ?).
Qed.

Lemma backfilled_loaded w w' node :
  backfilled w w' -> loaded w node -> loaded w' node.
Proof.
  intros (Hs & Hc & H). unfold loaded. destruct node as [l|]; [| done].
  destruct (nodeHeap w !! l) as [n|] eqn:Hn; [| done].
  destruct (H l n Hn) as (n' & -> & _ & _ & _ & Ka & Kst & Kc).
  intros (Va & Vst & Vc). repeat apply conj; by eapply fieldKept_valid.
Qed.

Lemma backfilled_usable w w' node :
  backfilled w w' -> usable w node -> usable w' node.
Proof.
  intros Hback. unfold usable. destruct node as [l|]; [| done].
  destruct (nodeHeap w !! l) as [n|] eqn:Hn; [| done].
  pose proof Hback as (_ & _ & H).
  destruct (H l n Hn) as (n' & Hn' & _). rewrite Hn'.
  by eapply backfilled_mapsAllocated.
Qed.

Lemma fieldKept_refl {V} (h : gmap loc V) r : fieldKept h r r.
Proof. by destruct r. Qed.

Ltac step_load :=
  first [ run derefNode_Some
        | run storeNode_Some
        | rewrite ?bind_assoc; erewrite bind_Done; [| reflexivity]; simpl ].

(** The body of the loop of [UpdateNodes] on a loaded node. *)
Lemma updateLoadedNode_Done Now l w n :
  nodeHeap w !! l = Some n -> loaded w (Some l) ->
  exists w' n',
    updateLoadedNode Now (Some l) w = Done tt w' /\
    backfilled w w' /\
    nodeHeap w' !! l = Some n' /\
    mapsAllocated (strMapHeap w') (cfgMapHeap w') n' /\
    regNodes w' =
      mkRegisteredNodes (domain (regNodes w)) (publisherID (regNodes w))
        (<[HWID n := Some l]> (deviceMap (regNodes w)))
        (<[NodeID n := Some l]> (nodeMap (regNodes w)))
        (Some (<[Address n := Some l]> (default ∅ (updatedNodes (regNodes w))))).
Proof.
  intros Hn Hload. unfold loaded in Hload. rewrite Hn in Hload.
  destruct Hload as (Va & Vs & Vc). unfold updateLoadedNode.
  run derefNode_Some.
  destruct (Attr n) as [a|] eqn:HA, (Config n) as [c|] eqn:HC, (Status n) as [s|] eqn:HS.
  all: repeat step_load.
  all: rewrite ?HA, ?HC, ?HS.
  all: repeat step_load.
  all: rewrite ?HA, ?HC, ?HS.
  all: repeat step_load.
  all: simpl.
  all: erewrite updateNode_Done; [| heap_lookup ..].
  all: eexists _, _; (split; [reflexivity |]); simpl.
  all: simpl in Va, Vs, Vc.
  all: split;
    [ unfold backfilled; simpl; (split; [solve_alloc | split; [solve_alloc |]]);
      intros l0 n0 Hn0; destruct (decide (l0 = l)) as [-> | Hne];
      [ rewrite ?lookup_insert_eq; eexists; (split; [reflexivity |]);
        rewrite Hn in Hn0; injection Hn0 as <-; simpl; rewrite ?HA, ?HC, ?HS; simpl;
        repeat apply conj; try done; solve_is_Some
      | rewrite !lookup_insert_ne by done; exists n0; (split; [done |]);
        repeat apply conj; try done; apply fieldKept_refl ]
    | split; [apply lookup_insert_eq | split; [| reflexivity]];
      unfold mapsAllocated; simpl; rewrite ?HA, ?HC, ?HS; simpl;
      repeat apply conj; solve_is_Some ].
Qed.

Lemma UpdateNodes_Done Now updates :
  forall w, regWF w -> Forall (loaded w) updates ->
  exists w',
    UpdateNodes Now updates w = Done tt w' /\
    regWF w' /\ backfilled w w' /\
    Forall (usable w') updates /\
    (forall h, lookupPtr (deviceMap (regNodes w)) h <> None ->
               lookupPtr (deviceMap (regNodes w')) h <> None) /\
    (forall l n, Some l ∈ updates -> nodeHeap w !! l = Some n ->
                 lookupPtr (deviceMap (regNodes w')) (HWID n) <> None).
Proof.
  induction updates as [| node rest IH]; intros w Hwf Hload.
  - exists w. simpl. split; [done |]. split; [done |].
    split; [apply backfilled_refl |]. split; [done |]. split; [done |].
    intros l n Hin. by apply elem_of_nil in Hin.
  - apply Forall_cons in Hload as [Hnode Hrest]. simpl.
    destruct node as [l|].
    + pose proof Hnode as Hnode'. unfold loaded in Hnode'.
      destruct (nodeHeap w !! l) as [n|] eqn:Hn; [| done]. clear Hnode'.
      destruct (updateLoadedNode_Done Now l w n Hn Hnode)
        as (w1 & n1 & Hrun1 & Hback1 & Hn1 & Halloc1 & Hreg1).
      assert (Hids : HWID n1 = HWID n /\ NodeID n1 = NodeID n /\ Address n1 = Address n).
      { pose proof Hback1 as (_ & _ & H).
        destruct (H l n Hn) as (n0 & Hn0 & ? & ? & ? & _).
        rewrite Hn1 in Hn0. by injection Hn0 as <-. }
      destruct Hids as (Hh & Hi & Had).
      assert (Hwf1 : regWF w1).
      { unfold regWF. rewrite Hreg1. simpl.
        eapply wfParts_register; [| exact Hn1 | exact Hh | exact Hi | exact Had | done].
        exact (backfilled_wfParts w w1 _ _ _ Hback1 Hwf). }
      destruct (IH w1 Hwf1) as (w' & Hrun & Hwf' & Hback & Huse & Hmono & Hreg).
      { eapply Forall_impl; [exact Hrest |]. intros r. by apply backfilled_loaded. }
      exists w'. unfold bind at 1. rewrite Hrun1.
      split; [exact Hrun |]. split; [exact Hwf' |].
      split; [by eapply backfilled_trans |].
      assert (Hhere : lookupPtr (deviceMap (regNodes w')) (HWID n) <> None).
      { apply Hmono. rewrite Hreg1. unfold lookupPtr. simpl.
        by rewrite lookup_insert_eq. }
      repeat apply conj.
      * apply Forall_cons. split; [| exact Huse].
        eapply backfilled_usable; [exact Hback |]. unfold usable. by rewrite Hn1.
      * intros h Hh0. apply Hmono. rewrite Hreg1. unfold lookupPtr. simpl.
        destruct (decide (HWID n = h)) as [-> | Hne];
          [by rewrite lookup_insert_eq | by rewrite lookup_insert_ne].
      * intros l0 n0 Hin Hn0. apply elem_of_cons in Hin as [[= ->] | Hin].
        -- rewrite Hn in Hn0. by injection Hn0 as <-.
        -- pose proof Hback1 as (_ & _ & H).
           destruct (H l0 n0 Hn0) as (n0' & Hn0' & <- & _).
           by eapply Hreg.
    + destruct (IH w Hwf Hrest) as (w' & Hrun & Hwf' & Hback & Huse & Hmono & Hreg).
      exists w'. unfold bind at 1. unfold ret at 1.
      split; [exact Hrun |]. split; [exact Hwf' |]. split; [exact Hback |].
      split; [by apply Forall_cons |]. split; [exact Hmono |].
      intros l0 n0 Hin Hn0. apply elem_of_cons in Hin as [[=] | Hin].
      by eapply Hreg.
Qed.

(** Registering nodes read from storage.  In a well-formed registry
    [UpdateNodes] takes any list of loaded nodes, [nil] entries and nodes
    with [nil] maps included, and never panics; afterwards the registry is
    well formed, so every getter and update method runs on it, every
    pointer of the list leads to a node whose three maps exist, the
    hardware id of every node of the list is registered, and every
    hardware id that was registered still is. *)
Theorem UpdateNodes_registers_loaded (Now : nat -> string) (updates : list ref)
    (w : World) :
  regWF w -> Forall (loaded w) updates ->
  exists w',
    UpdateNodes Now updates w = Done tt w' /\
    regWF w' /\
    Forall (usable w') updates /\
    (forall l n, Some l ∈ updates -> nodeHeap w !! l = Some n ->
       exists l', GetNodeByHWID (HWID n) w' = Done (Some l') w') /\
    (forall h l0, GetNodeByHWID h w = Done (Some l0) w ->
       exists l', GetNodeByHWID h w' = Done (Some l') w').
Proof.
  intros Hwf Hload.
  destruct (UpdateNodes_Done Now updates w Hwf Hload)
    as (w' & Hrun & Hwf' & _ & Huse & Hmono & Hreg).
  exists w'. split; [exact Hrun |]. split; [exact Hwf' |]. split; [exact Huse |].
  split.
  - intros l n Hin Hn. rewrite GetNodeByHWID_eq.
    specialize (Hreg l n Hin Hn).
    destruct (lookupPtr (deviceMap (regNodes w')) (HWID n)) as [l'|]; [eauto | done].
  - intros h l0. rewrite !GetNodeByHWID_eq. intros [= Hl0].
    assert (Hh : lookupPtr (deviceMap (regNodes w)) h <> None) by by rewrite Hl0.
    apply Hmono in Hh.
    destruct (lookupPtr (deviceMap (regNodes w')) h) as [l'|]; [eauto | done].
Qed.

Lemma UpdateNodes_registers_loaded_witness :
  exists w',
    UpdateNodes exampleNow [Some 1%positive; None] worldLoaded = Done tt w' /\
    regWF w' /\
    Forall (usable w') [Some 1%positive; None] /\
    (forall l n, Some l ∈ [Some 1%positive; None] -> nodeHeap worldLoaded !! l = Some n ->
       exists l', GetNodeByHWID (HWID n) w' = Done (Some l') w') /\
    (forall h l0, GetNodeByHWID h worldLoaded = Done (Some l0) worldLoaded ->
       exists l', GetNodeByHWID h w' = Done (Some l') w').
Proof.
  apply (UpdateNodes_registers_loaded exampleNow [Some 1%positive; None] worldLoaded);
    compute_done.
Defined.

(** ** Nodes a caller holds *)

Lemma storePreserved_sameView w w' :
  storePreserved w w' -> cfgMapHeap w' = cfgMapHeap w -> sameView w w'.
Proof.
  intros [Hnh Hsh] Hch p n attr status config Hderef Hattr Hstatus Hconfig.
  apply derefNode_Done in Hderef as (_ & l & -> & Hn).
  pose proof (lookup_weaken _ _ _ _ Hn Hnh) as Hn'.
  unfold attrOf, statusOf, configOf in *.
  rewrite (bind_Done _ _ _ _ _ (derefNode_Some _ _ _ Hn)) in Hattr.
  rewrite (bind_Done _ _ _ _ _ (derefNode_Some _ _ _ Hn)) in Hstatus.
  rewrite (bind_Done _ _ _ _ _ (derefNode_Some _ _ _ Hn)) in Hconfig.
  rewrite !(bind_Done _ _ _ _ _ (derefNode_Some _ _ _ Hn')).
  split; [by apply derefNode_Some |].
  split; [by eapply readStrMap_ext |].
  split; [by eapply readStrMap_ext |].
  eapply readCfgMap_ext; [done |]. by rewrite Hch.
Qed.

Lemma sameView_refl w : sameView w w.
Proof. by intros p n attr status config. Qed.

(** Nodes are immutable under the updates of attributes and status: in a
    well-formed registry [UpdateNodeAttr], [UpdateNodeStatus],
    [UpdateErrorStatus] and [UpdateNodeConfigValues] return whatever
    device they are given, and afterwards every node pointer held from
    before leads to the same struct, with attributes, status and
    configuration reading as before: the changes go to a new node. *)
Theorem updates_keep_held_nodes (Now : nat -> string) (w : World) :
  regWF w ->
  (forall hwID attrParams,
     exists b w', UpdateNodeAttr Now hwID attrParams w = Done b w' /\ sameView w w') /\
  (forall hwID statusAttr,
     exists b w', UpdateNodeStatus Now hwID statusAttr w = Done b w' /\ sameView w w') /\
  (forall hwID runState errorMsg,
     exists b w',
       UpdateErrorStatus Now hwID runState errorMsg w = Done b w' /\ sameView w w') /\
  (forall hwID params,
     exists b w',
       UpdateNodeConfigValues Now hwID params w = Done b w' /\ sameView w w').
Proof.
  intros Hwf.
  assert (Hreg : forall hwID l, lookupPtr (deviceMap (regNodes w)) hwID = Some l ->
            exists n attr status config,
              nodeIs w l n attr status /\ readCfgMap (Config n) w = Done config w).
  { intros hwID l Hl. registered_facts Hwf Hl n attr status config c0.
    exists n, attr, status, config. split; [done |].
    rewrite HC. by apply readCfgMap_Some. }
  split; [| split; [| split]].
  - intros hwID attrParams.
    destruct (lookupPtr (deviceMap (regNodes w)) hwID) as [l|] eqn:Hl.
    + destruct (Hreg hwID l Hl) as (n & attr & status & config & Hnode & _).
      destruct (UpdateNodeAttr_preserves Now hwID attrParams w l n attr status Hl Hnode)
        as (b & w' & Hrun & Hpres & Hcfg).
      exists b, w'. split; [done |]. by apply storePreserved_sameView.
    + exists false, w. split; [| apply sameView_refl].
      unfold UpdateNodeAttr. rewrite (bind_Done _ _ _ _ _ (GetNodeByHWID_eq hwID w)).
      by rewrite Hl.
  - intros hwID statusAttr.
    destruct (lookupPtr (deviceMap (regNodes w)) hwID) as [l|] eqn:Hl.
    + destruct (Hreg hwID l Hl) as (n & attr & status & config & Hnode & _).
      destruct (UpdateNodeStatus_preserves Now hwID statusAttr w l n attr status Hl Hnode)
        as (b & w' & Hrun & Hpres & Hcfg).
      exists b, w'. split; [done |]. by apply storePreserved_sameView.
    + exists false, w. split; [| apply sameView_refl].
      unfold UpdateNodeStatus. rewrite (bind_Done _ _ _ _ _ (GetNodeByHWID_eq hwID w)).
      by rewrite Hl.
  - intros hwID runState errorMsg.
    destruct (lookupPtr (deviceMap (regNodes w)) hwID) as [l|] eqn:Hl.
    + destruct (Hreg hwID l Hl) as (n & attr & status & config & Hnode & _).
      destruct (UpdateErrorStatus_preserves Now hwID runState errorMsg w l n attr status
                  Hl Hnode) as (b & w' & Hrun & Hpres & Hcfg).
      exists b, w'. split; [done |]. by apply storePreserved_sameView.
    + exists false, w. split; [| apply sameView_refl].
      unfold UpdateErrorStatus. rewrite (bind_Done _ _ _ _ _ (GetNodeByHWID_eq hwID w)).
      by rewrite Hl.
  - intros hwID params.
    destruct (lookupPtr (deviceMap (regNodes w)) hwID) as [l|] eqn:Hl;
      [destruct params as [params|] |].
    + destruct (Hreg hwID l Hl) as (n & attr & status & config & Hnode & Hconfig).
      destruct (UpdateNodeConfigValues_Done Now hwID params w l n attr status config
                  Hl Hnode Hconfig) as (w' & Hrun & Hpres & Hcfg & _).
      eexists _, w'. split; [exact Hrun |]. by apply storePreserved_sameView.
    + exists false, w. split; [| apply sameView_refl].
      unfold UpdateNodeConfigValues.
      rewrite (bind_Done _ _ _ _ _ (GetNodeByHWID_eq hwID w)). by rewrite Hl.
    + exists false, w. split; [| apply sameView_refl].
      unfold UpdateNodeConfigValues.
      rewrite (bind_Done _ _ _ _ _ (GetNodeByHWID_eq hwID w)). by rewrite Hl.
Qed.

Lemma updates_keep_held_nodes_witness :
  (forall hwID attrParams,
     exists b w',
       UpdateNodeAttr exampleNow hwID attrParams world2 = Done b w' /\
       sameView world2 w') /\
  (forall hwID statusAttr,
     exists b w',
       UpdateNodeStatus exampleNow hwID statusAttr world2 = Done b w' /\
       sameView world2 w') /\
  (forall hwID runState errorMsg,
     exists b w',
       UpdateErrorStatus exampleNow hwID runState errorMsg world2 = Done b w' /\
       sameView world2 w') /\
  (forall hwID params,
     exists b w',
       UpdateNodeConfigValues exampleNow hwID params world2 = Done b w' /\
       sameView world2 w').
Proof. apply (updates_keep_held_nodes exampleNow world2). compute_done. Defined.

(** ** The list of all nodes *)

(** [GetAllNodes] changes nothing and returns one entry for every nodeID
    the registry knows, the [nil] left under a nodeID that [SetNodeID]
    retired included; in a well-formed registry every entry that is not
    [nil] leads to a node whose three maps exist. *)
Theorem GetAllNodes_lists_nodeMap (w : World) :
  regWF w ->
  exists nodes,
    GetAllNodes w = Done nodes w /\
    length nodes = size (nodeMap (regNodes w)) /\
    (forall p, p ∈ nodes <-> exists nodeID, nodeMap (regNodes w) !! nodeID = Some p) /\
    Forall (usable w) nodes.
Proof.
  intros Hwf. exists (snd <$> map_to_list (nodeMap (regNodes w))).
  split; [reflexivity |].
  assert (Hin : forall p, p ∈ snd <$> map_to_list (nodeMap (regNodes w)) <->
                          exists nodeID, nodeMap (regNodes w) !! nodeID = Some p).
  { intros p. rewrite list_elem_of_fmap. split.
    - intros ([nodeID p'] & -> & Hin). exists nodeID. by apply elem_of_map_to_list.
    - intros (nodeID & Hp). exists (nodeID, p). split; [done |].
      by apply elem_of_map_to_list. }
  split; [by rewrite length_fmap, length_map_to_list |].
  split; [exact Hin |].
  apply Forall_forall. intros p Hp. apply Hin in Hp as (nodeID & Hp).
  destruct Hwf as (_ & Hnm & _). specialize (Hnm nodeID p Hp).
  unfold entryOK in Hnm. unfold usable. destruct p as [l|]; [| done].
  destruct (nodeHeap w !! l); [by destruct Hnm | done].
Qed.

Lemma GetAllNodes_lists_nodeMap_witness :
  exists nodes,
    GetAllNodes worldRenamed = Done nodes worldRenamed /\
    length nodes = size (nodeMap (regNodes worldRenamed)) /\
    (forall p, p ∈ nodes <->
               exists nodeID, nodeMap (regNodes worldRenamed) !! nodeID = Some p) /\
    Forall (usable worldRenamed) nodes.
Proof. apply (GetAllNodes_lists_nodeMap worldRenamed). compute_done. Defined.

(** ** Declaring a configuration *)

(** Declare and read back.  [CreateNodeConfig] on a registered device of
    a well-formed registry returns the descriptor made of the given data
    type, description and default, whether the name had a configuration
    or not; afterwards the device has that descriptor under the name, its
    other configurations and its attributes being as before, so that
    [GetNodeConfigString] of the name returns the attribute value if there
    is one, else the given default, else the default of the caller, and
    returns for every other name what it returned before. *)
Theorem CreateNodeConfig_GetNodeConfigString (Now : nat -> string)
    (hwID attrName dataType description defaultValue : string) (w : World)
    (config : gmap string ConfigAttr) (attr : gmap string string) :
  regWF w ->
  registeredAs w hwID config attr ->
  let c := mkConfigAttr dataType description defaultValue in
  exists w',
    CreateNodeConfig Now hwID attrName dataType description defaultValue w
      = Done (Some c) w' /\
    registeredAs w' hwID (<[attrName := c]> config) attr /\
    (forall dflt,
       GetNodeConfigString hwID attrName dflt w' =
       Done (precedence (attr !! attrName) defaultValue dflt, None) w') /\
    (forall k dflt r, k <> attrName ->
       GetNodeConfigString hwID k dflt w = Done r w ->
       GetNodeConfigString hwID k dflt w' = Done r w').
Proof.
  intros Hwf Hreg c. pose proof Hreg as (l & n0 & Hl & Hn0 & Hcfg & Hattr).
  registered_facts Hwf Hl n attr0 status config0 c0.
  rewrite Hn0 in Hn. injection Hn as ->.
  assert (attr0 = attr) as -> by (rewrite Ha in Hattr; by injection Hattr).
  assert (config0 = config) as ->.
  { rewrite HC in Hcfg. rewrite (readCfgMap_Some _ _ _ Hc0) in Hcfg.
    by injection Hcfg. }
  assert (Hreg' : exists w',
            CreateNodeConfig Now hwID attrName dataType description defaultValue w
              = Done (Some c) w' /\
            registeredAs w' hwID (<[attrName := c]> config) attr).
  { unfold CreateNodeConfig.
    rewrite (bind_Done _ _ _ _ _ (GetNodeByHWID_eq hwID w)). rewrite Hl.
    run derefNode_Some. rewrite HC. run readCfgMap_Some.
    replace (match config !! attrName with
             | Some config0 => _
             | None => mkConfigAttr dataType description defaultValue
             end) with c by (by destruct (config !! attrName)).
    run_Clone Hn0 Ha Hs a s l'.
    run derefNode_Some. simpl. rewrite HC.
    run readCfgMap_Some. run writeCfgMap_Some. run updateNode_Done.
    eexists. split; [reflexivity |].
    exists l'. eexists. simpl. rewrite Hh.
    split; [unfold lookupPtr; by rewrite lookup_insert_eq |].
    split; [by rewrite lookup_insert_eq |]. simpl. rewrite ?HC.
    split; [apply readCfgMap_Some | apply readStrMap_Some]; heap_lookup. }
  destruct Hreg' as (w' & Hrun & Hreg'). exists w'.
  split; [exact Hrun |]. split; [exact Hreg' |]. split.
  - intros dflt. rewrite (GetNodeConfigString_registered _ _ _ _ _ _ Hreg').
    by rewrite lookup_insert_eq.
  - intros k dflt r Hk.
    rewrite (GetNodeConfigString_registered _ _ _ _ _ _ Hreg).
    rewrite (GetNodeConfigString_registered _ _ _ _ _ _ Hreg').
    rewrite lookup_insert_ne by done.
    destruct (config !! k); intros [= <-]; reflexivity.
Qed.

Lemma CreateNodeConfig_GetNodeConfigString_witness :
  regWF world1 /\
  exists w',
    CreateNodeConfig exampleNow "hw1" "interval" "int" "Poll interval" "10" world1
      = Done (Some (mkConfigAttr "int" "Poll interval" "10")) w' /\
    GetNodeConfigString "hw1" "interval" "60" w' = Done ("10", None) w'.
Proof.
  pose (cfg := default ∅ (valueOf (configOfDevice "hw1") world1)).
  pose (att := default ∅ (valueOf (attrOfDevice "hw1") world1)).
  assert (Hwf : regWF world1) by compute_done.
  assert (R1 : registeredAs world1 "hw1" cfg att).
  { exists 1%positive, (default (mkNode "" None None "" "" "" None "")
                          (valueOf (derefNode (Some 1%positive)) world1)).
    repeat apply conj; compute_done. }
  split; [exact Hwf |].
  destruct (CreateNodeConfig_GetNodeConfigString exampleNow "hw1" "interval" "int"
              "Poll interval" "10" world1 cfg att Hwf R1)
    as (w' & Hrun & _ & Hget & _).
  exists w'. split; [exact Hrun |]. rewrite Hget. f_equal.
Defined.

(** ** Examples of the refusal of a nodeID and of a configure command *)

Lemma SetNodeID_in_use_rejected_witness :
  exists w',
    SetNodeID exampleNow (Some 4%positive) "x" worldAB = Done false w' /\
    regNodes w' = regNodes worldAB /\
    storePreserved worldAB w' /\ cfgMapHeap w' = cfgMapHeap worldAB.
Proof.
  apply (SetNodeID_in_use_rejected exampleNow "x" worldAB 4%positive
           (mkNode "dom/pub/a/$node" (Some 7%positive) (Some 2%positive) "b" "a" "pub"
                   (Some 8%positive) "2020-06-01T12:00:05")
           (default ∅ (valueOf (attrOf (Some 4%positive)) worldAB))
           (default ∅ (valueOf (statusOf (Some 4%positive)) worldAB)));
    [repeat apply conj; compute_done | done | compute_done | done].
Defined.

Lemma receiveConfigureCommand_configures_witness :
  exists w' attr',
    receiveConfigureCommand exampleNow (decodeAs (mkDecoded true true None exampleConfigure))
      None "dom/pub/hw1/$configure" "msg" world1 = Done None w' /\
    registeredAs w' "hw1" (default ∅ (valueOf (configOfDevice "hw1") world1)) attr' /\
    (forall k v, ({["name" := "Kitchen"]} : NodeAttrMap) !! k = Some v ->
       is_Some (default ∅ (valueOf (configOfDevice "hw1") world1) !! k) ->
       attr' !! k = Some v).
Proof.
  apply (receiveConfigureCommand_configures exampleNow
           (decodeAs (mkDecoded true true None exampleConfigure)) None
           "dom/pub/hw1/$configure" "msg" world1 1%positive
           (mkNode "dom/pub/hw1/$node" (Some 1%positive) (Some 1%positive) "hw1" "hw1"
                   "pub" (Some 2%positive) "2020-06-01T12:00:01")
           {["type" := "sensor"]} ∅
           (default ∅ (valueOf (configOfDevice "hw1") world1))
           {["name" := "Kitchen"]});
    try done; try compute_done; repeat apply conj; compute_done.
Defined.

(** ** Configure commands that change nothing *)

(** Whatever the registry holds: when [receiveConfigureCommand] returns an
    error the registry and the store are as before; a command that passes
    the envelope checks but is addressed to no registered nodeID, or whose
    message is empty, is refused as such; and when the handler of the
    application returns [nil] for a command that passed all checks, nothing
    is changed and no error is returned. *)
Theorem receiveConfigureCommand_refusals (Now : nat -> string)
    (DecodeMessage : string -> Decoded NodeConfigureMessage)
    (handler : option NodeConfigureHandler) (address message : string) (w : World) :
  let d := DecodeMessage message in
  let run := receiveConfigureCommand Now DecodeMessage handler address message w in
  let passed := isEncrypted d = true /\ isSigned d = true /\ decodeErr d = None in
  (forall e w', run = Done (Some e) w' -> w' = w) /\
  (passed -> GetNodeByAddress address w = Done None w \/ message = "" ->
   run = Done (Some (ErrUnknownNode address)) w) /\
  (forall l h, passed -> GetNodeByAddress address w = Done (Some l) w -> message <> "" ->
   handler = Some h -> h address (cm_Attr (decoded d)) = None ->
   run = Done None w).
Proof.
  intros d run passed. subst run passed. unfold receiveConfigureCommand. fold d.
  assert (Hget : exists node, GetNodeByAddress address w = Done node w).
  { unfold GetNodeByAddress.
    destruct (decide (length (Split address slash) < 3)); eauto. }
  destruct Hget as (node & Hget).
  split; [| split].
  - intros e w'.
    destruct (isEncrypted d); simpl; [| by intros [= _ <-]].
    destruct (isSigned d); simpl; [| by intros [= _ <-]].
    destruct (decodeErr d); [by intros [= _ <-] |].
    rewrite (bind_Done _ _ _ _ _ Hget).
    destruct (decide (node = None ∨ message = "")); [by intros [= _ <-] |].
    destruct (match handler with
              | Some h => h address (cm_Attr (decoded d))
              | None => cm_Attr (decoded d)
              end) as [params|]; [| by intros [= ]].
    unfold bind.
    destruct (derefNode node w) as [nd w1|]; [| done].
    destruct (UpdateNodeConfigValues Now (NodeID nd) (Some params) w1); [| done].
    by intros [=].
  - intros (-> & -> & ->) Hunknown. simpl.
    rewrite (bind_Done _ _ _ _ _ Hget). rewrite decide_True; [done |].
    destruct Hunknown as [Hnone | ->]; [| by right].
    left. rewrite Hget in Hnone. by injection Hnone.
  - intros l h (-> & -> & ->) Hfound Hmsg -> Hveto. simpl.
    rewrite (bind_Done _ _ _ _ _ Hfound).
    rewrite decide_False by (intros [? | ?]; done).
    by rewrite Hveto.
Qed.

Lemma receiveConfigureCommand_refusals_witness :
  receiveConfigureCommand exampleNow (decodeAs (mkDecoded true true None exampleConfigure))
    None "dom/pub/hw9/$configure" "msg" world1
  = Done (Some (ErrUnknownNode "dom/pub/hw9/$configure")) world1.
Proof.
  apply (receiveConfigureCommand_refusals exampleNow
           (decodeAs (mkDecoded true true None exampleConfigure)) None
           "dom/pub/hw9/$configure" "msg" world1);
    [repeat apply conj; reflexivity | left; compute_done].
Defined.

(** ** The nodes to publish *)

